(** * Bulk operations on IDM configuration entities

    A shallow embedding of [src/ops/IdmConfigOps.ts] and of the REST layer
    [src/api/IdmConfigApi.ts] it drives, followed by the properties of the
    export, import and delete operations.

    The TypeScript code is a set of [async] functions which [await] promises,
    [throw] and [catch] errors, push onto local arrays and talk to a remote
    store and to the console.  The embedding keeps these as they are written:
    - a function body is a computation in a state-and-exception monad [M] over
      the local variables of the function and the outside [World];
    - calling an [async] function never throws: it yields a settled [Promise];
      only [await] turns a rejection into an exception;
    - the remote store is reached through the HTTP verbs of an [Env], about
      which nothing is assumed except that [GET] does not write;
    - the modules of the library that the operations import and that are not
      part of the sources at hand (the console, the validator of script
      hooks, the class of the errors) are fields of the [Env] or are
      modelled from the specification, and say so. *)

From stdpp Require Import base strings list sorting gmap pretty.
From Stdlib Require Import ZArith Lia Ascii.

Local Open Scope string_scope.
Local Open Scope list_scope.
Local Open Scope Z_scope.
Local Set Warnings "-register-all".

(** ** Data model *)

(** Arbitrary JSON content of a configuration document. *)
Inductive Json : Type :=
| JNull
| JBool (b : bool)
| JNumber (z : Z)
| JString (s : string)
| JArray (items : list Json)
| JObject (members : list (string * Json)).

(** [IdObjectSkeletonInterface]: a document with its [_id] and further
    members that the engine never interprets. *)
Record Entity : Type := mkEntity {
  _id : string;
  members : list (string * Json)
}.

(** [IdmConfigStub] (IdmConfigApi.ts); its identifier is the [_id] member. *)
Record IdmConfigStub : Type := mkStub {
  stub_id : string;
  pid : string;
  factoryPid : option string
}.

(** [IdmConfigStubs]: the payload of the listing of stubs. *)
Record IdmConfigStubs : Type := mkStubs {
  configurations : list IdmConfigStub
}.

(** [PagedResult<T>]: the payload of a query. *)
Record PagedResult : Type := mkPaged {
  result : list Entity
}.

(** [ExportMetaData], as [getMetadata] fills it. *)
Record ExportMetaData : Type := mkMeta {
  origin : string;
  exportedBy : string;
  exportDate : string;
  exportTool : string;
  exportToolVersion : string
}.

(** A JavaScript object used as a record from identifiers to entities
    ([Record<string, IdObjectSkeletonInterface>]): its own properties in
    the order in which the runtime enumerates them, which is the keys that
    are array indices in ascending order, then the other keys in the order
    in which they were created. *)
Definition JsRecord : Type := list (string * Entity).

(** [Object.keys(o)]. *)
Definition Object_keys (o : JsRecord) : list string := map fst o.

(** [o[k]], [None] standing for [undefined]. *)
Fixpoint obj_get (o : JsRecord) (k : string) : option Entity :=
  match o with
  | [] => None
  | (k', v) :: o' => if String.eqb k k' then Some v else obj_get o' k
  end.

(** A property key is an array index when it is the decimal form, without
    sign, leading zero or fraction, of an integer from 0 to 2^32 - 2. *)
Definition digitValue (c : Ascii.ascii) : option N :=
  let n := Ascii.N_of_ascii c in
  if ((48 <=? n) && (n <=? 57))%N then Some (n - 48)%N else None.

Fixpoint decimalValue (s : string) (acc : N) : option N :=
  match s with
  | EmptyString => Some acc
  | String c s' =>
      match digitValue c with
      | Some d => decimalValue s' (10 * acc + d)%N
      | None => None
      end
  end.

Definition arrayIndex (k : string) : option N :=
  match k with
  | EmptyString => None
  | String c rest =>
      if Ascii.eqb c "0" && negb (String.eqb rest "") then None
      else
        match decimalValue k 0 with
        | Some n => if (n <=? 4294967294)%N then Some n else None
        | None => None
        end
  end.

(** A new key [k] is enumerated before the key [k'] already there: [k] is
    an array index and [k'] is a greater one or is none. *)
Definition precedes (k k' : string) : bool :=
  match arrayIndex k, arrayIndex k' with
  | Some n, Some n' => (n <? n')%N
  | Some _, None => true
  | None, _ => false
  end.

Fixpoint obj_replace (o : JsRecord) (k : string) (v : Entity) : JsRecord :=
  match o with
  | [] => []
  | (k', v') :: o' =>
      if String.eqb k k' then (k', v) :: o' else (k', v') :: obj_replace o' k v
  end.

Fixpoint obj_insert (o : JsRecord) (k : string) (v : Entity) : JsRecord :=
  match o with
  | [] => [(k, v)]
  | (k', v') :: o' =>
      if precedes k k' then (k, v) :: o else (k', v') :: obj_insert o' k v
  end.

(** [o[k] = v] on an object that inherits from [Object.prototype]: replaces
    the value of an own property where it stands, or creates the property,
    which takes its place in the enumeration.  The key [__proto__] is the
    accessor of the prototype: unless the object has a property of its own
    under that key, the assignment gives the object another prototype and
    creates no property; the prototype is read by none of the operations. *)
Definition obj_set (o : JsRecord) (k : string) (v : Entity) : JsRecord :=
  match obj_get o k with
  | Some _ => obj_replace o k v
  | None => if String.eqb k "__proto__" then o else obj_insert o k v
  end.

(** The place a new key takes among the keys. *)
Fixpoint key_insert (keys : list string) (k : string) : list string :=
  match keys with
  | [] => [k]
  | k' :: keys' =>
      if precedes k k' then k :: keys else k' :: key_insert keys' k
  end.

Definition isArrayIndex (k : string) : bool :=
  match arrayIndex k with Some _ => true | None => false end.

(** The keys that are no array indices, in the order of the list. *)
Definition names (keys : list string) : list string :=
  List.filter (fun k => negb (isArrayIndex k)) keys.

(** A list of keys is in the order of enumeration when no key of it is to
    be enumerated before an earlier one: the array indices come first, in
    ascending order. *)
Definition enumeration_order (keys : list string) : Prop :=
  StronglySorted (fun k k' => precedes k' k = false) keys.

(** [ConfigEntityExportInterface]. *)
Record ConfigEntityExportInterface : Type := mkExport {
  meta : option ExportMetaData;
  idm : JsRecord
}.

(** [ConfigEntityImportOptions]. *)
Record ConfigEntityImportOptions : Type := mkOptions {
  validate : bool
}.

(** The part of [State] the operations read. *)
Record State : Type := mkState {
  getHost : string;
  getDeploymentType : string
}.

(** ** Errors *)

(** What a [FrodoError] is constructed from: [new FrodoError(message)],
    [new FrodoError(message, error)] or [new FrodoError(message, errors)]. *)
Inductive Wrapped (E : Type) : Type :=
| NoCause
| OneCause (e : E)
| ManyCauses (es : list E).
Arguments NoCause {E}.
Arguments OneCause {E} e.
Arguments ManyCauses {E} es.

(** A thrown value: the error of a failed HTTP call, with the status, code,
    reason and message of the response where there is one, a [FrodoError]
    of the engine, or an exception of the JavaScript runtime, of which the
    name is kept ([TypeError], [RangeError], ...). *)
Inductive Error : Type :=
| HttpError (status : option Z) (code reason message : option string)
| FrodoError (message : string) (originalErrors : Wrapped Error)
| RuntimeError (name : string).

(** Modelled from the spec: the class [FrodoError] is not under src/.  The
    spec describes it as a structured failure carrying an HTTP status code, an
    HTTP error reason or message and an optional wrapped cause, used for
    classification: an error wrapping one cause carries the HTTP members of
    that cause, and one wrapping a list of causes those of the first.  The
    operations classify wrappers of one cause only. *)
Fixpoint httpStatus (e : Error) : option Z :=
  match e with
  | HttpError s _ _ _ => s
  | FrodoError _ (OneCause e') => httpStatus e'
  | FrodoError _ (ManyCauses (e' :: _)) => httpStatus e'
  | FrodoError _ _ => None
  | RuntimeError _ => None
  end.

Fixpoint httpCode (e : Error) : option string :=
  match e with
  | HttpError _ c _ _ => c
  | FrodoError _ (OneCause e') => httpCode e'
  | FrodoError _ (ManyCauses (e' :: _)) => httpCode e'
  | FrodoError _ _ => None
  | RuntimeError _ => None
  end.

Fixpoint httpErrorReason (e : Error) : option string :=
  match e with
  | HttpError _ _ r _ => r
  | FrodoError _ (OneCause e') => httpErrorReason e'
  | FrodoError _ (ManyCauses (e' :: _)) => httpErrorReason e'
  | FrodoError _ _ => None
  | RuntimeError _ => None
  end.

Fixpoint httpMessage (e : Error) : option string :=
  match e with
  | HttpError _ _ _ m => m
  | FrodoError _ (OneCause e') => httpMessage e'
  | FrodoError _ (ManyCauses (e' :: _)) => httpMessage e'
  | FrodoError _ _ => None
  | RuntimeError _ => None
  end.

(** Modelled from the spec: the class [FrodoError] is not under src/.  The
    spec has a failure wrap an optional cause, or an ordered list of causes:
    the errors a [FrodoError] wraps are the one error, or the errors of the
    array, that its constructor is given, in order, and none if it is given
    none. *)
Definition originalErrors (e : Error) : list Error :=
  match e with
  | FrodoError _ NoCause => []
  | FrodoError _ (OneCause e') => [e']
  | FrodoError _ (ManyCauses es) => es
  | HttpError _ _ _ _ => []
  | RuntimeError _ => []
  end.

(** [x === n] and [x === 's'] for a member that may be [undefined]. *)
Definition is_status (x : option Z) (n : Z) : bool :=
  match x with Some m => Z.eqb m n | None => false end.

Definition is_string (x : option string) (s : string) : bool :=
  match x with Some t => String.eqb t s | None => false end.

(** [l.includes(x)] on an array of strings. *)
Definition includes (l : list string) (x : string) : bool :=
  existsb (String.eqb x) l.

(** [s.split(sep)] for a separator of one character: the pieces of [s]
    between the separators, in order; there is always at least one piece. *)
Fixpoint split_on (sep : Ascii.ascii) (s : string) : list string :=
  match s with
  | EmptyString => [EmptyString]
  | String c s' =>
      if Ascii.eqb c sep then EmptyString :: split_on sep s'
      else
        match split_on sep s' with
        | piece :: pieces => String c piece :: pieces
        | [] => [String c EmptyString]
        end
  end.

(** [encodeURIComponent(s)] of the runtime, for a string given by the bytes
    of its UTF-8 form: letters, digits and the marks [- _ . ! ~ * ' ( )]
    stand for themselves, every other byte is written [%XX] with two
    upper-case hexadecimal digits. *)
Definition uriUnreserved (c : Ascii.ascii) : bool :=
  let n := Ascii.N_of_ascii c in
  ((65 <=? n) && (n <=? 90) || (97 <=? n) && (n <=? 122) ||
   (48 <=? n) && (n <=? 57))%N
  || existsb (Ascii.eqb c)
       ["-"; "_"; "."; "!"; "~"; "*"; "'"; "("; ")"]%char.

Definition hexDigit (n : N) : Ascii.ascii :=
  if (n <? 10)%N then Ascii.ascii_of_N (48 + n) else Ascii.ascii_of_N (55 + n).

Fixpoint encodeURIComponent (s : string) : string :=
  match s with
  | EmptyString => EmptyString
  | String c s' =>
      if uriUnreserved c then String c (encodeURIComponent s')
      else
        String "%"
          (String (hexDigit (Ascii.N_of_ascii c / 16))
             (String (hexDigit (Ascii.N_of_ascii c mod 16))
                (encodeURIComponent s')))
  end.

(** ** The outside world *)

Inductive Method : Type := GET | PUT | DELETE.

(** One HTTP request sent through the IDM API client. *)
Record Request : Type := mkRequest {
  method : Method;
  url : string;
  data : option Entity
}.

(** What [printMessage] is given. *)
Inductive Message : Type :=
| Text (s : string)
| ResponseData (e : Error)             (* [e.response?.data] *)
| TextAndError (s : string) (e : Error). (* a template ending in [${e}] *)

(** Calls to the console utilities, in the order in which they are made. *)
Inductive ConsoleEvent : Type :=
| DebugMessage (message : string)
| PrintMessage (message : Message) (type : string)
| PrintError (e : Error)
| CreateProgressIndicator (total : nat) (message : string)
| UpdateProgressIndicator (id : string) (message : string)
| StopProgressIndicator (id : string) (message : string) (status : string).

(** The collaborators of the engine that are not under src/, taken as
    parameters: the HTTP client returned by [generateIdmApi], typed by the
    payload each API function declares, and the utilities the operations
    import.
    - [areScriptHooksValid] gives the verdict of the validator of
      utils/ScriptValidationUtils on a document and [scriptHookMessages] what
      the validator prints while it reaches that verdict.
    - [printError_throws] gives what [printError] of utils/Console does when
      it is called the way the export calls it, with the caught error as its
      one argument: it returns ([None]) or throws a value.  Every other
      console utility is called with one object that holds its arguments and
      the state. *)
Class Env : Type := mkEnv {
  Store : Type;
  http_get_stubs : string -> Store -> Error + IdmConfigStubs;
  http_get_query : string -> Store -> Error + PagedResult;
  http_get_entity : string -> Store -> Error + Entity;
  http_put : string -> Entity -> Store -> (Error + Entity) * Store;
  http_delete : string -> Store -> (Error + Entity) * Store;
  getHostBaseUrl : string -> string;
  areScriptHooksValid : Entity -> bool;
  scriptHookMessages : Entity -> list ConsoleEvent;
  getMetadata : State -> ExportMetaData;
  CLOUD_DEPLOYMENT_TYPE_KEY : string;
  newIndicatorId : list ConsoleEvent -> string;
  printError_throws : Error -> option Error
}.

Record World {E : Env} : Type := mkWorld {
  store : Store;
  requests : list Request;
  console : list ConsoleEvent
}.
Arguments mkWorld {E} store requests console.

(** ** Promises and the monad of function bodies *)

(** A settled promise. *)
Inductive Promise (A : Type) : Type :=
| Fulfilled (a : A)
| Rejected (e : Error).
Arguments Fulfilled {A} a.
Arguments Rejected {A} e.

Section Monad.
Context {env : Env}.

(** A computation over the locals [L] of a function and the world, which
    returns or throws.  What it did to the locals and to the world before
    throwing stays done. *)
Definition M (L A : Type) : Type := L -> World -> (Error + A) * L * World.

(** A call of an [async] function, or a job that settles a promise. *)
Definition Async (A : Type) : Type := World -> Promise A * World.

Context {L : Type}.

Definition ret {A} (a : A) : M L A := fun l w => (inr a, l, w).

Definition throw {A} (e : Error) : M L A := fun l w => (inl e, l, w).

Definition bind {A B} (m : M L A) (k : A -> M L B) : M L B :=
  fun l w =>
    match m l w with
    | (inr a, l', w') => k a l' w'
    | (inl e, l', w') => (inl e, l', w')
    end.

(** [try { m } catch (error) { h error }]. *)
Definition try_catch {A} (m : M L A) (h : Error -> M L A) : M L A :=
  fun l w =>
    match m l w with
    | (inr a, l', w') => (inr a, l', w')
    | (inl e, l', w') => h e l' w'
    end.

Definition get_locals : M L L := fun l w => (inr l, l, w).

Definition modify_locals (f : L -> L) : M L unit :=
  fun l w => (inr tt, f l, w).

(** Calling an asynchronous function: a promise comes back, never an
    exception. *)
Definition call {A} (f : Async A) : M L (Promise A) :=
  fun l w => let '(p, w') := f w in (inr p, l, w').

(** [await p]. *)
Definition await {A} (p : Promise A) : M L A :=
  match p with
  | Fulfilled a => ret a
  | Rejected e => throw e
  end.

(** A console utility is called. *)
Definition emit (ev : ConsoleEvent) : M L unit :=
  fun l w =>
    (inr tt, l, mkWorld (store w) (requests w) (console w ++ [ev])).

(** [for (const x of xs) { body x }]. *)
Fixpoint for_of {A} (xs : list A) (body : A -> M L unit) : M L unit :=
  match xs with
  | [] => ret tt
  | x :: xs' => bind (body x) (fun _ => for_of xs' body)
  end.
End Monad.

Notation "x <- m ;; k" := (bind m (fun x => k))
  (at level 100, m at next level, right associativity,
   format "'[v' x  <-  m  ;;  '/' k ']'").
Notation "m ;;; k" := (bind m (fun _ => k))
  (at level 100, right associativity, format "'[v' m  ;;;  '/' k ']'").

Section Async.
Context {env : Env}.

(** [async function f(...) { body }] with locals initialised to [init]: the
    promise is fulfilled with the value returned and rejected with the value
    thrown. *)
Definition async {L A} (init : L) (body : M L A) : Async A :=
  fun w =>
    match body init w with
    | (inr a, _, w') => (Fulfilled a, w')
    | (inl e, _, w') => (Rejected e, w')
    end.

(** An [async] function whose body returns a promise: the promise of the
    call takes the state of the promise returned. *)
Definition async_returning {L A} (init : L) (body : M L (Promise A))
  : Async A :=
  fun w =>
    match body init w with
    | (inr p, _, w') => (p, w')
    | (inl e, _, w') => (Rejected e, w')
    end.

(** [p.catch(h)]: a job that, once run, settles to the value of [p], or to
    what the handler returns for its rejection. *)
Definition promise_catch {A} (p : Promise A) (h : Error -> M unit (option A))
  : Async (option A) :=
  match p with
  | Fulfilled a => fun w => (Fulfilled (Some a), w)
  | Rejected e => async tt (h e)
  end.

(** [Promise.all(jobs)]: the values in the order of the array, or a
    rejection if a job rejects. *)
Fixpoint Promise_all {A} (jobs : list (Async A)) : Async (list A) :=
  match jobs with
  | [] => fun w => (Fulfilled [], w)
  | j :: jobs' =>
      fun w =>
        let '(p, w1) := j w in
        let '(ps, w2) := Promise_all jobs' w1 in
        (match p, ps with
         | Fulfilled a, Fulfilled l => Fulfilled (a :: l)
         | Rejected e, _ => Rejected e
         | Fulfilled _, Rejected e => Rejected e
         end, w2)
  end.
End Async.

Notation "'await!' f" := (bind (call f) await) (at level 10, f at level 9).

(** ** The REST layer (IdmConfigApi.ts) *)

Section IdmConfigApi.
Context {env : Env}.

(** [util.format] on the three URL templates. *)
Definition idmAllConfigURLTemplate (base : string) : string :=
  base +:+ "/openidm/config".
Definition idmConfigURLTemplate (base entityId : string) : string :=
  base +:+ "/openidm/config/" +:+ entityId.
Definition idmConfigEntityQueryTemplate (base filter : string) : string :=
  base +:+ "/openidm/config?_queryFilter=" +:+ filter.

(** [generateIdmApi({ state }).get(url)]: the request is sent and the
    promise settles with the answer of the store, which a [GET] leaves as
    it is. *)
Definition api_get {A} (answer : string -> Store -> Error + A)
    (urlString : string) : Async A :=
  fun w =>
    (match answer urlString (store w) with
     | inr a => Fulfilled a
     | inl e => Rejected e
     end,
     mkWorld (store w) (requests w ++ [mkRequest GET urlString None])
       (console w)).

(** [generateIdmApi({ state }).put(url, data)]. *)
Definition api_put (urlString : string) (entityData : Entity)
  : Async Entity :=
  fun w =>
    let '(r, s) := http_put urlString entityData (store w) in
    (match r with inr a => Fulfilled a | inl e => Rejected e end,
     mkWorld s (requests w ++ [mkRequest PUT urlString (Some entityData)])
       (console w)).

(** [generateIdmApi({ state }).delete(url, { withCredentials: true })]. *)
Definition api_delete (urlString : string) : Async Entity :=
  fun w =>
    let '(r, s) := http_delete urlString (store w) in
    (match r with inr a => Fulfilled a | inl e => Rejected e end,
     mkWorld s (requests w ++ [mkRequest DELETE urlString None])
       (console w)).

Definition _getConfigEntityStubs (state : State) : Async IdmConfigStubs :=
  async tt (
    let urlString := idmAllConfigURLTemplate (getHostBaseUrl (getHost state)) in
    data <- await! (api_get http_get_stubs urlString) ;;
    ret data).

Definition _getConfigEntities (state : State) : Async PagedResult :=
  async tt (
    let urlString :=
      idmConfigEntityQueryTemplate (getHostBaseUrl (getHost state)) "true" in
    data <- await! (api_get http_get_query urlString) ;;
    ret data).

Definition _getConfigEntitiesByType (type : string) (state : State)
  : Async PagedResult :=
  async tt (
    let urlString :=
      idmConfigEntityQueryTemplate (getHostBaseUrl (getHost state))
        (encodeURIComponent ("_id sw '" +:+ type +:+ "'")) in
    data <- await! (api_get http_get_query urlString) ;;
    ret data).

Definition _getConfigEntity (entityId : string) (state : State)
  : Async Entity :=
  async tt (
    let urlString :=
      idmConfigURLTemplate (getHostBaseUrl (getHost state)) entityId in
    data <- await! (api_get http_get_entity urlString) ;;
    ret data).

Definition _putConfigEntity (entityId : string) (entityData : Entity)
    (wait : bool) (state : State) : Async Entity :=
  async tt (
    let urlString :=
      idmConfigURLTemplate (getHostBaseUrl (getHost state))
        (if wait then entityId +:+ "?waitForCompletion=true" else entityId) in
    data <- await! (api_put urlString entityData) ;;
    ret data).

Definition _deleteConfigEntity (entityId : string) (state : State)
  : Async Entity :=
  async tt (
    let urlString :=
      idmConfigURLTemplate (getHostBaseUrl (getHost state)) entityId in
    data <- await! (api_delete urlString) ;;
    ret data).
End IdmConfigApi.

(** ** The operations (IdmConfigOps.ts) *)

Definition AIC_PROTECTED_ENTITIES : list string :=
  [ "emailTemplate/frEmailUpdated";
    "emailTemplate/frForgotUsername";
    "emailTemplate/frOnboarding";
    "emailTemplate/frPasswordUpdated";
    "emailTemplate/frProfileUpdated";
    "emailTemplate/frResetPassword";
    "emailTemplate/frUsernameUpdated" ].

Definition IDM_UNAVAILABLE_ENTITIES : list string :=
  [ "script";
    "notificationFactory";
    "apiVersion";
    "metrics";
    "repo.init";
    "endpoint/validateQueryFilter";
    "endpoint/oauthproxy";
    "external.rest";
    "scheduler";
    "org.apache.felix.fileinstall/openidm";
    "cluster";
    "endpoint/mappingDetails";
    "fieldPolicy/teammember" ].

Section IdmConfigOps.
Context {env : Env}.

(** Modelled from the spec: the module utils/Console is not under src/.
    The spec has the engine log its failures and report its progress without
    any effect on the operation: a call of [debugMessage], [printMessage] or
    of a utility of the progress indicator is recorded and returns. *)
Definition debugMessage {L} (message : string) : M L unit :=
  emit (DebugMessage message).

Definition printMessage {L} (message : Message) (type : string) : M L unit :=
  emit (PrintMessage message type).

(** [printError(error)]: the call is recorded; it returns or throws as the
    console at hand has it. *)
Definition printError {L} (error : Error) : M L unit :=
  emit (PrintError error) ;;;
  match printError_throws error with
  | Some thrown => throw thrown
  | None => ret tt
  end.

(** [areScriptHooksValid({ jsonData, state })]: the validator prints what it
    has to say and returns its verdict. *)
Definition call_areScriptHooksValid {L} (jsonData : Entity) : M L bool :=
  fun l w =>
    (inr (areScriptHooksValid jsonData), l,
     mkWorld (store w) (requests w)
       (console w ++ scriptHookMessages jsonData)).

Definition createProgressIndicator {L} (total : nat) (message : string)
  : M L string :=
  fun l w =>
    (inr (newIndicatorId (console w)), l,
     mkWorld (store w) (requests w)
       (console w ++ [CreateProgressIndicator total message])).

Definition updateProgressIndicator {L} (id message : string) : M L unit :=
  emit (UpdateProgressIndicator id message).

Definition stopProgressIndicator {L} (id message status : string)
  : M L unit :=
  emit (StopProgressIndicator id message status).

Definition createConfigEntityExportTemplate (state : State)
  : ConfigEntityExportInterface :=
  mkExport (Some (getMetadata state)) [].

Definition readConfigEntityStubs (state : State)
  : Async (list IdmConfigStub) :=
  async tt (
    try_catch
      (stubs <- await! (_getConfigEntityStubs state) ;;
       ret (configurations stubs))
      (fun error =>
         throw (FrodoError "Error reading config entity stubs"
                  (OneCause error)))).

(** The local that changes is [types]. *)
Definition readConfigEntityTypes (state : State) : Async (list string) :=
  async ([] : list string) (
    try_catch
      (stubs <- await! (readConfigEntityStubs state) ;;
       for_of stubs (fun stub =>
         if (0 <? length (split_on "/"%char (stub_id stub)))%nat then
           match head (split_on "/"%char (stub_id stub)) with
           | Some type =>
               types <- get_locals ;;
               if negb (includes types type)
               then modify_locals (fun types => types ++ [type])
               else ret tt
           | None => ret tt (* not reached: the array is not empty *)
           end
         else ret tt) ;;;
       types <- get_locals ;;
       ret types)
      (fun error =>
         throw (FrodoError "Error reading config entity types"
                  (OneCause error)))).

Definition readConfigEntities (state : State) : Async (list Entity) :=
  async tt (
    try_catch
      (page <- await! (_getConfigEntities state) ;;
       ret (result page))
      (fun error =>
         throw (FrodoError "Error reading config entities"
                  (OneCause error)))).

Definition readConfigEntitiesByType (type : string) (state : State)
  : Async (list Entity) :=
  async tt (
    try_catch
      (page <- await! (_getConfigEntitiesByType type state) ;;
       ret (result page))
      (fun error =>
         throw (FrodoError "Error reading config entities by type"
                  (OneCause error)))).

Definition readConfigEntity (entityId : string) (state : State)
  : Async Entity :=
  async tt (
    try_catch
      (result <- await! (_getConfigEntity entityId state) ;;
       ret result)
      (fun error =>
         throw (FrodoError ("Error reading config entity " +:+ entityId)
                  (OneCause error)))).

(** The test of the [.catch] callback of the export: the failure is none
    of the three expected ones. *)
Definition export_unexpected (entityId : string) (error : Error) : bool :=
  negb (is_status (httpStatus error) 403 &&
        is_string (httpMessage error)
          "This operation is not available in ForgeRock Identity Cloud.")
  && negb (includes IDM_UNAVAILABLE_ENTITIES entityId &&
           is_status (httpStatus error) 404 &&
           is_string (httpErrorReason error) "Not Found")
  && negb (is_status (httpStatus error) 404 &&
           is_string (httpMessage error)
             "No configuration exists for id org.apache.felix.fileinstall/openidm").

(** The callback given to [.catch]; it returns nothing. *)
Definition export_catch (configEntity : Entity) (readConfigEntityError : Error)
  : M unit (option Entity) :=
  let error := readConfigEntityError in
  if export_unexpected (_id configEntity) error then
    printMessage (ResponseData readConfigEntityError) "error" ;;;
    printMessage
      (TextAndError ("Error getting config entity " +:+ _id configEntity +:+ ": ")
         readConfigEntityError) "error" ;;;
    ret None
  else ret None.

(** The local that changes is [entityPromises].  The refetches are launched
    in the order of the listing; their [.catch] callbacks run as the answers
    arrive, in an order the code does not fix: here they run in the order of
    the array when [Promise.all] is awaited, and the statements below speak
    of what is printed, not of the order among callbacks.  The [catch] calls
    [printError] and has no [return] or [throw] of its own: if the call
    returns, the promise is fulfilled with [undefined] ([None]). *)
Definition exportConfigEntities (state : State)
  : Async (option ConfigEntityExportInterface) :=
  async ([] : list (Async (option Entity))) (
    try_catch
      (configurations <- await! (readConfigEntities state) ;;
       indicatorId <- createProgressIndicator (length configurations)
                        "Exporting config entities..." ;;
       for_of configurations (fun configEntity =>
         updateProgressIndicator indicatorId
           ("Exporting config entity " +:+ _id configEntity) ;;;
         p <- call (readConfigEntity (_id configEntity) state) ;;
         modify_locals (fun entityPromises =>
           entityPromises ++ [promise_catch p (export_catch configEntity)])) ;;;
       entityPromises <- get_locals ;;
       results <- await! (Promise_all entityPromises) ;;
       let exportData := createConfigEntityExportTemplate state in
       let exportData :=
         fold_left (fun exportData result =>
           match result with
           | Some r => mkExport (meta exportData)
                         (obj_set (idm exportData) (_id r) r)
           | None => exportData
           end) results exportData in
       stopProgressIndicator indicatorId
         ("Exported " +:+ pretty (length configurations) +:+ " config entities.")
         "success" ;;;
       ret (Some exportData))
      (fun error =>
         printError error ;;;
         ret None)).

Definition updateConfigEntity (entityId : string) (entityData : Entity)
    (wait : bool) (state : State) : Async Entity :=
  async tt (
    try_catch
      (result <- await! (_putConfigEntity entityId entityData wait state) ;;
       ret result)
      (fun error =>
         throw (FrodoError ("Error updating config entity " +:+ entityId)
                  (OneCause error)))).

Definition createConfigEntity (entityId : string) (entityData : Entity)
    (wait : bool) (state : State) : Async Entity :=
  async tt (
    debugMessage "IdmConfigOps.createConfigEntity: start" ;;;
    exists_ <- try_catch
      (_ <- await! (readConfigEntity entityId state) ;; ret (inl tt))
      (fun error =>
         try_catch
           (result <- await! (updateConfigEntity entityId entityData wait state) ;;
            debugMessage "IdmConfigOps.createConfigEntity: end" ;;;
            ret (inr result))
           (fun error =>
              throw (FrodoError ("Error creating config entity " +:+ entityId)
                       (OneCause error)))) ;;
    match exists_ with
    | inr result => ret result
    | inl _ =>
        throw (FrodoError ("Config entity " +:+ entityId +:+ " already exists!")
                 NoCause)
    end).

(** The test of the inner [catch] of the import: the failure is the
    expected one of a protected entity of the cloud offering. *)
Definition import_protected (state : State) (entityId : string)
    (error : Error) : bool :=
  String.eqb (getDeploymentType state) CLOUD_DEPLOYMENT_TYPE_KEY
  && includes AIC_PROTECTED_ENTITIES entityId
  && is_status (httpStatus error) 403
  && is_string (httpCode error) "ERR_BAD_REQUEST".

(** Locals of [importConfigEntities]: [response] and [errors]. *)
Definition importConfigEntities (importData : ConfigEntityExportInterface)
    (options : ConfigEntityImportOptions) (state : State)
  : Async (list Entity) :=
  async (([] : list Entity), ([] : list Error)) (
    debugMessage "IdmConfigOps.importConfigEntities: start" ;;;
    for_of (Object_keys (idm importData)) (fun entityId =>
      try_catch
        (debugMessage ("IdmConfigOps.importConfigEntities: " +:+ entityId) ;;;
         match obj_get (idm importData) entityId with
         | None => ret tt (* not reached: [entityId] is an own key *)
         | Some entityData =>
             invalid <- (if validate options
                         then valid <- call_areScriptHooksValid entityData ;;
                              ret (negb valid)
                         else ret false) ;;
             if invalid
             then
               throw (FrodoError
                        ("Invalid script hook in the config object '"
                           +:+ entityId +:+ "'") NoCause)
             else
               try_catch
                 (result <- await! (updateConfigEntity entityId entityData
                                      false state) ;;
                  modify_locals (fun '(response, errors) =>
                    (response ++ [result], errors)))
                 (fun error =>
                    if negb (import_protected state entityId error)
                    then throw error
                    else ret tt)
         end)
        (fun error =>
           modify_locals (fun '(response, errors) =>
             (response, errors ++ [error])))) ;;;
    locals <- get_locals ;;
    let '(response, errors) := locals in
    if (0 <? length errors)%nat then
      throw (FrodoError "Error importing config entities" (ManyCauses errors))
    else
      debugMessage "IdmConfigOps.importConfigEntities: end" ;;;
      ret response).

(** Locals of [deleteConfigEntities]: [result] and [errors]. *)
Definition deleteConfigEntities (state : State) : Async (list Entity) :=
  async (([] : list Entity), ([] : list Error)) (
    debugMessage "IdmConfigOps.deleteConfigEntities: start" ;;;
    try_catch
      (configEntityStubs <- await! (readConfigEntityStubs state) ;;
       for_of configEntityStubs (fun configEntityStub =>
         try_catch
           (debugMessage ("IdmConfigOps.deleteConfigEntities: '"
                            +:+ stub_id configEntityStub +:+ "'") ;;;
            deleted <- await! (_deleteConfigEntity (stub_id configEntityStub)
                                 state) ;;
            modify_locals (fun '(result, errors) =>
              (result ++ [deleted], errors)))
           (fun error =>
              modify_locals (fun '(result, errors) =>
                (result, errors ++ [error])))))
      (fun error =>
         modify_locals (fun '(result, errors) => (result, errors ++ [error]))) ;;;
    locals <- get_locals ;;
    let '(result, errors) := locals in
    if (0 <? length errors)%nat then
      throw (FrodoError "Error deleting config entities" (ManyCauses errors))
    else
      debugMessage "IdmConfigOps.deleteConfigEntities: end" ;;;
      ret result).

Definition deleteConfigEntitiesByType (type : string) (state : State)
  : Async (list Entity) :=
  async (([] : list Entity), ([] : list Error)) (
    debugMessage "IdmConfigOps.deleteConfigEntitiesByType: start" ;;;
    try_catch
      (configEntities <- await! (readConfigEntitiesByType type state) ;;
       for_of configEntities (fun configEntity =>
         try_catch
           (debugMessage ("IdmConfigOps.deleteConfigEntitiesByType: '"
                            +:+ _id configEntity +:+ "'") ;;;
            deleted <- await! (_deleteConfigEntity (_id configEntity) state) ;;
            modify_locals (fun '(result, errors) =>
              (result ++ [deleted], errors)))
           (fun error =>
              modify_locals (fun '(result, errors) =>
                (result, errors ++ [error])))) ;;;
       locals <- get_locals ;;
       let '(result, errors) := locals in
       if (0 <? length errors)%nat then
         throw (FrodoError "Error deleting config entities by type"
                  (ManyCauses errors))
       else
         debugMessage "IdmConfigOps.deleteConfigEntitiesByType: end" ;;;
         ret result)
      (fun error =>
         locals <- get_locals ;;
         let '(result, errors) := locals in
         (* re-throw previously caught errors *)
         if (0 <? length errors)%nat then throw error
         else
           throw (FrodoError "Error deleting config entities by type"
                    (OneCause error)))).

(** The promise of the API call is returned, not awaited: a rejection does
    not pass through the [catch]. *)
Definition deleteConfigEntity (entityId : string) (state : State)
  : Async Entity :=
  async_returning tt (
    try_catch
      (p <- call (_deleteConfigEntity entityId state) ;; ret p)
      (fun error =>
         throw (FrodoError ("Error deleting config entity " +:+ entityId)
                  (OneCause error)))).
End IdmConfigOps.

(** ** The object the module exports (IdmConfigOps.ts, default export) *)

(** The type [IdmConfig]: one member per method.  An optional parameter is
    [None] when the caller leaves it out. *)
Module Facade.
Record IdmConfig {env : Env} : Type := mkIdmConfig {
  readConfigEntityTypes : Async (list string);
  readConfigEntityStubs : Async (list IdmConfigStub);
  readConfigEntities : Async (list Entity);
  readConfigEntitiesByType : string -> Async (list Entity);
  readConfigEntity : string -> Async Entity;
  exportConfigEntities : Async (option ConfigEntityExportInterface);
  createConfigEntity : string -> Entity -> option bool -> Async Entity;
  updateConfigEntity : string -> Entity -> option bool -> Async Entity;
  importConfigEntities :
    ConfigEntityExportInterface -> option ConfigEntityImportOptions ->
    Async (list Entity);
  deleteConfigEntities : Async (list Entity);
  deleteConfigEntitiesByType : string -> Async (list Entity);
  deleteConfigEntity : string -> Async Entity;
  (* Deprecated *)
  getConfigEntityTypes : Async (list string);
  getAllConfigEntities : Async (list IdmConfigStub);
  getConfigEntitiesByType : string -> Async (list Entity);
  getConfigEntity : string -> Async Entity;
  putConfigEntity : string -> Entity -> Async Entity
}.
End Facade.

Section DefaultExport.
Context {env : Env}.

(** [async m(...) { return f(...); }]: the method returns the promise of the
    call it makes. *)
Definition forward {A} (f : Async A) : Async A :=
  async_returning tt (p <- call f ;; ret p).

(** A parameter with a default value. *)
Definition or_default {A} (x : option A) (d : A) : A :=
  match x with Some a => a | None => d end.

(** [export default (state: State): IdmConfig => { return { ... }; }].  The
    member [testConnectorServers] belongs to IdmSystemOps and is left out. *)
Definition IdmConfig_default (state : State) : Facade.IdmConfig := {|
  Facade.readConfigEntityTypes := forward (readConfigEntityTypes state);
  Facade.readConfigEntityStubs := forward (readConfigEntityStubs state);
  Facade.readConfigEntities := forward (readConfigEntities state);
  Facade.readConfigEntitiesByType := fun type =>
    forward (readConfigEntitiesByType type state);
  Facade.readConfigEntity := fun entityId =>
    forward (readConfigEntity entityId state);
  Facade.exportConfigEntities := forward (exportConfigEntities state);
  Facade.createConfigEntity := fun entityId entityData wait =>
    forward (createConfigEntity entityId entityData (or_default wait false)
               state);
  Facade.updateConfigEntity := fun entityId entityData wait =>
    forward (updateConfigEntity entityId entityData (or_default wait false)
               state);
  Facade.importConfigEntities := fun importData options =>
    forward (importConfigEntities importData
               (or_default options (mkOptions false)) state);
  Facade.deleteConfigEntities := forward (deleteConfigEntities state);
  Facade.deleteConfigEntitiesByType := fun type =>
    forward (deleteConfigEntitiesByType type state);
  Facade.deleteConfigEntity := fun entityId =>
    forward (deleteConfigEntity entityId state);
  Facade.getConfigEntityTypes := forward (readConfigEntityTypes state);
  Facade.getAllConfigEntities := forward (readConfigEntityStubs state);
  Facade.getConfigEntitiesByType := fun type =>
    forward (readConfigEntitiesByType type state);
  Facade.getConfigEntity := fun entityId =>
    forward (_getConfigEntity entityId state);
  Facade.putConfigEntity := fun entityId entityData =>
    forward (_putConfigEntity entityId entityData false state)
|}.
End DefaultExport.

(** ** Vocabulary of the statements *)

Section Vocabulary.
Context {env : Env}.

(** The promise an HTTP answer settles. *)
Definition settle {A} (r : Error + A) : Promise A :=
  match r with inr a => Fulfilled a | inl e => Rejected e end.

(** The URL of one entity, and of the two listings. *)
Definition config_url (state : State) (entityId : string) : string :=
  idmConfigURLTemplate (getHostBaseUrl (getHost state)) entityId.

Definition stubs_url (state : State) : string :=
  idmAllConfigURLTemplate (getHostBaseUrl (getHost state)).

Definition entities_url (state : State) : string :=
  idmConfigEntityQueryTemplate (getHostBaseUrl (getHost state)) "true".

Definition entities_by_type_url (type : string) (state : State) : string :=
  idmConfigEntityQueryTemplate (getHostBaseUrl (getHost state))
    (encodeURIComponent ("_id sw '" +:+ type +:+ "'")).

(** The errors the operations construct. *)
Definition readEntityError (entityId : string) (e : Error) : Error :=
  FrodoError ("Error reading config entity " +:+ entityId) (OneCause e).

Definition updateError (entityId : string) (e : Error) : Error :=
  FrodoError ("Error updating config entity " +:+ entityId) (OneCause e).

Definition validationError (entityId : string) : Error :=
  FrodoError ("Invalid script hook in the config object '" +:+ entityId +:+ "'")
    NoCause.

(** The error of [readConfigEntities] around the failure of the listing. *)
Definition listingError (e : Error) : Error :=
  FrodoError "Error reading config entities" (OneCause e).

(** *** Export *)

(** The answer of the store to the refetch of one listed entity. *)
Definition refetch (state : State) (s : Store) (configEntity : Entity)
  : Error + Entity :=
  http_get_entity (config_url state (_id configEntity)) s.

(** What the refetch of one entity contributes to [results]... *)
Definition refetch_result (state : State) (s : Store) (configEntity : Entity)
  : option Entity :=
  match refetch state s configEntity with
  | inr r => Some r
  | inl _ => None
  end.

(** ... and what its [.catch] callback prints. *)
Definition refetch_log (state : State) (s : Store) (configEntity : Entity)
  : list ConsoleEvent :=
  match refetch state s configEntity with
  | inr _ => []
  | inl e =>
      let error := readEntityError (_id configEntity) e in
      if export_unexpected (_id configEntity) error then
        [ PrintMessage (ResponseData error) "error";
          PrintMessage
            (TextAndError
               ("Error getting config entity " +:+ _id configEntity +:+ ": ")
               error) "error" ]
      else []
  end.

(** The store answers the refetch of a listed entity with the document
    that bears the identifier asked for. *)
Definition answers_by_id (state : State) (s : Store)
    (configurations : list Entity) : Prop :=
  forall c r,
    c ∈ configurations -> refetch state s c = inr r -> _id r = _id c.

(** The loop that fills [exportData.idm]. *)
Definition collect (results : list (option Entity))
    (exportData : ConfigEntityExportInterface) : ConfigEntityExportInterface :=
  fold_left (fun exportData result =>
    match result with
    | Some r => mkExport (meta exportData) (obj_set (idm exportData) (_id r) r)
    | None => exportData
    end) results exportData.

(** *** Import, in the words of the specification

    For each id, in the order of the bundle: a failed validation is recorded
    and no store call is made; otherwise the entity is upserted; a failure
    of the upsert is suppressed when the deployment is the cloud offering,
    the id is protected and the failure is a 403 bad request, and is
    recorded otherwise. *)
Inductive IdOutcome : Type :=
| Applied (entity : Entity)
| Suppressed
| Recorded (error : Error).

Definition applied (outcomes : list IdOutcome) : list Entity :=
  omap (fun o => match o with Applied e => Some e | _ => None end) outcomes.

Definition recorded (outcomes : list IdOutcome) : list Error :=
  omap (fun o => match o with Recorded e => Some e | _ => None end) outcomes.

Definition fails_validation (options : ConfigEntityImportOptions)
    (entityData : Entity) : bool :=
  validate options && negb (areScriptHooksValid entityData).

Definition upsert_outcome (state : State) (entityId : string)
    (answer : Error + Entity) : IdOutcome :=
  match answer with
  | inr entity => Applied entity
  | inl e =>
      if import_protected state entityId (updateError entityId e)
      then Suppressed
      else Recorded (updateError entityId e)
  end.

Fixpoint spec_importAll (options : ConfigEntityImportOptions) (state : State)
    (entries : list (string * Entity)) (s : Store)
  : list IdOutcome * Store :=
  match entries with
  | [] => ([], s)
  | (entityId, entityData) :: entries' =>
      if fails_validation options entityData then
        let '(outcomes, s') := spec_importAll options state entries' s in
        (Recorded (validationError entityId) :: outcomes, s')
      else
        let '(answer, s1) :=
          http_put (config_url state entityId) entityData s in
        let '(outcomes, s') := spec_importAll options state entries' s1 in
        (upsert_outcome state entityId answer :: outcomes, s')
  end.

(** The entries of a record, read as the import reads them: each key of
    [Object.keys] with the value found under it. *)
Definition entries_of (o : JsRecord) (keys : list string)
  : list (string * Entity) :=
  omap (fun k => pair k <$> obj_get o k) keys.

Definition Object_entries (o : JsRecord) : list (string * Entity) :=
  entries_of o (Object_keys o).

(** The upserts sent for a list of entries. *)
Definition upserts_sent (options : ConfigEntityImportOptions) (state : State)
    (entries : list (string * Entity)) : list Request :=
  flat_map (fun '(entityId, entityData) =>
              if fails_validation options entityData then []
              else [mkRequest PUT (config_url state entityId)
                      (Some entityData)])
    entries.

(** *** Delete, in the words of the specification

    Each id is deleted in turn; a failure is put on the error list and the
    next id is deleted all the same. *)
Fixpoint spec_deleteAll (state : State) (ids : list string) (s : Store)
  : list Entity * list Error * Store :=
  match ids with
  | [] => ([], [], s)
  | entityId :: ids' =>
      let '(answer, s1) := http_delete (config_url state entityId) s in
      let '(deleted, errors, s') := spec_deleteAll state ids' s1 in
      match answer with
      | inr entity => (entity :: deleted, errors, s')
      | inl e => (deleted, e :: errors, s')
      end
  end.

Definition deletes_sent (state : State) (ids : list string) : list Request :=
  map (fun entityId => mkRequest DELETE (config_url state entityId) None) ids.

(** *** The loops, piece by piece

    The bodies of the loops of the operations, named, and what a run adds
    to the console and to the requests. *)

(** The job that [.catch] makes of the refetch of one entity. *)
Definition refetch_job (state : State) (s : Store) (configEntity : Entity)
  : Async (option Entity) :=
  promise_catch
    (match refetch state s configEntity with
     | inr r => Fulfilled r
     | inl e => Rejected (readEntityError (_id configEntity) e)
     end)
    (export_catch configEntity).

Definition export_launch (state : State) (indicatorId : string)
    (configEntity : Entity) : M (list (Async (option Entity))) unit :=
  updateProgressIndicator indicatorId
    ("Exporting config entity " +:+ _id configEntity) ;;;
  p <- call (readConfigEntity (_id configEntity) state) ;;
  modify_locals (fun entityPromises =>
    entityPromises ++ [promise_catch p (export_catch configEntity)]).

Definition export_requests (state : State) (configurations : list Entity)
  : list Request :=
  mkRequest GET (entities_url state) None ::
  map (fun c => mkRequest GET (config_url state (_id c)) None) configurations.

Definition export_summary (configurations : list Entity) : string :=
  "Exported " +:+ pretty (length configurations) +:+ " config entities.".

Definition export_console (state : State) (w : World)
    (configurations : list Entity) : list ConsoleEvent :=
  CreateProgressIndicator (length configurations)
    "Exporting config entities..." ::
  map (fun c => UpdateProgressIndicator (newIndicatorId (console w))
                  ("Exporting config entity " +:+ _id c)) configurations ++
  concat (map (refetch_log state (store w)) configurations) ++
  [StopProgressIndicator (newIndicatorId (console w))
     (export_summary configurations) "success"].

Definition import_entity (importData : ConfigEntityExportInterface)
    (options : ConfigEntityImportOptions) (state : State)
    (entityId : string) : M (list Entity * list Error) unit :=
  try_catch
    (debugMessage ("IdmConfigOps.importConfigEntities: " +:+ entityId) ;;;
     match obj_get (idm importData) entityId with
     | None => ret tt
     | Some entityData =>
         invalid <- (if validate options
                     then valid <- call_areScriptHooksValid entityData ;;
                          ret (negb valid)
                     else ret false) ;;
         if invalid
         then
           throw (FrodoError
                    ("Invalid script hook in the config object '"
                       +:+ entityId +:+ "'") NoCause)
         else
           try_catch
             (result <- await! (updateConfigEntity entityId entityData
                                  false state) ;;
              modify_locals (fun '(response, errors) =>
                (response ++ [result], errors)))
             (fun error =>
                if negb (import_protected state entityId error)
                then throw error
                else ret tt)
     end)
    (fun error =>
       modify_locals (fun '(response, errors) =>
         (response, errors ++ [error]))).

(** What the loop of the import puts on the console for each entry: the
    debug message and, when validation is asked for, what the validator
    prints. *)
Definition import_debug (options : ConfigEntityImportOptions)
    (entries : list (string * Entity)) : list ConsoleEvent :=
  flat_map (fun '(k, d) =>
              DebugMessage ("IdmConfigOps.importConfigEntities: " +:+ k) ::
              (if validate options then scriptHookMessages d else []))
    entries.

Definition import_console (options : ConfigEntityImportOptions)
    (entries : list (string * Entity)) (failed : bool) : list ConsoleEvent :=
  DebugMessage "IdmConfigOps.importConfigEntities: start" ::
  import_debug options entries ++
  (if failed then []
   else [DebugMessage "IdmConfigOps.importConfigEntities: end"]).

(** How the import settles: the aggregate of the recorded errors if there
    is one, the applied entities otherwise. *)
Definition import_settles (outcomes : list IdOutcome)
  : Promise (list Entity) :=
  match recorded outcomes with
  | [] => Fulfilled (applied outcomes)
  | errors =>
      Rejected (FrodoError "Error importing config entities"
                  (ManyCauses errors))
  end.

Definition delete_one (prefix : string) (state : State) (entityId : string)
  : M (list Entity * list Error) unit :=
  try_catch
    (debugMessage (prefix +:+ entityId +:+ "'") ;;;
     deleted <- await! (_deleteConfigEntity entityId state) ;;
     modify_locals (fun '(result, errors) => (result ++ [deleted], errors)))
    (fun error =>
       modify_locals (fun '(result, errors) => (result, errors ++ [error]))).

Definition delete_debug (prefix : string) (ids : list string)
  : list ConsoleEvent :=
  map (fun entityId => DebugMessage (prefix +:+ entityId +:+ "'")) ids.

(** How a delete operation settles after its loop. *)
Definition delete_settles (message : string) (deleted : list Entity)
    (errors : list Error) : Promise (list Entity) :=
  match errors with
  | [] => Fulfilled deleted
  | _ => Rejected (FrodoError message (ManyCauses errors))
  end.

Definition delete_console (operation : string) (ids : list string)
    (errors : list Error) : list ConsoleEvent :=
  DebugMessage ("IdmConfigOps." +:+ operation +:+ ": start") ::
  delete_debug ("IdmConfigOps." +:+ operation +:+ ": '") ids ++
  match errors with
  | [] => [DebugMessage ("IdmConfigOps." +:+ operation +:+ ": end")]
  | _ => []
  end.

(** The error a printed message reports. *)
Definition message_error (message : Message) : option Error :=
  match message with
  | Text _ => None
  | ResponseData e => Some e
  | TextAndError _ e => Some e
  end.
End Vocabulary.

(** ** Two stores to run the operations on *)

(** A [getHostBaseUrl] for the two stores: the scheme and the authority of
    the URL of a host, without its path, query and fragment. *)
Fixpoint authority (s : string) : string :=
  match s with
  | EmptyString => EmptyString
  | String c s' =>
      if Ascii.eqb c "/" || Ascii.eqb c "?" || Ascii.eqb c "#"
      then EmptyString
      else String c (authority s')
  end.

Fixpoint schemeAndAuthority (url : string) : string :=
  match url with
  | EmptyString => EmptyString
  | String c rest =>
      if String.prefix "://" url
      then "://" +:+ authority (String.substring 3 (String.length url) url)
      else String c (schemeAndAuthority rest)
  end.

(** Two consoles.  The first takes the arguments of [printError], like those
    of the other utilities, from one object that also holds the state: called
    with an error alone it finds no state and throws a [TypeError].  The
    second prints whatever it is given and returns. *)
Definition stateless_call_throws (error : Error) : option Error :=
  Some (RuntimeError "TypeError").

Definition prints_and_returns (error : Error) : option Error := None.

(** A store that answers from fixed tables and never changes. *)
Record Script : Type := mkScript {
  script_stubs : Error + IdmConfigStubs;
  script_query : Error + PagedResult;
  script_get : string -> Error + Entity;
  script_put : string -> Entity -> Error + Entity;
  script_delete : string -> Error + Entity;
  script_valid : Entity -> bool;
  script_messages : Entity -> list ConsoleEvent;
  script_printError : Error -> option Error
}.

Definition scriptedEnv (sc : Script) : Env := {|
  Store := unit;
  http_get_stubs := fun _ _ => script_stubs sc;
  http_get_query := fun _ _ => script_query sc;
  http_get_entity := fun u _ => script_get sc u;
  http_put := fun u d s => (script_put sc u d, s);
  http_delete := fun u s => (script_delete sc u, s);
  getHostBaseUrl := schemeAndAuthority;
  areScriptHooksValid := script_valid sc;
  scriptHookMessages := script_messages sc;
  getMetadata := fun state => mkMeta (getHost state) "" "" "frodo" "";
  CLOUD_DEPLOYMENT_TYPE_KEY := "cloud";
  newIndicatorId := fun _ => "indicator";
  printError_throws := script_printError sc
|}.

(** Modelled from the spec: the remote store is not part of the repository;
    the spec gives its [putEntity] as an upsert (create or replace by id) and
    the requests address an entity by its URL.  Documents are kept by URL; a
    [PUT] the store refuses (by a policy on the URL and the document) changes
    nothing, any other [PUT] creates or replaces the document and answers
    with it.  The other verbs and the utilities are left open. *)
Section UpsertStore.
Variable refuses : string -> Entity -> option Error.
Variable get_stubs : string -> gmap string Entity -> Error + IdmConfigStubs.
Variable get_query : string -> gmap string Entity -> Error + PagedResult.
Variable delete_entity :
  string -> gmap string Entity -> (Error + Entity) * gmap string Entity.
Variable hostBaseUrl : string -> string.
Variable hooksValid : Entity -> bool.
Variable hookMessages : Entity -> list ConsoleEvent.
Variable metadata : State -> ExportMetaData.
Variable cloudKey : string.
Variable indicatorId : list ConsoleEvent -> string.
Variable printErrorThrows : Error -> option Error.

Definition upsert (u : string) (d : Entity) (s : gmap string Entity)
  : (Error + Entity) * gmap string Entity :=
  match refuses u d with
  | Some e => (inl e, s)
  | None => (inr d, <[u := d]> s)
  end.

Definition upsertEnv : Env := {|
  Store := gmap string Entity;
  http_get_stubs := get_stubs;
  http_get_query := get_query;
  http_get_entity := fun u s =>
    match s !! u with
    | Some d => inr d
    | None => inl (HttpError (Some 404) None (Some "Not Found") None)
    end;
  http_put := upsert;
  http_delete := delete_entity;
  getHostBaseUrl := hostBaseUrl;
  areScriptHooksValid := hooksValid;
  scriptHookMessages := hookMessages;
  getMetadata := metadata;
  CLOUD_DEPLOYMENT_TYPE_KEY := cloudKey;
  newIndicatorId := indicatorId;
  printError_throws := printErrorThrows
|}.
End UpsertStore.

(** ** Sample inputs *)

Module Sample.
Definition cloud : State := mkState "https://idm.example.com/am" "cloud".

Definition url_of (entityId : string) : string :=
  "https://idm.example.com/openidm/config/" +:+ entityId.

Definition doc (entityId : string) : Entity := mkEntity entityId [].

(** A document with a script hook; the sample validator refuses it. *)
Definition hooked (entityId : string) : Entity :=
  mkEntity entityId
    [("onUpdate", JObject [("type", JString "text/javascript");
                           ("source", JString "require(")])].

Definition no_hooks (e : Entity) : bool :=
  match members e with [] => true | _ => false end.

(** What the sample validator prints for a document it refuses. *)
Definition hook_messages (e : Entity) : list ConsoleEvent :=
  if no_hooks e then []
  else [PrintMessage (Text ("Invalid script hook in " +:+ _id e)) "error"].

Definition serverError : Error :=
  HttpError (Some 500) (Some "ERR_BAD_RESPONSE")
    (Some "Internal Server Error") None.

Definition notFound (entityId : string) : Error :=
  HttpError (Some 404) (Some "ERR_BAD_REQUEST") (Some "Not Found")
    (Some ("No configuration exists for id " +:+ entityId)).

Definition forbidden : Error :=
  HttpError (Some 403) (Some "ERR_BAD_REQUEST") (Some "Forbidden")
    (Some "Access denied").

(** The store is down: every call fails with a 500. *)
Definition down : Script := {|
  script_stubs := inl serverError;
  script_query := inl serverError;
  script_get := fun _ => inl serverError;
  script_put := fun _ _ => inl serverError;
  script_delete := fun _ => inl serverError;
  script_valid := no_hooks;
  script_messages := hook_messages;
  script_printError := stateless_call_throws
|}.

(** A store that lists [listed] and answers every call, except for the
    entities at the URLs of [failing], where it answers with the error
    given. *)
Definition failing_at (failing : list (string * Error)) (u : string)
  : option Error :=
  snd <$> find (fun ue => String.eqb u (fst ue)) failing.

Definition entity_at (u : string) : Entity :=
  doc (String.substring (String.length (url_of "")) (String.length u) u).

Definition serving (listed : list string) (failing : list (string * Error))
  : Script := {|
  script_stubs := inr (mkStubs (map (fun i => mkStub i i None) listed));
  script_query := inr (mkPaged (map doc listed));
  script_get := fun u =>
    match failing_at failing u with
    | Some e => inl e
    | None => inr (entity_at u)
    end;
  script_put := fun u d =>
    match failing_at failing u with
    | Some e => inl e
    | None => inr d
    end;
  script_delete := fun u =>
    match failing_at failing u with
    | Some e => inl e
    | None => inr (entity_at u)
    end;
  script_valid := no_hooks;
  script_messages := hook_messages;
  script_printError := stateless_call_throws
|}.

(** The same store with a console whose [printError] returns. *)
Definition quiet (sc : Script) : Script := {|
  script_stubs := script_stubs sc;
  script_query := script_query sc;
  script_get := script_get sc;
  script_put := script_put sc;
  script_delete := script_delete sc;
  script_valid := script_valid sc;
  script_messages := script_messages sc;
  script_printError := prints_and_returns
|}.

Definition start (sc : Script) : World (E := scriptedEnv sc) :=
  mkWorld (E := scriptedEnv sc) tt [] [].

(** The listing holds two entities; the refetch of the second fails. *)
Definition partly : Script :=
  serving ["sync"; "managed"] [(url_of "managed", serverError)].

(** A known-unavailable entity is listed and its refetch is not found. *)
Definition unavailable : Script :=
  serving ["script"; "sync"] [(url_of "script", notFound "script")].

(** An entity outside the known-unavailable set is listed and not found. *)
Definition missing : Script :=
  serving ["sync"; "managed"] [(url_of "sync", notFound "sync")].

(** The same, the store answering with the message of the file-install
    configuration. *)
Definition misfiled : Script :=
  serving ["sync"]
    [(url_of "sync", notFound "org.apache.felix.fileinstall/openidm")].

(** The refetch of [sync] is not found, and the store answers the refetch
    of [managed] with the document of [sync]. *)
Definition crossed : Script := {|
  script_stubs := inr (mkStubs []);
  script_query := inr (mkPaged [doc "sync"; doc "managed"]);
  script_get := fun u =>
    if String.eqb u (url_of "sync") then inl (notFound "sync")
    else inr (doc "sync");
  script_put := fun _ d => inr d;
  script_delete := fun u => inr (entity_at u);
  script_valid := no_hooks;
  script_messages := hook_messages;
  script_printError := stateless_call_throws
|}.

(** The store of a cloud tenant refuses to write a protected template. *)
Definition protecting : Script :=
  serving [] [(url_of "emailTemplate/frOnboarding", forbidden)].

Definition templates : ConfigEntityExportInterface :=
  mkExport None
    [ ("sync", doc "sync");
      ("emailTemplate/frOnboarding", doc "emailTemplate/frOnboarding");
      ("managed", doc "managed") ].

Definition with_hook : ConfigEntityExportInterface :=
  mkExport None
    [ ("sync", doc "sync");
      ("managed", hooked "managed");
      ("audit", doc "audit") ].

Definition export_on (sc : Script) :=
  exportConfigEntities (env := scriptedEnv sc) cloud (start sc).

Definition down_store : Env := scriptedEnv down.
Definition unavailable_store : Env := scriptedEnv unavailable.
Definition missing_store : Env := scriptedEnv missing.
Definition misfiled_store : Env := scriptedEnv misfiled.
Definition protecting_store : Env := scriptedEnv protecting.
End Sample.

(** ** Vocabulary of the further statements *)

(** The text of an identifier before its first ["/"]. *)
Fixpoint entity_type (entityId : string) : string :=
  match entityId with
  | EmptyString => EmptyString
  | String c rest =>
      if Ascii.eqb c "/"%char then EmptyString
      else String c (entity_type rest)
  end.

(** The character occurs in the string. *)
Fixpoint occurs (c : Ascii.ascii) (s : string) : bool :=
  match s with
  | EmptyString => false
  | String c' s' => Ascii.eqb c' c || occurs c s'
  end.

(** The values of a list in the order in which they are first seen, after
    those already seen. *)
Fixpoint first_seen (seen : list string) (xs : list string) : list string :=
  match xs with
  | [] => seen
  | x :: xs' => first_seen (if includes seen x then seen else seen ++ [x]) xs'
  end.

Section FurtherVocabulary.
Context {env : Env}.

(** The body of the loop of [readConfigEntityTypes]. *)
Definition types_step (stub : IdmConfigStub) : M (list string) unit :=
  if (0 <? length (split_on "/"%char (stub_id stub)))%nat then
    match head (split_on "/"%char (stub_id stub)) with
    | Some type =>
        types <- get_locals ;;
        if negb (includes types type)
        then modify_locals (fun types => types ++ [type])
        else ret tt
    | None => ret tt
    end
  else ret tt.

(** The URL a [PUT] goes to. *)
Definition put_url (state : State) (entityId : string) (wait : bool)
  : string :=
  idmConfigURLTemplate (getHostBaseUrl (getHost state))
    (if wait then entityId +:+ "?waitForCompletion=true" else entityId).

Definition createError (entityId : string) (e : Error) : Error :=
  FrodoError ("Error creating config entity " +:+ entityId) (OneCause e).

Definition existsError (entityId : string) : Error :=
  FrodoError ("Config entity " +:+ entityId +:+ " already exists!") NoCause.

(** The error log of an export holds no message of a [.catch] callback. *)
Definition silent (out : list ConsoleEvent) : Prop :=
  forall message type, PrintMessage message type ∉ out.
End FurtherVocabulary.

(** ** Further sample inputs *)

Module Extra.
(** A state outside the cloud offering. *)
Definition classic : State :=
  mkState "https://idm.example.com/am" "classic".

(** Stubs of four entities of three types. *)
Definition typed : Script :=
  Sample.serving
    ["managed/user"; "sync"; "managed/role"; "emailTemplate/welcome"] [].

(** Nothing is listed and every call is answered. *)
Definition idle : Script := Sample.serving [] [].

(** Four entities are listed, two of them under identifiers that are array
    indices, and every call is answered. *)
Definition sound : Script :=
  Sample.serving ["sync"; "7"; "managed"; "10"] [].

(** The entity [sync] cannot be read. *)
Definition unreadable : Script :=
  Sample.serving [] [(Sample.url_of "sync", Sample.notFound "sync")].

(** The refetch of the listed entity is not available in the cloud. *)
Definition cloudless : Script :=
  Sample.serving ["sync"]
    [(Sample.url_of "sync",
      HttpError (Some 403) (Some "ERR_BAD_REQUEST") (Some "Forbidden")
        (Some "This operation is not available in ForgeRock Identity Cloud."))].

(** The store refuses to write [sync], which is not a protected entity. *)
Definition refusing : Script :=
  Sample.serving [] [(Sample.url_of "sync", Sample.forbidden)].

(** Three scripts are listed; the second cannot be deleted. *)
Definition scripts : Script :=
  Sample.serving ["script/a"; "script/b"; "script/c"]
    [(Sample.url_of "script/b", Sample.serverError)].

Definition partly_store : Env := scriptedEnv Sample.partly.
Definition typed_store : Env := scriptedEnv typed.
Definition idle_store : Env := scriptedEnv idle.
Definition sound_store : Env := scriptedEnv sound.
Definition unreadable_store : Env := scriptedEnv unreadable.
Definition cloudless_store : Env := scriptedEnv cloudless.
Definition refusing_store : Env := scriptedEnv refusing.
Definition scripts_store : Env := scriptedEnv scripts.

Definition metadata (state : State) : ExportMetaData :=
  mkMeta (getHost state) "" "" "frodo" "".

Definition nothing : ConfigEntityExportInterface := mkExport None [].

(** An upsert store that refuses nothing and lists the entity [sync]. *)
Definition memory : Env :=
  upsertEnv (fun _ _ => None)
    (fun _ _ => inr (mkStubs [mkStub "sync" "sync" None]))
    (fun _ _ => inr (mkPaged [Sample.doc "sync"]))
    (fun u s => (inl (Sample.notFound u), s))
    schemeAndAuthority Sample.no_hooks Sample.hook_messages metadata "cloud"
    (fun _ => "indicator") prints_and_returns.

Definition holding_sync : World (E := memory) :=
  mkWorld (E := memory)
    ({[ Sample.url_of "sync" := Sample.doc "sync" ]} : gmap string Entity)
    [] [].

Definition empty_memory : World (E := memory) :=
  mkWorld (E := memory) (∅ : gmap string Entity) [] [].
End Extra.

(** ** Reading and writing a record *)

Lemma obj_get_Some_keys (o : JsRecord) (k : string) (v : Entity) :
  obj_get o k = Some v -> k ∈ Object_keys o.
Proof.
  induction o as [|[k' v'] o IH]; cbn; [discriminate|].
  destruct (String.eqb_spec k k') as [->|Hne].
  - intros _. apply list_elem_of_here.
  - intros Hget. apply list_elem_of_further, IH, Hget.
Qed.

Lemma obj_get_keys (o : JsRecord) (k : string) :
  k ∈ Object_keys o -> is_Some (obj_get o k).
Proof.
  induction o as [|[k' v'] o IH]; cbn.
  - intros Hin. inversion Hin.
  - intros Hin. destruct (String.eqb_spec k k') as [->|Hne]; [by eexists|].
    apply IH. inversion Hin; subst; [done|assumption].
Qed.

Lemma obj_get_obj_replace (o : JsRecord) (k k' : string) (v : Entity) :
  is_Some (obj_get o k) ->
  obj_get (obj_replace o k v) k' =
    if String.eqb k' k then Some v else obj_get o k'.
Proof.
  induction o as [|[k0 v0] o IH]; cbn.
  - intros [x Hx]. discriminate.
  - destruct (String.eqb_spec k k0) as [->|Hk]; cbn.
    + intros _. destruct (String.eqb_spec k' k0); reflexivity.
    + intros Hsome. rewrite (IH Hsome).
      destruct (String.eqb_spec k' k0) as [->|Hk']; [|reflexivity].
      destruct (String.eqb_spec k0 k); [congruence|reflexivity].
Qed.

Lemma obj_get_obj_insert (o : JsRecord) (k k' : string) (v : Entity) :
  obj_get o k = None ->
  obj_get (obj_insert o k v) k' =
    if String.eqb k' k then Some v else obj_get o k'.
Proof.
  induction o as [|[k0 v0] o IH]; cbn.
  - reflexivity.
  - destruct (String.eqb_spec k k0) as [->|Hk]; [discriminate|].
    intros Hnone. destruct (precedes k k0); cbn.
    + destruct (String.eqb_spec k' k); reflexivity.
    + rewrite (IH Hnone).
      destruct (String.eqb_spec k' k0) as [->|Hk']; [|reflexivity].
      destruct (String.eqb_spec k0 k); [congruence|reflexivity].
Qed.

Lemma obj_get_obj_set (o : JsRecord) (k k' : string) (v : Entity) :
  obj_get (obj_set o k v) k' =
    if String.eqb k' k then
      match obj_get o k with
      | Some _ => Some v
      | None => if String.eqb k "__proto__" then None else Some v
      end
    else obj_get o k'.
Proof.
  unfold obj_set. destruct (obj_get o k) as [x|] eqn:Hget.
  - apply obj_get_obj_replace. by eexists.
  - destruct (String.eqb k "__proto__").
    + destruct (String.eqb_spec k' k) as [->|_]; [assumption|reflexivity].
    + by apply obj_get_obj_insert.
Qed.

Lemma obj_get_obj_set_new (o : JsRecord) (k : string) (v : Entity) :
  k <> "__proto__" -> obj_get (obj_set o k v) k = Some v.
Proof.
  intros Hk. rewrite obj_get_obj_set, String.eqb_refl.
  destruct (obj_get o k); [reflexivity|].
  by destruct (String.eqb_spec k "__proto__").
Qed.

(** ** What one call does *)

Section Runs.
Context {env : Env}.

Lemma readConfigEntity_run entityId state w :
  readConfigEntity entityId state w =
    (match http_get_entity (config_url state entityId) (store w) with
     | inr r => Fulfilled r
     | inl e => Rejected (readEntityError entityId e)
     end,
     mkWorld (store w)
       (requests w ++ [mkRequest GET (config_url state entityId) None])
       (console w)).
Proof.
  unfold readConfigEntity, _getConfigEntity, async, try_catch, bind, call,
    api_get, await, config_url, readEntityError. cbn.
  destruct (http_get_entity _ _) as [e|r]; reflexivity.
Qed.

Lemma readConfigEntities_run state w :
  readConfigEntities state w =
    (match http_get_query (entities_url state) (store w) with
     | inr page => Fulfilled (result page)
     | inl e =>
         Rejected (FrodoError "Error reading config entities" (OneCause e))
     end,
     mkWorld (store w)
       (requests w ++ [mkRequest GET (entities_url state) None])
       (console w)).
Proof.
  unfold readConfigEntities, _getConfigEntities, async, try_catch, bind,
    call, api_get, await, entities_url. cbn.
  destruct (http_get_query _ _) as [e|r]; reflexivity.
Qed.

Lemma readConfigEntityStubs_run state w :
  readConfigEntityStubs state w =
    (match http_get_stubs (stubs_url state) (store w) with
     | inr stubs => Fulfilled (configurations stubs)
     | inl e =>
         Rejected (FrodoError "Error reading config entity stubs"
                     (OneCause e))
     end,
     mkWorld (store w)
       (requests w ++ [mkRequest GET (stubs_url state) None]) (console w)).
Proof.
  unfold readConfigEntityStubs, _getConfigEntityStubs, async, try_catch,
    bind, call, api_get, await, stubs_url. cbn.
  destruct (http_get_stubs _ _) as [e|r]; reflexivity.
Qed.

Lemma readConfigEntitiesByType_run type state w :
  readConfigEntitiesByType type state w =
    (match http_get_query (entities_by_type_url type state) (store w) with
     | inr page => Fulfilled (result page)
     | inl e =>
         Rejected (FrodoError "Error reading config entities by type"
                     (OneCause e))
     end,
     mkWorld (store w)
       (requests w ++ [mkRequest GET (entities_by_type_url type state) None])
       (console w)).
Proof.
  unfold readConfigEntitiesByType, _getConfigEntitiesByType, async,
    try_catch, bind, call, api_get, await, entities_by_type_url. cbn.
  destruct (http_get_query _ _) as [e|r]; reflexivity.
Qed.

Lemma updateConfigEntity_run entityId entityData state w :
  updateConfigEntity entityId entityData false state w =
    (match (http_put (config_url state entityId) entityData (store w)).1 with
     | inr a => Fulfilled a
     | inl e => Rejected (updateError entityId e)
     end,
     mkWorld (http_put (config_url state entityId) entityData (store w)).2
       (requests w ++
          [mkRequest PUT (config_url state entityId) (Some entityData)])
       (console w)).
Proof.
  unfold updateConfigEntity, _putConfigEntity, async, try_catch, bind, call,
    api_put, await, config_url, updateError. cbn.
  destruct (http_put _ _ _) as [[e|a] s]; reflexivity.
Qed.

Lemma deleteConfigEntity_api_run entityId state w :
  _deleteConfigEntity entityId state w =
    (settle (http_delete (config_url state entityId) (store w)).1,
     mkWorld (http_delete (config_url state entityId) (store w)).2
       (requests w ++ [mkRequest DELETE (config_url state entityId) None])
       (console w)).
Proof.
  unfold _deleteConfigEntity, async, bind, call, api_delete, await,
    config_url, settle. cbn.
  destruct (http_delete _ _) as [[e|a] s]; reflexivity.
Qed.

Lemma for_of_map {L A B} (f : A -> B) (xs : list A) (body : B -> M L unit) :
  for_of (map f xs) body = for_of xs (fun x => body (f x)).
Proof.
  induction xs as [|x xs IH]; cbn; [reflexivity|]. by rewrite IH.
Qed.
End Runs.

(** ** The export, run *)

Section ExportRuns.
Context {env : Env}.

Lemma refetch_job_run state s configEntity w :
  refetch_job state s configEntity w =
    (Fulfilled (refetch_result state s configEntity),
     mkWorld (store w) (requests w)
       (console w ++ refetch_log state s configEntity)).
Proof.
  unfold refetch_job, refetch_result, refetch_log, promise_catch.
  destruct (refetch state s configEntity) as [e|r].
  - unfold export_catch, async, printMessage, emit, bind, ret.
    destruct (export_unexpected _ _); cbn.
    + by rewrite <- app_assoc.
    + rewrite app_nil_r. by destruct w.
  - rewrite app_nil_r. by destruct w.
Qed.

Lemma Promise_all_refetch state s configurations w :
  Promise_all (map (refetch_job state s) configurations) w =
    (Fulfilled (map (refetch_result state s) configurations),
     mkWorld (store w) (requests w)
       (console w ++ concat (map (refetch_log state s) configurations))).
Proof.
  revert w. induction configurations as [|c cs IH]; intros w; cbn.
  - rewrite app_nil_r. by destruct w.
  - rewrite refetch_job_run, IH. cbn. by rewrite <- app_assoc.
Qed.

Lemma export_loop_run state indicatorId configurations entityPromises w :
  for_of configurations (export_launch state indicatorId) entityPromises w =
    (inr tt,
     entityPromises ++ map (refetch_job state (store w)) configurations,
     mkWorld (store w)
       (requests w ++
          map (fun c => mkRequest GET (config_url state (_id c)) None)
            configurations)
       (console w ++
          map (fun c => UpdateProgressIndicator indicatorId
                          ("Exporting config entity " +:+ _id c))
            configurations)).
Proof.
  revert entityPromises w.
  induction configurations as [|c cs IH]; intros ps w; cbn.
  - rewrite !app_nil_r. by destruct w.
  - unfold bind at 1. unfold export_launch at 1.
    unfold updateProgressIndicator, emit, bind, call, modify_locals.
    rewrite readConfigEntity_run. cbn.
    rewrite IH. cbn. rewrite <- !app_assoc. reflexivity.
Qed.

Lemma exportConfigEntities_run state w :
  exportConfigEntities state w =
    match http_get_query (entities_url state) (store w) with
    | inl e =>
        (match printError_throws (listingError e) with
         | Some thrown => Rejected thrown
         | None => Fulfilled None
         end,
         mkWorld (store w)
           (requests w ++ [mkRequest GET (entities_url state) None])
           (console w ++ [PrintError (listingError e)]))
    | inr page =>
        (Fulfilled
           (Some (collect (map (refetch_result state (store w)) (result page))
                    (createConfigEntityExportTemplate state))),
         mkWorld (store w)
           (requests w ++ export_requests state (result page))
           (console w ++ export_console state w (result page)))
    end.
Proof.
  unfold exportConfigEntities, async, try_catch.
  unfold bind at 1. unfold bind at 1. unfold call at 1.
  rewrite readConfigEntities_run.
  destruct (http_get_query _ _) as [e|page]; cbn.
  - unfold printError, bind, emit, listingError. cbn.
    destruct (printError_throws _); reflexivity.
  - unfold bind at 1.
    pose proof (export_loop_run state (newIndicatorId (console w))
                  (result page) []) as Hloop.
    unfold export_launch in Hloop. rewrite Hloop. clear Hloop.
    cbn [app]. unfold bind, get_locals, call.
    rewrite Promise_all_refetch. cbn.
    unfold export_requests, export_console, export_summary, collect.
    rewrite <- !app_assoc. reflexivity.
Qed.
End ExportRuns.

(** ** The import, run *)

Section ImportRuns.
Context {env : Env}.

Lemma import_loop_run importData options state keys :
  (forall k, k ∈ keys -> is_Some (obj_get (idm importData) k)) ->
  forall response errors w,
    for_of keys (import_entity importData options state) (response, errors) w =
      let run :=
        spec_importAll options state (entries_of (idm importData) keys)
          (store w) in
      (inr tt,
       (response ++ applied run.1, errors ++ recorded run.1),
       mkWorld run.2
         (requests w ++
            upserts_sent options state (entries_of (idm importData) keys))
         (console w ++
            import_debug options (entries_of (idm importData) keys))).
Proof.
  induction keys as [|k keys IH]; intros Hkeys response errors w; cbn.
  - rewrite !app_nil_r. by destruct w.
  - destruct (Hkeys k) as [entityData Hget]; [apply list_elem_of_here|].
    unfold bind at 1. unfold import_entity at 1.
    unfold try_catch at 1. unfold bind at 1. unfold debugMessage, emit.
    unfold entries_of. cbn [omap]. fold (entries_of (idm importData) keys).
    rewrite Hget. cbn [fmap option_fmap option_map spec_importAll].
    unfold upserts_sent, import_debug. cbn [flat_map].
    fold (upserts_sent options state (entries_of (idm importData) keys)).
    fold (import_debug options (entries_of (idm importData) keys)).
    unfold fails_validation.
    specialize (IH (fun k' Hk' => Hkeys k' (list_elem_of_further _ _ _ Hk'))).
    unfold bind at 1.
    assert (forall (l : list Entity * list Error) (w0 : World),
              (if validate options
               then valid <- call_areScriptHooksValid entityData ;;
                    ret (negb valid)
               else ret false) l w0 =
              (inr (validate options && negb (areScriptHooksValid entityData)),
               l,
               mkWorld (store w0) (requests w0)
                 (console w0 ++
                    (if validate options then scriptHookMessages entityData
                     else [])))) as Hvalidator.
    { intros l w0. destruct (validate options); cbn.
      - reflexivity.
      - rewrite app_nil_r. by destruct w0. }
    rewrite Hvalidator. clear Hvalidator. cbn [store requests console].
    destruct (validate options && negb (areScriptHooksValid entityData)).
    + cbn. rewrite IH. cbn.
      destruct (spec_importAll _ _ _ _) as [outcomes s']. cbn.
      rewrite <- !app_assoc. reflexivity.
    + unfold try_catch at 1. unfold bind at 1. unfold bind at 1.
      unfold call at 1. rewrite updateConfigEntity_run. cbn.
      destruct (http_put _ _ _) as [[e|a] s1]; cbn.
      * fold (updateError k e).
        destruct (import_protected state k (updateError k e)); cbn;
          rewrite IH; cbn;
          destruct (spec_importAll _ _ _ _) as [outcomes s'];
          cbn; rewrite <- ?app_assoc; reflexivity.
      * rewrite IH. cbn.
        destruct (spec_importAll _ _ _ _) as [outcomes s']. cbn.
        rewrite <- ?app_assoc. reflexivity.
Qed.

Lemma importConfigEntities_run importData options state w :
  importConfigEntities importData options state w =
    let entries := Object_entries (idm importData) in
    let run := spec_importAll options state entries (store w) in
    (import_settles run.1,
     mkWorld run.2
       (requests w ++ upserts_sent options state entries)
       (console w ++
          import_console options entries
            (match recorded run.1 with [] => false | _ => true end))).
Proof.
  unfold importConfigEntities, async.
  unfold bind at 1. unfold debugMessage at 1, emit at 1.
  unfold bind at 1.
  pose proof (import_loop_run importData options state
                (Object_keys (idm importData))
                (obj_get_keys (idm importData)) [] []) as Hloop.
  unfold import_entity in Hloop. rewrite Hloop. clear Hloop.
  cbn -[recorded applied]. fold (Object_entries (idm importData)).
  destruct (spec_importAll _ _ _ _) as [outcomes s']. cbn -[recorded applied].
  unfold import_settles, import_console.
  destruct (recorded outcomes) as [|e es]; cbn -[recorded applied].
  - rewrite <- !app_assoc. reflexivity.
  - rewrite app_nil_r, <- !app_assoc. reflexivity.
Qed.
End ImportRuns.

(** ** The deletes, run *)

Section DeleteRuns.
Context {env : Env}.

Lemma delete_loop_run prefix state ids :
  forall result errors w,
    for_of ids (delete_one prefix state) (result, errors) w =
      let run := spec_deleteAll state ids (store w) in
      (inr tt,
       (result ++ run.1.1, errors ++ run.1.2),
       mkWorld run.2 (requests w ++ deletes_sent state ids)
         (console w ++ delete_debug prefix ids)).
Proof.
  induction ids as [|entityId ids IH]; intros result errors w; cbn.
  - rewrite !app_nil_r. by destruct w.
  - unfold bind at 1. unfold delete_one at 1.
    unfold try_catch at 1. unfold bind at 1. unfold debugMessage, emit.
    unfold bind at 1. unfold bind at 1. unfold call at 1.
    rewrite deleteConfigEntity_api_run. cbn.
    destruct (http_delete _ _) as [[e|a] s1]; cbn;
      rewrite IH; cbn;
      destruct (spec_deleteAll _ _ _) as [[deleted errs] s']; cbn;
      rewrite <- ?app_assoc; reflexivity.
Qed.

Lemma deleteConfigEntities_run state w :
  deleteConfigEntities state w =
    match http_get_stubs (stubs_url state) (store w) with
    | inl e =>
        (Rejected
           (FrodoError "Error deleting config entities"
              (ManyCauses
                 [FrodoError "Error reading config entity stubs"
                    (OneCause e)])),
         mkWorld (store w)
           (requests w ++ [mkRequest GET (stubs_url state) None])
           (console w ++
              [DebugMessage "IdmConfigOps.deleteConfigEntities: start"]))
    | inr stubs =>
        let ids := map stub_id (configurations stubs) in
        let run := spec_deleteAll state ids (store w) in
        (delete_settles "Error deleting config entities" run.1.1 run.1.2,
         mkWorld run.2
           (requests w ++
              mkRequest GET (stubs_url state) None :: deletes_sent state ids)
           (console w ++ delete_console "deleteConfigEntities" ids run.1.2))
    end.
Proof.
  unfold deleteConfigEntities, async.
  unfold bind at 1. unfold debugMessage at 1, emit at 1.
  unfold bind at 1. unfold try_catch at 1.
  unfold bind at 1. unfold bind at 1. unfold call at 1.
  rewrite readConfigEntityStubs_run.
  destruct (http_get_stubs _ _) as [e|stubs]; cbn -[String.append].
  - reflexivity.
  - pose proof (delete_loop_run "IdmConfigOps.deleteConfigEntities: '" state
                  (map stub_id (configurations stubs)) [] []) as Hloop.
    rewrite for_of_map in Hloop. unfold delete_one in Hloop.
    rewrite Hloop. clear Hloop. cbn -[String.append].
    destruct (spec_deleteAll _ _ _) as [[deleted errors] s'].
    unfold delete_settles, delete_console.
    destruct errors as [|e es]; cbn -[String.append];
      rewrite <- ?app_assoc, ?app_nil_r; reflexivity.
Qed.

Lemma deleteConfigEntitiesByType_run type state w :
  deleteConfigEntitiesByType type state w =
    match http_get_query (entities_by_type_url type state) (store w) with
    | inl e =>
        (Rejected
           (FrodoError "Error deleting config entities by type"
              (OneCause
                 (FrodoError "Error reading config entities by type"
                    (OneCause e)))),
         mkWorld (store w)
           (requests w ++
              [mkRequest GET (entities_by_type_url type state) None])
           (console w ++
              [DebugMessage "IdmConfigOps.deleteConfigEntitiesByType: start"]))
    | inr page =>
        let ids := map _id (result page) in
        let run := spec_deleteAll state ids (store w) in
        (delete_settles "Error deleting config entities by type"
           run.1.1 run.1.2,
         mkWorld run.2
           (requests w ++
              mkRequest GET (entities_by_type_url type state) None ::
              deletes_sent state ids)
           (console w ++
              delete_console "deleteConfigEntitiesByType" ids run.1.2))
    end.
Proof.
  unfold deleteConfigEntitiesByType, async.
  unfold bind at 1. unfold debugMessage at 1, emit at 1.
  unfold try_catch at 1.
  unfold bind at 1. unfold bind at 1. unfold call at 1.
  rewrite readConfigEntitiesByType_run.
  destruct (http_get_query _ _) as [e|page]; cbn -[String.append].
  - reflexivity.
  - unfold bind at 1.
    pose proof (delete_loop_run "IdmConfigOps.deleteConfigEntitiesByType: '"
                  state (map _id (result page)) [] []) as Hloop.
    rewrite for_of_map in Hloop. unfold delete_one in Hloop.
    rewrite Hloop. clear Hloop. cbn -[String.append].
    destruct (spec_deleteAll _ _ _) as [[deleted errors] s'].
    unfold delete_settles, delete_console.
    destruct errors as [|e es]; cbn -[String.append];
      rewrite <- ?app_assoc, ?app_nil_r; reflexivity.
Qed.
End DeleteRuns.

(** ** Properties of the export *)

Section ExportProperties.
Context {env : Env}.

Lemma includes_elem_of (l : list string) (x : string) :
  includes l x = true <-> x ∈ l.
Proof.
  unfold includes. rewrite existsb_exists. split.
  - intros (y & Hin & Heq). apply String.eqb_eq in Heq. subst y.
    by apply list_elem_of_In.
  - intros Hin. exists x. split; [by apply list_elem_of_In|].
    apply String.eqb_refl.
Qed.

Lemma readEntityError_inj entityId entityId' e e' :
  readEntityError entityId e = readEntityError entityId' e' ->
  entityId = entityId' /\ e = e'.
Proof.
  unfold readEntityError. intros Heq. injection Heq as Hmsg He.
  split; [|assumption]. by apply String.app_inj in Hmsg.
Qed.

(** Once the listing has succeeded the export does not reject: whatever
    the store answers to the refetches, the promise is fulfilled with a
    bundle. *)
Lemma exportConfigEntities_fulfils state w page :
  http_get_query (entities_url state) (store w) = inr page ->
  exists exportData,
    (exportConfigEntities state w).1 = Fulfilled (Some exportData).
Proof.
  intros Hlist. rewrite exportConfigEntities_run, Hlist. by eexists.
Qed.

(** Whatever the console does, the export never rejects with the error of
    the listing unless [printError] itself throws the error it is given. *)
Lemma exportConfigEntities_rejection state w thrown :
  (exportConfigEntities state w).1 = Rejected thrown ->
  exists e,
    http_get_query (entities_url state) (store w) = inl e /\
    printError_throws (listingError e) = Some thrown.
Proof.
  rewrite exportConfigEntities_run.
  destruct (http_get_query _ _) as [e|page]; cbn [fst]; [|discriminate].
  destruct (printError_throws _) as [x|] eqn:Hthrows; [|discriminate].
  intros Heq. injection Heq as <-. by exists e.
Qed.

(** The summary of a completed export gives the size of the listing. *)
Lemma exportConfigEntities_summary state w page :
  http_get_query (entities_url state) (store w) = inr page ->
  last (console (exportConfigEntities state w).2) =
    Some (StopProgressIndicator (newIndicatorId (console w))
            (export_summary (result page)) "success").
Proof.
  intros Hlist. rewrite exportConfigEntities_run, Hlist. cbn.
  unfold export_console.
  rewrite app_comm_cons, !app_assoc. apply last_snoc.
Qed.

Lemma collect_get_None results exportData k :
  obj_get (idm exportData) k = None ->
  (forall r, Some r ∈ results -> _id r <> k) ->
  obj_get (idm (collect results exportData)) k = None.
Proof.
  unfold collect. revert exportData.
  induction results as [|[r|] results IH]; intros exportData Hget Hids; cbn.
  - assumption.
  - apply IH.
    + cbn. rewrite obj_get_obj_set.
      destruct (String.eqb_spec k (_id r)) as [->|_]; [|assumption].
      exfalso. apply (Hids r); [apply list_elem_of_here|reflexivity].
    + intros r' Hin. apply Hids. by apply list_elem_of_further.
  - apply IH; [assumption|].
    intros r' Hin. apply Hids. by apply list_elem_of_further.
Qed.

Lemma collect_get_keeps results exportData k :
  is_Some (obj_get (idm exportData) k) ->
  is_Some (obj_get (idm (collect results exportData)) k).
Proof.
  unfold collect. revert exportData.
  induction results as [|[r|] results IH]; intros exportData Hget; cbn.
  - assumption.
  - apply IH. cbn. rewrite obj_get_obj_set.
    destruct (String.eqb_spec k (_id r)) as [->|_]; [|assumption].
    destruct Hget as [x ->]. by eexists.
  - by apply IH.
Qed.

Lemma collect_get_Some results exportData r :
  Some r ∈ results ->
  _id r <> "__proto__" ->
  is_Some (obj_get (idm (collect results exportData)) (_id r)).
Proof.
  unfold collect. revert exportData.
  induction results as [|[r'|] results IH]; intros exportData Hin Hkey; cbn.
  - inversion Hin.
  - apply elem_of_cons in Hin as [Heq|Hin].
    + injection Heq as <-. apply collect_get_keeps. cbn.
      rewrite obj_get_obj_set_new by assumption. by eexists.
    + by apply IH.
  - apply elem_of_cons in Hin as [Heq|Hin]; [discriminate|].
    by apply IH.
Qed.

Lemma collect_get_inv results exportData k r :
  obj_get (idm (collect results exportData)) k = Some r ->
  obj_get (idm exportData) k = Some r \/ (Some r ∈ results /\ _id r = k).
Proof.
  unfold collect. revert exportData.
  induction results as [|[r0|] results IH]; intros exportData Hget; cbn in *.
  - by left.
  - destruct (IH _ Hget) as [Hset|[Hin Hid]].
    + cbn in Hset. rewrite obj_get_obj_set in Hset.
      destruct (String.eqb_spec k (_id r0)) as [->|_]; [|by left].
      destruct (obj_get (idm exportData) (_id r0)) as [x|] eqn:Hold.
      * injection Hset as ->. right.
        split; [apply list_elem_of_here|done].
      * destruct (String.eqb (_id r0) "__proto__"); [discriminate|].
        injection Hset as ->. right.
        split; [apply list_elem_of_here|done].
    + right. split; [by apply list_elem_of_further|assumption].
  - destruct (IH _ Hget) as [Hset|[Hin Hid]]; [by left|].
    right. split; [by apply list_elem_of_further|assumption].
Qed.

Lemma refetch_result_Some state s configurations r :
  Some r ∈ map (refetch_result state s) configurations ->
  exists c, c ∈ configurations /\ refetch state s c = inr r.
Proof.
  intros Hin. apply list_elem_of_fmap in Hin as (c & Hres & Hc).
  exists c. split; [assumption|].
  unfold refetch_result in Hres.
  destruct (refetch state s c); [discriminate|]. by injection Hres as ->.
Qed.

Lemma elem_of_concat {A} (x : A) (ls : list (list A)) :
  x ∈ concat ls -> exists l, x ∈ l /\ l ∈ ls.
Proof.
  induction ls as [|l ls IH]; cbn; intros Hin; [inversion Hin|].
  apply elem_of_app in Hin as [Hin|Hin].
  - exists l. split; [assumption|apply list_elem_of_here].
  - destruct (IH Hin) as (l' & Hx & Hl').
    exists l'. split; [assumption|by apply list_elem_of_further].
Qed.

(** A message of the [.catch] callback in the console of an export comes
    from the refetch of a listed entity which failed unexpectedly. *)
Lemma export_console_printed state w configurations message type :
  PrintMessage message type ∈ export_console state w configurations ->
  exists c e,
    c ∈ configurations /\ refetch state (store w) c = inl e /\
    export_unexpected (_id c) (readEntityError (_id c) e) = true /\
    message_error message = Some (readEntityError (_id c) e).
Proof.
  unfold export_console. intros Hin.
  apply elem_of_cons in Hin as [Heq|Hin]; [discriminate|].
  apply elem_of_app in Hin as [Hin|Hin].
  { apply list_elem_of_fmap in Hin as (c & Heq & _). discriminate. }
  apply elem_of_app in Hin as [Hin|Hin].
  2:{ apply elem_of_cons in Hin as [Heq|Hin]; [discriminate|].
      inversion Hin. }
  apply elem_of_concat in Hin as (log & Hin & Hlog).
  apply list_elem_of_fmap in Hlog as (c & -> & Hc).
  unfold refetch_log in Hin.
  destruct (refetch state (store w) c) as [e|r] eqn:Hfetch;
    [|inversion Hin].
  destruct (export_unexpected _ _) eqn:Hunexpected; [|inversion Hin].
  exists c, e. repeat split; try assumption.
  apply elem_of_cons in Hin as [Heq|Hin].
  { injection Heq as -> _. reflexivity. }
  apply elem_of_cons in Hin as [Heq|Hin]; [|inversion Hin].
  injection Heq as -> _. reflexivity.
Qed.
End ExportProperties.

Section ExportClaims.
Context {env : Env}.

Lemma export_expected_not_found entityId e :
  entityId ∈ IDM_UNAVAILABLE_ENTITIES ->
  httpStatus e = Some 404 ->
  httpErrorReason e = Some "Not Found" ->
  export_unexpected entityId (readEntityError entityId e) = false.
Proof.
  intros Hin Hstatus Hreason. apply includes_elem_of in Hin.
  unfold export_unexpected. cbn [readEntityError httpStatus httpMessage
    httpErrorReason]. rewrite Hin, Hstatus, Hreason. reflexivity.
Qed.

Lemma export_unexpected_not_found entityId e :
  entityId ∉ IDM_UNAVAILABLE_ENTITIES ->
  httpStatus e = Some 404 ->
  httpMessage e <>
    Some "No configuration exists for id org.apache.felix.fileinstall/openidm" ->
  export_unexpected entityId (readEntityError entityId e) = true.
Proof.
  intros Hout Hstatus Hmessage.
  assert (includes IDM_UNAVAILABLE_ENTITIES entityId = false) as Hincl.
  { destruct (includes _ _) eqn:Hincl; [|reflexivity].
    by apply includes_elem_of in Hincl. }
  unfold export_unexpected. cbn [readEntityError httpStatus httpMessage
    httpErrorReason]. rewrite Hincl, Hstatus. cbn.
  destruct (httpMessage e) as [m|]; cbn; [|reflexivity].
  destruct (String.eqb_spec m
    "No configuration exists for id org.apache.felix.fileinstall/openidm")
    as [->|_]; [by destruct Hmessage|reflexivity].
Qed.

(** C5. For every id of the known-unavailable set whose refetch fails with
    status 404 and reason "Not Found", the export prints no message about
    the failure of that refetch and does not reject on its account: it
    rejects only when the listing itself has failed and [printError] throws,
    and once the listing has succeeded it is fulfilled with a bundle; every
    entity of the bundle is the answer to the refetch of a listed id other
    than that one, so that (the store answering each refetch with the
    document asked for) the bundle has no entity under that id. *)
Theorem export_omits_known_unavailable state w entityId e :
  entityId ∈ IDM_UNAVAILABLE_ENTITIES ->
  http_get_entity (config_url state entityId) (store w) = inl e ->
  httpStatus e = Some 404 ->
  httpErrorReason e = Some "Not Found" ->
  exists out,
    console (exportConfigEntities state w).2 = console w ++ out /\
    (forall message type e',
       PrintMessage message type ∈ out ->
       message_error message <> Some (readEntityError entityId e')) /\
    (forall thrown,
       (exportConfigEntities state w).1 = Rejected thrown ->
       exists elist,
         http_get_query (entities_url state) (store w) = inl elist /\
         printError_throws (listingError elist) = Some thrown) /\
    (forall page,
       http_get_query (entities_url state) (store w) = inr page ->
       exists exportData,
         (exportConfigEntities state w).1 = Fulfilled (Some exportData) /\
         (forall k r,
            obj_get (idm exportData) k = Some r ->
            exists c,
              c ∈ result page /\ _id c <> entityId /\
              refetch state (store w) c = inr r /\ _id r = k) /\
         (answers_by_id state (store w) (result page) ->
          obj_get (idm exportData) entityId = None)).
Proof.
  intros Hknown Hfetch Hstatus Hreason.
  pose proof (exportConfigEntities_rejection state w) as Hrejects.
  rewrite exportConfigEntities_run in Hrejects |- *.
  destruct (http_get_query _ _) as [elist|page] eqn:Hlist; cbn.
  - eexists. split; [reflexivity|]. split; [|split; [exact Hrejects|]].
    + intros message type e' Hin.
      apply elem_of_cons in Hin as [Heq|Hin]; [discriminate|inversion Hin].
    + intros page Hpage. discriminate.
  - eexists. split; [reflexivity|]. split; [|split; [exact Hrejects|]].
    + intros message type e' Hin Hmsg.
      apply export_console_printed in Hin
        as (c & ec & Hc & Hfail & Hunexpected & Herr).
      rewrite Herr in Hmsg. apply (inj Some) in Hmsg.
      apply readEntityError_inj in Hmsg as [Hid ->].
      unfold refetch in Hfail. rewrite Hid, Hfetch in Hfail.
      injection Hfail as ->.
      rewrite Hid, (export_expected_not_found entityId e') in Hunexpected;
        [discriminate|assumption..].
    + intros page' Hpage. injection Hpage as <-.
      eexists. split; [reflexivity|].
      assert (forall k r,
                obj_get (idm (collect
                                (map (refetch_result state (store w))
                                   (result page))
                                (createConfigEntityExportTemplate state))) k =
                  Some r ->
                exists c,
                  c ∈ result page /\ _id c <> entityId /\
                  refetch state (store w) c = inr r /\ _id r = k) as Hfrom.
      { intros k r Hget.
        apply collect_get_inv in Hget as [Hempty|[Hin Hid]]; [discriminate|].
        apply refetch_result_Some in Hin as (c & Hc & Hr).
        exists c. repeat split; try assumption.
        intros Hsame. unfold refetch in Hr. rewrite Hsame, Hfetch in Hr.
        discriminate. }
      split; [exact Hfrom|].
      intros Hanswers.
      destruct (obj_get _ entityId) as [r|] eqn:Hget; [|reflexivity].
      destruct (Hfrom entityId r Hget) as (c & Hc & Hne & Hr & Hid).
      rewrite (Hanswers c r Hc Hr) in Hid. by destruct Hne.
Qed.

Lemma export_expected_fileinstall entityId e :
  httpStatus e = Some 404 ->
  httpMessage e =
    Some "No configuration exists for id org.apache.felix.fileinstall/openidm" ->
  export_unexpected entityId (readEntityError entityId e) = false.
Proof.
  intros Hstatus Hmessage. unfold export_unexpected.
  cbn [readEntityError httpStatus httpMessage httpErrorReason].
  rewrite Hstatus, Hmessage. cbn. by rewrite !andb_false_r.
Qed.

(** C6, as the code has it.  Once the listing has succeeded the export
    completes with a bundle that holds an entity for every refetch that
    succeeded, and:
    - for every listed id outside the known-unavailable set whose refetch
      fails with status 404 and with a message other than the one of the
      file-install configuration, it prints the two error messages for that
      id; every entity of the bundle is the answer to the refetch of another
      listed id, and (the store answering each refetch with the document
      asked for) the bundle has no entity under that id;
    - for every id, in that set or not, whose refetch fails with status 404
      and with the message of the file-install configuration, it prints no
      message about that refetch. *)
Theorem export_logs_other_not_found state w page :
  http_get_query (entities_url state) (store w) = inr page ->
  exists exportData out,
    (exportConfigEntities state w).1 = Fulfilled (Some exportData) /\
    console (exportConfigEntities state w).2 = console w ++ out /\
    (forall c' r,
       c' ∈ result page -> refetch state (store w) c' = inr r ->
       _id r <> "__proto__" ->
       is_Some (obj_get (idm exportData) (_id r))) /\
    (forall c e,
       c ∈ result page ->
       _id c ∉ IDM_UNAVAILABLE_ENTITIES ->
       refetch state (store w) c = inl e ->
       httpStatus e = Some 404 ->
       httpMessage e <>
         Some "No configuration exists for id org.apache.felix.fileinstall/openidm" ->
       PrintMessage (ResponseData (readEntityError (_id c) e)) "error" ∈ out /\
       PrintMessage
         (TextAndError ("Error getting config entity " +:+ _id c +:+ ": ")
            (readEntityError (_id c) e)) "error" ∈ out /\
       (forall k r,
          obj_get (idm exportData) k = Some r ->
          exists c',
            c' ∈ result page /\ _id c' <> _id c /\
            refetch state (store w) c' = inr r /\ _id r = k) /\
       (answers_by_id state (store w) (result page) ->
        obj_get (idm exportData) (_id c) = None)) /\
    (forall entityId e,
       http_get_entity (config_url state entityId) (store w) = inl e ->
       httpStatus e = Some 404 ->
       httpMessage e =
         Some "No configuration exists for id org.apache.felix.fileinstall/openidm" ->
       forall message type e',
         PrintMessage message type ∈ out ->
         message_error message <> Some (readEntityError entityId e')).
Proof.
  intros Hlist.
  rewrite exportConfigEntities_run, Hlist. cbn.
  eexists _, _. split; [reflexivity|]. split; [reflexivity|].
  split; [|split].
  - intros c' r Hc' Hr Hkey. apply collect_get_Some; [|assumption].
    apply list_elem_of_fmap. exists c'. split; [|assumption].
    unfold refetch_result. by rewrite Hr.
  - intros c e Hc Hout Hfetch Hstatus Hmessage.
    assert (forall ev, ev ∈ refetch_log state (store w) c ->
              ev ∈ export_console state w (result page)) as Hlog.
    { intros ev Hev. unfold export_console.
      apply list_elem_of_further, elem_of_app. right.
      apply elem_of_app. left.
      apply list_elem_of_In, in_concat.
      exists (refetch_log state (store w) c).
      split; [|by apply list_elem_of_In].
      apply in_map, list_elem_of_In, Hc. }
    assert (refetch_log state (store w) c =
              [ PrintMessage (ResponseData (readEntityError (_id c) e))
                  "error";
                PrintMessage
                  (TextAndError
                     ("Error getting config entity " +:+ _id c +:+ ": ")
                     (readEntityError (_id c) e)) "error" ]) as Hprinted.
    { unfold refetch_log. rewrite Hfetch. cbn zeta.
      by rewrite export_unexpected_not_found. }
    rewrite Hprinted in Hlog.
    split; [apply Hlog, list_elem_of_here|].
    split; [apply Hlog, list_elem_of_further, list_elem_of_here|].
    assert (forall k r,
              obj_get (idm (collect
                              (map (refetch_result state (store w))
                                 (result page))
                              (createConfigEntityExportTemplate state))) k =
                Some r ->
              exists c',
                c' ∈ result page /\ _id c' <> _id c /\
                refetch state (store w) c' = inr r /\ _id r = k) as Hfrom.
    { intros k r Hget.
      apply collect_get_inv in Hget as [Hempty|[Hin Hid]]; [discriminate|].
      apply refetch_result_Some in Hin as (c' & Hc' & Hr).
      exists c'. repeat split; try assumption.
      intros Hsame. unfold refetch in Hr, Hfetch.
      rewrite Hsame, Hfetch in Hr. discriminate. }
    split; [exact Hfrom|].
    intros Hanswers.
    destruct (obj_get _ (_id c)) as [r|] eqn:Hget; [|reflexivity].
    destruct (Hfrom (_id c) r Hget) as (c' & Hc' & Hne & Hr & Hid).
    rewrite (Hanswers c' r Hc' Hr) in Hid. by destruct Hne.
  - intros entityId e Hfetch Hstatus Hmessage message type e' Hin Hmsg.
    apply export_console_printed in Hin
      as (c & ec & Hc & Hfail & Hunexpected & Herr).
    rewrite Herr in Hmsg. apply (inj Some) in Hmsg.
    apply readEntityError_inj in Hmsg as [Hid ->].
    unfold refetch in Hfail. rewrite Hid, Hfetch in Hfail.
    injection Hfail as ->.
    rewrite Hid, (export_expected_fileinstall entityId e') in Hunexpected;
      [discriminate|assumption..].
Qed.
End ExportClaims.


(** *** The export on the sample stores *)

(** C1, as the code has it.  When the listing fails, the export sends
    nothing more, hands the wrapped error to [printError] and throws nothing
    of its own: the promise is settled by that call alone, fulfilled with
    [undefined] if it returns and rejected with what it throws if it throws.
    The caller receives the wrapped error of the listing from no console but
    one whose [printError] throws the very error it is given. *)
Theorem export_swallows_listing_failure :
  forall (env : Env) (state : State) (w : World) (e : Error),
    http_get_query (entities_url state) (store w) = inl e ->
    (exportConfigEntities state w).1 =
      match printError_throws (listingError e) with
      | Some thrown => Rejected thrown
      | None => Fulfilled None
      end /\
    ((exportConfigEntities state w).1 = Rejected (listingError e) ->
     printError_throws (listingError e) = Some (listingError e)) /\
    requests (exportConfigEntities state w).2 =
      requests w ++ [mkRequest GET (entities_url state) None] /\
    console (exportConfigEntities state w).2 =
      console w ++ [PrintError (listingError e)] /\
    store (exportConfigEntities state w).2 = store w.
Proof.
  intros env state w e Hlist. rewrite exportConfigEntities_run, Hlist.
  cbn [fst snd store requests console]. split; [reflexivity|].
  split; [|by repeat split].
  destruct (printError_throws _) as [thrown|]; [|discriminate].
  intros Heq. by injection Heq as ->.
Qed.

Section DownExport.
#[local] Existing Instance Sample.down_store.

(** At a store that is down, with a console whose [printError] reads the
    state from its argument: the caller gets a [TypeError], not the error
    of the listing. *)
Lemma export_swallows_listing_failure_witness :
  (exportConfigEntities Sample.cloud (Sample.start Sample.down)).1 =
    Rejected (RuntimeError "TypeError") /\
  ((exportConfigEntities Sample.cloud (Sample.start Sample.down)).1 =
     Rejected (listingError Sample.serverError) ->
   printError_throws (listingError Sample.serverError) =
     Some (listingError Sample.serverError)) /\
  requests (exportConfigEntities Sample.cloud (Sample.start Sample.down)).2 =
    requests (Sample.start Sample.down) ++
      [mkRequest GET (entities_url Sample.cloud) None] /\
  console (exportConfigEntities Sample.cloud (Sample.start Sample.down)).2 =
    console (Sample.start Sample.down) ++
      [PrintError (listingError Sample.serverError)] /\
  store (exportConfigEntities Sample.cloud (Sample.start Sample.down)).2 =
    store (Sample.start Sample.down).
Proof.
  apply (export_swallows_listing_failure Sample.down_store Sample.cloud
           (Sample.start Sample.down) Sample.serverError).
  reflexivity.
Defined.
End DownExport.

(** The same store with a console whose [printError] returns: the promise
    is fulfilled with [undefined] and the caller learns of no failure. *)
Example export_listing_failure_quiet_console :
  Sample.export_on (Sample.quiet Sample.down) =
    (Fulfilled None,
     mkWorld (E := scriptedEnv (Sample.quiet Sample.down)) tt
       [mkRequest GET "https://idm.example.com/openidm/config?_queryFilter=true"
          None]
       [PrintError (FrodoError "Error reading config entities"
                      (OneCause Sample.serverError))]).
Proof. reflexivity. Qed.

(** C4, at a listing of two entities of which one refetch fails: one entity
    is exported and the summary says two. *)
Theorem export_summary_counts_listed :
  (exists exportData,
     (Sample.export_on Sample.partly).1 = Fulfilled (Some exportData) /\
     Object_keys (idm exportData) = ["sync"]) /\
  last (console (Sample.export_on Sample.partly).2) =
    Some (StopProgressIndicator "indicator" "Exported 2 config entities."
            "success").
Proof.
  split; [|reflexivity].
  eexists. split; [vm_compute; reflexivity|reflexivity].
Qed.

Section UnavailableSample.
#[local] Existing Instance Sample.unavailable_store.

Lemma export_omits_known_unavailable_witness :
  exists out,
    console (exportConfigEntities Sample.cloud
               (Sample.start Sample.unavailable)).2 =
      console (Sample.start Sample.unavailable) ++ out /\
    (forall message type e',
       PrintMessage message type ∈ out ->
       message_error message <> Some (readEntityError "script" e')) /\
    (forall thrown,
       (exportConfigEntities Sample.cloud
          (Sample.start Sample.unavailable)).1 = Rejected thrown ->
       exists elist,
         http_get_query (entities_url Sample.cloud)
           (store (Sample.start Sample.unavailable)) = inl elist /\
         printError_throws (listingError elist) = Some thrown) /\
    (forall page,
       http_get_query (entities_url Sample.cloud)
         (store (Sample.start Sample.unavailable)) = inr page ->
       exists exportData,
         (exportConfigEntities Sample.cloud
            (Sample.start Sample.unavailable)).1 =
           Fulfilled (Some exportData) /\
         (forall k r,
            obj_get (idm exportData) k = Some r ->
            exists c,
              c ∈ result page /\ _id c <> "script" /\
              refetch Sample.cloud (store (Sample.start Sample.unavailable))
                c = inr r /\
              _id r = k) /\
         (answers_by_id Sample.cloud
            (store (Sample.start Sample.unavailable)) (result page) ->
          obj_get (idm exportData) "script" = None)).
Proof.
  apply (export_omits_known_unavailable Sample.cloud
           (Sample.start Sample.unavailable) "script"
           (Sample.notFound "script")).
  - apply includes_elem_of. reflexivity.
  - reflexivity.
  - reflexivity.
  - reflexivity.
Defined.
End UnavailableSample.

Section MisfiledSample.
#[local] Existing Instance Sample.misfiled_store.

(** C6 fails as stated: an id outside the known-unavailable set whose
    refetch fails with 404 and the message of the file-install configuration
    is passed over in silence. *)
Lemma export_other_not_found_silent :
  ("sync" ∉ IDM_UNAVAILABLE_ENTITIES) /\
  refetch Sample.cloud (store (Sample.start Sample.misfiled))
    (Sample.doc "sync") =
    inl (Sample.notFound "org.apache.felix.fileinstall/openidm") /\
  httpStatus (Sample.notFound "org.apache.felix.fileinstall/openidm") =
    Some 404 /\
  forall message type,
    PrintMessage message type ∉
      console (exportConfigEntities Sample.cloud
                 (Sample.start Sample.misfiled)).2.
Proof.
  split.
  { intros Hin. apply includes_elem_of in Hin. discriminate. }
  split; [reflexivity|]. split; [reflexivity|].
  intros message type Hin. vm_compute in Hin.
  repeat (apply elem_of_cons in Hin as [Hin|Hin]; [discriminate|]).
  inversion Hin.
Qed.
End MisfiledSample.

(** Why the store has to answer each refetch with the document asked for:
    when it answers the refetch of another id with the document of [sync],
    the bundle has an entity under [sync] although the refetch of [sync]
    failed. *)
Example export_key_from_another_answer :
  refetch (env := scriptedEnv Sample.crossed) Sample.cloud tt
    (Sample.doc "sync") = inl (Sample.notFound "sync") /\
  exists exportData,
    (Sample.export_on Sample.crossed).1 = Fulfilled (Some exportData) /\
    obj_get (idm exportData) "sync" = Some (Sample.doc "sync").
Proof. split; [reflexivity|]. eexists. split; reflexivity. Qed.

Section MissingSample.
#[local] Existing Instance Sample.missing_store.

Lemma export_logs_other_not_found_witness :
  exists exportData out,
    (exportConfigEntities Sample.cloud (Sample.start Sample.missing)).1 =
      Fulfilled (Some exportData) /\
    console (exportConfigEntities Sample.cloud (Sample.start Sample.missing)).2 =
      console (Sample.start Sample.missing) ++ out /\
    PrintMessage
      (ResponseData (readEntityError "sync" (Sample.notFound "sync")))
      "error" ∈ out /\
    PrintMessage
      (TextAndError ("Error getting config entity " +:+ "sync" +:+ ": ")
         (readEntityError "sync" (Sample.notFound "sync"))) "error" ∈ out /\
    is_Some (obj_get (idm exportData) "managed") /\
    obj_get (idm exportData) "sync" = None.
Proof.
  destruct (export_logs_other_not_found Sample.cloud
              (Sample.start Sample.missing)
              (mkPaged [Sample.doc "sync"; Sample.doc "managed"]) eq_refl)
    as (exportData & out & Hdone & Hout & Hrest & Hlogged & _).
  exists exportData, out.
  destruct (Hlogged (Sample.doc "sync") (Sample.notFound "sync"))
    as (Hfirst & Hsecond & _ & Habsent).
  - apply list_elem_of_here.
  - intros Hin. apply includes_elem_of in Hin. discriminate.
  - reflexivity.
  - reflexivity.
  - discriminate.
  - repeat split; try assumption.
    + apply (Hrest (Sample.doc "managed") (Sample.doc "managed")).
      * apply list_elem_of_further, list_elem_of_here.
      * reflexivity.
      * discriminate.
    + apply Habsent. intros c r Hc Hr. cbn in Hc.
      apply elem_of_cons in Hc as [->|Hc]; [discriminate|].
      apply elem_of_cons in Hc as [->|Hc]; [|inversion Hc].
      by injection Hr as <-.
Defined.
End MissingSample.

(** ** Properties of the import *)

Section ImportProperties.
Context {env : Env}.

Lemma config_url_inj state : Inj (=) (=) (config_url state).
Proof.
  intros k k' Heq. unfold config_url, idmConfigURLTemplate in Heq.
  by do 2 apply String.app_inj in Heq.
Qed.

Lemma updateError_inj entityId entityId' e e' :
  updateError entityId e = updateError entityId' e' ->
  entityId = entityId' /\ e = e'.
Proof.
  unfold updateError. intros Heq. injection Heq as Hmsg He.
  split; [|assumption]. by apply String.app_inj in Hmsg.
Qed.

Lemma entries_of_elem o keys k d :
  (k, d) ∈ entries_of o keys <-> k ∈ keys /\ obj_get o k = Some d.
Proof.
  unfold entries_of. rewrite list_elem_of_omap. split.
  - intros (k' & Hk' & Hget). destruct (obj_get o k') as [d'|] eqn:Hd';
      [|discriminate]. cbn in Hget. by injection Hget as -> ->.
  - intros [Hk Hget]. exists k. split; [assumption|]. by rewrite Hget.
Qed.

Lemma Object_entries_elem o k d :
  (k, d) ∈ Object_entries o <-> obj_get o k = Some d.
Proof.
  unfold Object_entries. rewrite entries_of_elem. split; [by intros [_ ?]|].
  intros Hget. split; [|assumption]. by apply obj_get_Some_keys in Hget.
Qed.

Lemma entries_of_length o keys :
  (forall k, k ∈ keys -> is_Some (obj_get o k)) ->
  length (entries_of o keys) = length keys.
Proof.
  induction keys as [|k keys IH]; intros Hkeys; [reflexivity|].
  unfold entries_of. cbn [omap list_omap].
  destruct (Hkeys k) as [d Hd]; [apply list_elem_of_here|].
  rewrite Hd. cbn. f_equal. apply IH.
  intros k' Hk'. apply Hkeys. by apply list_elem_of_further.
Qed.

Lemma spec_importAll_length options state entries s :
  length (spec_importAll options state entries s).1 = length entries.
Proof.
  revert s. induction entries as [|[k d] entries IH]; intros s; cbn;
    [reflexivity|].
  destruct (fails_validation options d).
  - specialize (IH s). destruct (spec_importAll _ _ _ _). cbn in *.
    by rewrite IH.
  - destruct (http_put _ _ _) as [answer s1]. specialize (IH s1).
    destruct (spec_importAll _ _ _ _). cbn in *. by rewrite IH.
Qed.

Lemma upserts_sent_elem options state entries r :
  r ∈ upserts_sent options state entries ->
  exists k d,
    (k, d) ∈ entries /\ fails_validation options d = false /\
    r = mkRequest PUT (config_url state k) (Some d).
Proof.
  unfold upserts_sent. intros Hin.
  apply list_elem_of_In, in_flat_map in Hin as ([k d] & Hkd & Hr).
  exists k, d. split; [by apply list_elem_of_In|].
  destruct (fails_validation options d); [inversion Hr|].
  split; [reflexivity|]. destruct Hr as [<-|[]]. reflexivity.
Qed.

(** What the import records is the validation error of an entry that fails
    validation, or the error of an upsert that is not suppressed. *)
Lemma spec_importAll_recorded options state entries s error :
  error ∈ recorded (spec_importAll options state entries s).1 ->
  exists k d,
    (k, d) ∈ entries /\
    ((fails_validation options d = true /\ error = validationError k) \/
     (exists e, error = updateError k e /\
                import_protected state k error = false /\
                exists s0, (http_put (config_url state k) d s0).1 = inl e)).
Proof.
  revert s. induction entries as [|[k d] entries IH]; intros s; cbn.
  { intros Hin. inversion Hin. }
  destruct (fails_validation options d) eqn:Hval.
  - specialize (IH s). destruct (spec_importAll _ _ _ _) as [outcomes s'].
    cbn in *. intros Hin. apply elem_of_cons in Hin as [->|Hin].
    + exists k, d. split; [apply list_elem_of_here|]. by left.
    + destruct (IH Hin) as (k' & d' & Hkd & Hcase).
      exists k', d'. split; [by apply list_elem_of_further|assumption].
  - destruct (http_put _ _ _) as [answer s1] eqn:Hput. specialize (IH s1).
    destruct (spec_importAll _ _ _ _) as [outcomes s']. cbn in *.
    assert (error ∈ recorded outcomes -> exists k0 d0,
              (k0, d0) ∈ (k, d) :: entries /\
              ((fails_validation options d0 = true /\
                error = validationError k0) \/
               (exists e, error = updateError k0 e /\
                  import_protected state k0 error = false /\
                  exists s0, (http_put (config_url state k0) d0 s0).1 = inl e)))
      as Hrest.
    { intros Hin. destruct (IH Hin) as (k' & d' & Hkd & Hcase).
      exists k', d'. split; [by apply list_elem_of_further|assumption]. }
    destruct answer as [e|r]; cbn; [|assumption].
    destruct (import_protected state k (updateError k e)) eqn:Hprot; cbn;
      [assumption|].
    intros Hin. apply elem_of_cons in Hin as [->|Hin]; [|by apply Hrest].
    exists k, d. split; [apply list_elem_of_here|]. right.
    exists e. split; [reflexivity|]. split; [assumption|].
    exists s. by rewrite Hput.
Qed.

Lemma spec_importAll_records_invalid options state entries s k d :
  (k, d) ∈ entries ->
  fails_validation options d = true ->
  validationError k ∈ recorded (spec_importAll options state entries s).1.
Proof.
  intros Hin Hval. revert s.
  induction entries as [|[k' d'] entries IH]; intros s; [inversion Hin|].
  cbn. apply elem_of_cons in Hin as [Heq|Hin].
  - injection Heq as <- <-. rewrite Hval.
    destruct (spec_importAll _ _ _ _). cbn. apply list_elem_of_here.
  - destruct (fails_validation options d').
    + specialize (IH Hin s). destruct (spec_importAll _ _ _ _). cbn in *.
      by apply list_elem_of_further.
    + destruct (http_put _ _ _) as [answer s1]. specialize (IH Hin s1).
      destruct (spec_importAll _ _ _ _). cbn in *.
      destruct (upsert_outcome state k' answer); cbn;
        [assumption..|by apply list_elem_of_further].
Qed.

Lemma import_settles_rejected outcomes error :
  error ∈ recorded outcomes ->
  import_settles outcomes =
    Rejected (FrodoError "Error importing config entities"
                (ManyCauses (recorded outcomes))).
Proof.
  unfold import_settles. destruct (recorded outcomes); [|reflexivity].
  intros Hin. inversion Hin.
Qed.

Lemma import_settles_inv outcomes message errors :
  import_settles outcomes = Rejected (FrodoError message (ManyCauses errors)) ->
  errors = recorded outcomes.
Proof.
  unfold import_settles. destruct (recorded outcomes); [discriminate|].
  intros Heq. by injection Heq as _ <-.
Qed.

(** C2. The import goes through every id of the bundle, whatever fails on
    the way: each id is announced on the console and an upsert is sent for
    each id that passes validation; the call then rejects with the aggregate
    of every recorded failure if there is one, and otherwise returns the
    entities upserted, in the order of the bundle. *)
Theorem import_attempts_all_and_aggregates importData options state w :
  let entries := Object_entries (idm importData) in
  let run := spec_importAll options state entries (store w) in
  let done := importConfigEntities importData options state w in
  length run.1 = length (Object_keys (idm importData)) /\
  (forall k, k ∈ Object_keys (idm importData) ->
     DebugMessage ("IdmConfigOps.importConfigEntities: " +:+ k)
       ∈ console done.2) /\
  requests done.2 = requests w ++ upserts_sent options state entries /\
  store done.2 = run.2 /\
  done.1 =
    match recorded run.1 with
    | [] => Fulfilled (applied run.1)
    | errors =>
        Rejected (FrodoError "Error importing config entities"
                    (ManyCauses errors))
    end.
Proof.
  intros entries run done. subst done.
  rewrite importConfigEntities_run. cbn zeta. fold entries. fold run.
  cbn [fst snd store requests console].
  split.
  { subst run. rewrite spec_importAll_length. subst entries.
    apply entries_of_length, obj_get_keys. }
  split; [|by repeat split].
  intros k Hk. apply elem_of_app. right. unfold import_console.
  apply list_elem_of_further, elem_of_app. left.
  destruct (obj_get_keys _ _ Hk) as [d Hd].
  unfold import_debug. apply list_elem_of_In, in_flat_map.
  exists (k, d). split; [|by left].
  apply list_elem_of_In. subst entries. by apply Object_entries_elem.
Qed.

(** C8. With [validate] set, an entity of the bundle whose script hooks are
    not valid is never sent to the store, and the validation error of its id
    is among the errors of the aggregate the import rejects with. *)
Theorem import_invalid_hook_not_sent importData options state w
    entityId entityData :
  validate options = true ->
  obj_get (idm importData) entityId = Some entityData ->
  areScriptHooksValid entityData = false ->
  exists sent errors,
    requests (importConfigEntities importData options state w).2 =
      requests w ++ sent /\
    (forall r, r ∈ sent -> url r <> config_url state entityId) /\
    (importConfigEntities importData options state w).1 =
      Rejected (FrodoError "Error importing config entities"
                  (ManyCauses errors)) /\
    validationError entityId ∈ errors.
Proof.
  intros Hvalidate Hget Hinvalid.
  assert (fails_validation options entityData = true) as Hfails.
  { unfold fails_validation. by rewrite Hvalidate, Hinvalid. }
  rewrite importConfigEntities_run. cbn zeta. cbn [fst snd requests].
  eexists _, _. split; [reflexivity|]. split.
  - intros r Hr Hurl.
    apply upserts_sent_elem in Hr as (k & d & Hkd & Hpass & ->).
    cbn in Hurl. apply config_url_inj in Hurl as ->.
    apply Object_entries_elem in Hkd. congruence.
  - assert (validationError entityId ∈
              recorded (spec_importAll options state
                          (Object_entries (idm importData)) (store w)).1)
      as Hrecorded.
    { apply spec_importAll_records_invalid with entityData; [|assumption].
      by apply Object_entries_elem. }
    split; [|exact Hrecorded].
    by apply import_settles_rejected with (validationError entityId).
Qed.
End ImportProperties.

Section ImportProtected.
Context {env : Env}.

Lemma import_protected_forbidden state entityId e :
  getDeploymentType state = CLOUD_DEPLOYMENT_TYPE_KEY ->
  entityId ∈ AIC_PROTECTED_ENTITIES ->
  httpStatus e = Some 403 ->
  httpCode e = Some "ERR_BAD_REQUEST" ->
  import_protected state entityId (updateError entityId e) = true.
Proof.
  intros Hcloud Hin Hstatus Hcode. apply includes_elem_of in Hin.
  unfold import_protected. cbn [updateError httpStatus httpCode].
  rewrite Hcloud, String.eqb_refl, Hin, Hstatus, Hcode. reflexivity.
Qed.

Lemma spec_importAll_app options state before after s :
  spec_importAll options state (before ++ after) s =
    ((spec_importAll options state before s).1 ++
       (spec_importAll options state after
          (spec_importAll options state before s).2).1,
     (spec_importAll options state after
        (spec_importAll options state before s).2).2).
Proof.
  revert s. induction before as [|[k d] before IH]; intros s; cbn.
  { by destruct (spec_importAll options state after s). }
  destruct (fails_validation options d).
  - rewrite IH. by destruct (spec_importAll options state before s).
  - destruct (http_put _ _ _) as [answer s1]. rewrite IH.
    by destruct (spec_importAll options state before s1).
Qed.

Lemma applied_app outcomes outcomes' :
  applied (outcomes ++ outcomes') = applied outcomes ++ applied outcomes'.
Proof. apply omap_app. Qed.

Lemma recorded_app outcomes outcomes' :
  recorded (outcomes ++ outcomes') = recorded outcomes ++ recorded outcomes'.
Proof. apply omap_app. Qed.

Lemma upserts_sent_app options state entries entries' :
  upserts_sent options state (entries ++ entries') =
    upserts_sent options state entries ++ upserts_sent options state entries'.
Proof. apply flat_map_app. Qed.

Lemma applied_all outcomes :
  Forall (fun o => exists r, o = Applied r) outcomes ->
  recorded outcomes = [] /\ map Applied (applied outcomes) = outcomes.
Proof.
  induction 1 as [|o outcomes [r ->] _ [IH1 IH2]]; [done|].
  unfold applied, recorded in *. cbn. by rewrite IH1, IH2.
Qed.

(** C7. In the cloud offering, when the upsert of a protected id of the
    bundle is refused, in the state the store has reached when its turn
    comes, with a 403 bad request: the import goes on and sends the upserts
    of the ids that follow; it settles as it would if the bundle did not hold
    that id, with the errors recorded and the entities applied for the other
    ids, and the refusal is in no aggregate; if every other id is applied,
    the import succeeds and returns the entity applied for each other id,
    in the order of the bundle. *)
Theorem import_suppresses_protected
    importData options state w before entityId entityData after e s2 :
  getDeploymentType state = CLOUD_DEPLOYMENT_TYPE_KEY ->
  entityId ∈ AIC_PROTECTED_ENTITIES ->
  Object_entries (idm importData) =
    before ++ (entityId, entityData) :: after ->
  fails_validation options entityData = false ->
  http_put (config_url state entityId) entityData
    (spec_importAll options state before (store w)).2 = (inl e, s2) ->
  httpStatus e = Some 403 ->
  httpCode e = Some "ERR_BAD_REQUEST" ->
  let reached := spec_importAll options state before (store w) in
  let rest := spec_importAll options state after s2 in
  let done := importConfigEntities importData options state w in
  requests done.2 =
    requests w ++
      upserts_sent options state before ++
      mkRequest PUT (config_url state entityId) (Some entityData) ::
      upserts_sent options state after /\
  store done.2 = rest.2 /\
  done.1 =
    match recorded reached.1 ++ recorded rest.1 with
    | [] => Fulfilled (applied reached.1 ++ applied rest.1)
    | errors =>
        Rejected (FrodoError "Error importing config entities"
                    (ManyCauses errors))
    end /\
  (forall message errors,
     done.1 = Rejected (FrodoError message (ManyCauses errors)) ->
     updateError entityId e ∉ errors) /\
  (Forall (fun o => exists r, o = Applied r) (reached.1 ++ rest.1) ->
   exists response,
     done.1 = Fulfilled response /\
     map Applied response = reached.1 ++ rest.1 /\
     length response = (length before + length after)%nat).
Proof.
  intros Hcloud Hin Hentries Hvalid Hput Hstatus Hcode reached rest done.
  assert (import_protected state entityId (updateError entityId e) = true)
    as Hsuppressed by by apply import_protected_forbidden.
  assert (spec_importAll options state (Object_entries (idm importData))
            (store w) =
          (reached.1 ++ Suppressed :: rest.1, rest.2)) as Hrun.
  { subst reached rest. rewrite Hentries, spec_importAll_app.
    cbn [spec_importAll]. rewrite Hvalid, Hput.
    destruct (spec_importAll options state after s2) as [outcomes s'].
    cbn [fst snd upsert_outcome]. by rewrite Hsuppressed. }
  assert (done.1 =
            match recorded reached.1 ++ recorded rest.1 with
            | [] => Fulfilled (applied reached.1 ++ applied rest.1)
            | errors =>
                Rejected (FrodoError "Error importing config entities"
                            (ManyCauses errors))
            end) as Hdone.
  { subst done. rewrite importConfigEntities_run. cbn zeta. cbn [fst].
    rewrite Hrun. cbn [fst]. unfold import_settles.
    rewrite recorded_app, applied_app.
    change (recorded (Suppressed :: rest.1)) with (recorded rest.1).
    change (applied (Suppressed :: rest.1)) with (applied rest.1).
    reflexivity. }
  split; [|split; [|split; [exact Hdone|split]]].
  - subst done. rewrite importConfigEntities_run. cbn zeta.
    cbn [snd requests]. rewrite Hentries, upserts_sent_app.
    unfold upserts_sent at 2. cbn [flat_map]. rewrite Hvalid.
    reflexivity.
  - subst done. rewrite importConfigEntities_run. cbn zeta.
    cbn [snd store]. by rewrite Hrun.
  - intros message errors Hrejected Herror. rewrite Hdone in Hrejected.
    destruct (recorded reached.1 ++ recorded rest.1) as [|e0 errors0]
      eqn:Hrecorded; [discriminate|].
    injection Hrejected as _ <-. rewrite <- Hrecorded in Herror.
    assert (exists entries s,
              updateError entityId e ∈
                recorded (spec_importAll options state entries s).1)
      as (entries & s & Hrec).
    { apply elem_of_app in Herror as [Hrec|Hrec]; eauto. }
    apply spec_importAll_recorded in Hrec as (k & d & _ & Hcase).
    destruct Hcase as [[_ Heq]|(e1 & Heq & Hnot & _)]; [discriminate|].
    apply updateError_inj in Heq as [<- <-]. congruence.
  - intros Hall. rewrite Hdone.
    destruct (applied_all _ Hall) as [Hnone Hmap].
    rewrite recorded_app in Hnone. rewrite Hnone.
    exists (applied reached.1 ++ applied rest.1).
    split; [reflexivity|]. rewrite <- applied_app.
    split; [exact Hmap|].
    rewrite <- (length_map Applied), Hmap, length_app.
    subst reached rest. by rewrite !spec_importAll_length.
Qed.
End ImportProtected.

(** *** The import on the sample stores *)

Section ProtectingSample.
#[local] Existing Instance Sample.protecting_store.

Lemma import_suppresses_protected_witness :
  let done :=
    importConfigEntities Sample.templates (mkOptions false) Sample.cloud
      (Sample.start Sample.protecting) in
  requests done.2 =
    requests (Sample.start Sample.protecting) ++
      upserts_sent (mkOptions false) Sample.cloud
        [("sync", Sample.doc "sync")] ++
      mkRequest PUT (config_url Sample.cloud "emailTemplate/frOnboarding")
        (Some (Sample.doc "emailTemplate/frOnboarding")) ::
      upserts_sent (mkOptions false) Sample.cloud
        [("managed", Sample.doc "managed")] /\
  store done.2 = tt /\
  done.1 = Fulfilled [Sample.doc "sync"; Sample.doc "managed"] /\
  (forall message errors,
     done.1 = Rejected (FrodoError message (ManyCauses errors)) ->
     updateError "emailTemplate/frOnboarding" Sample.forbidden ∉ errors) /\
  (Forall (fun o => exists r, o = Applied r)
     [Applied (Sample.doc "sync"); Applied (Sample.doc "managed")] ->
   exists response,
     done.1 = Fulfilled response /\
     map Applied response =
       [Applied (Sample.doc "sync"); Applied (Sample.doc "managed")] /\
     length response = 2%nat).
Proof.
  apply (import_suppresses_protected Sample.templates (mkOptions false)
           Sample.cloud (Sample.start Sample.protecting)
           [("sync", Sample.doc "sync")]
           "emailTemplate/frOnboarding"
           (Sample.doc "emailTemplate/frOnboarding")
           [("managed", Sample.doc "managed")]
           Sample.forbidden tt).
  - reflexivity.
  - apply includes_elem_of. reflexivity.
  - reflexivity.
  - reflexivity.
  - reflexivity.
  - reflexivity.
  - reflexivity.
Defined.

(** On the sample store the protected template is refused and the two
    other entities are returned. *)
Example import_protected_sample :
  (importConfigEntities Sample.templates (mkOptions false) Sample.cloud
     (Sample.start Sample.protecting)).1 =
    Fulfilled [Sample.doc "sync"; Sample.doc "managed"].
Proof. reflexivity. Qed.

Lemma import_invalid_hook_not_sent_witness :
  exists sent errors,
    requests (importConfigEntities Sample.with_hook (mkOptions true)
                Sample.cloud (Sample.start Sample.protecting)).2 =
      requests (Sample.start Sample.protecting) ++ sent /\
    (forall r, r ∈ sent -> url r <> config_url Sample.cloud "managed") /\
    (importConfigEntities Sample.with_hook (mkOptions true) Sample.cloud
       (Sample.start Sample.protecting)).1 =
      Rejected (FrodoError "Error importing config entities"
                  (ManyCauses errors)) /\
    validationError "managed" ∈ errors.
Proof.
  apply (import_invalid_hook_not_sent Sample.with_hook (mkOptions true)
           Sample.cloud (Sample.start Sample.protecting) "managed"
           (Sample.hooked "managed")).
  - reflexivity.
  - reflexivity.
  - reflexivity.
Defined.
End ProtectingSample.

(** ** Properties of the deletes *)

Section DeleteProperties.
Context {env : Env}.

Lemma spec_deleteAll_length state ids s :
  (length (spec_deleteAll state ids s).1.1 +
   length (spec_deleteAll state ids s).1.2 = length ids)%nat.
Proof.
  revert s. induction ids as [|entityId ids IH]; intros s; cbn;
    [reflexivity|].
  destruct (http_delete _ _) as [answer s1]. specialize (IH s1).
  destruct (spec_deleteAll _ _ _) as [[deleted errors] s'].
  destruct answer; cbn in *; lia.
Qed.

(** C3. A failure of the listing call ends either operation at once: no
    delete is sent, the store is left as it is, and the operation rejects
    with a [FrodoError] that wraps one error, the failure of the listing.
    When the listing succeeds, a delete is sent for every id listed, whatever
    the earlier deletes answered, each id yields a deleted entity or an
    error, and the operation rejects with the aggregate of all the errors,
    in order, if there is one, and returns the deleted entities otherwise. *)
Theorem delete_listing_and_aggregation type state w :
  match http_get_stubs (stubs_url state) (store w) with
  | inl e =>
      (exists causes,
         (deleteConfigEntities state w).1 =
           Rejected (FrodoError "Error deleting config entities" causes) /\
         originalErrors (FrodoError "Error deleting config entities" causes) =
           [FrodoError "Error reading config entity stubs" (OneCause e)])
      /\ requests (deleteConfigEntities state w).2 =
           requests w ++ [mkRequest GET (stubs_url state) None]
      /\ store (deleteConfigEntities state w).2 = store w
  | inr stubs =>
      let ids := map stub_id (configurations stubs) in
      let run := spec_deleteAll state ids (store w) in
      (deleteConfigEntities state w).1 =
        match run.1.2 with
        | [] => Fulfilled run.1.1
        | errors =>
            Rejected (FrodoError "Error deleting config entities"
                        (ManyCauses errors))
        end
      /\ requests (deleteConfigEntities state w).2 =
           requests w ++
             mkRequest GET (stubs_url state) None :: deletes_sent state ids
      /\ store (deleteConfigEntities state w).2 = run.2
      /\ (length run.1.1 + length run.1.2 = length ids)%nat
  end /\
  match http_get_query (entities_by_type_url type state) (store w) with
  | inl e =>
      (exists causes,
         (deleteConfigEntitiesByType type state w).1 =
           Rejected
             (FrodoError "Error deleting config entities by type" causes) /\
         originalErrors
           (FrodoError "Error deleting config entities by type" causes) =
           [FrodoError "Error reading config entities by type" (OneCause e)])
      /\ requests (deleteConfigEntitiesByType type state w).2 =
           requests w ++
             [mkRequest GET (entities_by_type_url type state) None]
      /\ store (deleteConfigEntitiesByType type state w).2 = store w
  | inr page =>
      let ids := map _id (result page) in
      let run := spec_deleteAll state ids (store w) in
      (deleteConfigEntitiesByType type state w).1 =
        match run.1.2 with
        | [] => Fulfilled run.1.1
        | errors =>
            Rejected (FrodoError "Error deleting config entities by type"
                        (ManyCauses errors))
        end
      /\ requests (deleteConfigEntitiesByType type state w).2 =
           requests w ++
             mkRequest GET (entities_by_type_url type state) None ::
             deletes_sent state ids
      /\ store (deleteConfigEntitiesByType type state w).2 = run.2
      /\ (length run.1.1 + length run.1.2 = length ids)%nat
  end.
Proof.
  rewrite deleteConfigEntities_run, deleteConfigEntitiesByType_run.
  split.
  - destruct (http_get_stubs _ _) as [e|stubs]; cbn zeta;
      cbn [fst snd store requests].
    { split; [by eexists|by split]. }
    split; [|split; [reflexivity|split;
      [reflexivity|apply spec_deleteAll_length]]].
    unfold delete_settles. by destruct (spec_deleteAll _ _ _).1.2.
  - destruct (http_get_query _ _) as [e|page]; cbn zeta;
      cbn [fst snd store requests].
    { split; [by eexists|by split]. }
    split; [|split; [reflexivity|split;
      [reflexivity|apply spec_deleteAll_length]]].
    unfold delete_settles. by destruct (spec_deleteAll _ _ _).1.2.
Qed.

(** C10. [deleteConfigEntity] settles as the call of the API it returns:
    when the store refuses the delete, the promise is rejected with the error
    of the store itself, not with a [FrodoError] around it. *)
Theorem deleteConfigEntity_rejects_unwrapped entityId state w e s :
  http_delete (config_url state entityId) (store w) = (inl e, s) ->
  deleteConfigEntity entityId state w = _deleteConfigEntity entityId state w /\
  (deleteConfigEntity entityId state w).1 = Rejected e.
Proof.
  intros Hdelete.
  assert (deleteConfigEntity entityId state w =
            _deleteConfigEntity entityId state w) as Hsame.
  { unfold deleteConfigEntity, async_returning, try_catch, bind, call, ret.
    by destruct (_deleteConfigEntity entityId state w). }
  split; [assumption|].
  rewrite Hsame, deleteConfigEntity_api_run, Hdelete. reflexivity.
Qed.
End DeleteProperties.

(** *** The deletes on the sample stores *)

Section DownSample.
#[local] Existing Instance Sample.down_store.

(** At a store that is down, each of the two operations sends its listing
    and nothing else, and rejects with an error that wraps the one failure
    of that listing. *)
Example deletes_at_a_store_that_is_down :
  (exists error,
     (deleteConfigEntities Sample.cloud (Sample.start Sample.down)).1 =
       Rejected error /\
     originalErrors error =
       [FrodoError "Error reading config entity stubs"
          (OneCause Sample.serverError)]) /\
  (exists error,
     (deleteConfigEntitiesByType "script" Sample.cloud
        (Sample.start Sample.down)).1 = Rejected error /\
     originalErrors error =
       [FrodoError "Error reading config entities by type"
          (OneCause Sample.serverError)]) /\
  map method
    (requests (deleteConfigEntities Sample.cloud
                 (Sample.start Sample.down)).2) = [GET] /\
  map method
    (requests (deleteConfigEntitiesByType "script" Sample.cloud
                 (Sample.start Sample.down)).2) = [GET].
Proof. repeat split; eexists; split; reflexivity. Qed.

Lemma deleteConfigEntity_rejects_unwrapped_witness :
  deleteConfigEntity "script" Sample.cloud (Sample.start Sample.down) =
    _deleteConfigEntity "script" Sample.cloud (Sample.start Sample.down) /\
  (deleteConfigEntity "script" Sample.cloud (Sample.start Sample.down)).1 =
    Rejected Sample.serverError.
Proof.
  apply (deleteConfigEntity_rejects_unwrapped "script" Sample.cloud
           (Sample.start Sample.down) Sample.serverError tt).
  reflexivity.
Defined.
End DownSample.

(** ** Importing twice into an upsert store *)

Section Idempotence.
Variable refuses : string -> Entity -> option Error.
Variable get_stubs : string -> gmap string Entity -> Error + IdmConfigStubs.
Variable get_query : string -> gmap string Entity -> Error + PagedResult.
Variable delete_entity :
  string -> gmap string Entity -> (Error + Entity) * gmap string Entity.
Variable hostBaseUrl : string -> string.
Variable hooksValid : Entity -> bool.
Variable hookMessages : Entity -> list ConsoleEvent.
Variable metadata : State -> ExportMetaData.
Variable cloudKey : string.
Variable indicatorId : list ConsoleEvent -> string.
Variable printErrorThrows : Error -> option Error.

Local Abbreviation upsert_store :=
  (upsertEnv refuses get_stubs get_query delete_entity hostBaseUrl hooksValid
     hookMessages metadata cloudKey indicatorId printErrorThrows).

Variable options : ConfigEntityImportOptions.
Variable state : State.

(** An entry is written by the import when it passes validation and the
    store does not refuse it. *)
Local Abbreviation written k d :=
  (fails_validation (env := upsert_store) options d = false /\
   refuses (config_url (env := upsert_store) state k) d = None).

Lemma spec_importAll_step k d entries (s : gmap string Entity) :
  spec_importAll (env := upsert_store) options state ((k, d) :: entries) s =
    if fails_validation (env := upsert_store) options d then
      let run := spec_importAll (env := upsert_store) options state entries s in
      (Recorded (validationError k) :: run.1, run.2)
    else
      match refuses (config_url (env := upsert_store) state k) d with
      | Some e =>
          let run := spec_importAll (env := upsert_store) options state entries s in
          (upsert_outcome (env := upsert_store) state k (inl e) :: run.1, run.2)
      | None =>
          let run :=
            spec_importAll (env := upsert_store) options state entries
              (<[config_url (env := upsert_store) state k := d]> s) in
          (upsert_outcome (env := upsert_store) state k (inr d) :: run.1, run.2)
      end.
Proof.
  cbn [spec_importAll]. destruct (fails_validation (env := upsert_store) options d).
  - by destruct (spec_importAll _ _ _ _).
  - change (@http_put upsert_store) with (upsert refuses).
    unfold upsert. destruct (refuses _ _); by destruct (spec_importAll _ _ _ _).
Qed.

(** What the import reports does not depend on what the store holds. *)
Lemma spec_importAll_outcomes entries (s s' : gmap string Entity) :
  (spec_importAll (env := upsert_store) options state entries s).1 =
  (spec_importAll (env := upsert_store) options state entries s').1.
Proof.
  revert s s'. induction entries as [|[k d] entries IH]; intros s s';
    [reflexivity|].
  rewrite !spec_importAll_step.
  destruct (fails_validation (env := upsert_store) options d); cbn zeta; cbn [fst snd];
    [f_equal; apply IH|].
  destruct (refuses _ _); cbn zeta; cbn [fst snd]; f_equal; apply IH.
Qed.

(** After the import the store holds, under the URL of an id, the document
    of the bundle if it was written, and what it held before otherwise. *)
Lemma spec_importAll_lookup entries (s : gmap string Entity) k d :
  (forall d', (k, d') ∈ entries -> d' = d) ->
  ((k, d) ∈ entries /\ written k d) \/ s !! config_url (env := upsert_store) state k = Some d ->
  (spec_importAll (env := upsert_store) options state entries s).2 !! config_url (env := upsert_store) state k = Some d.
Proof.
  revert s. induction entries as [|[k0 d0] entries IH]; intros s Hfun Hcase.
  { destruct Hcase as [[Hin _]|Hs]; [inversion Hin|exact Hs]. }
  assert (forall d', (k, d') ∈ entries -> d' = d) as Hfun'.
  { intros d' Hin. apply Hfun. by apply list_elem_of_further. }
  rewrite spec_importAll_step.
  destruct (fails_validation (env := upsert_store) options d0) eqn:Hval; cbn zeta; cbn [fst snd].
  { apply IH; [assumption|].
    destruct Hcase as [[Hin Hw]|Hs]; [|by right].
    apply elem_of_cons in Hin as [Heq|Hin]; [|by left].
    injection Heq as <- <-. destruct Hw as [Hw _]. congruence. }
  destruct (refuses (config_url (env := upsert_store) state k0) d0) eqn:Hrefuses; cbn zeta;
    cbn [fst snd].
  { apply IH; [assumption|].
    destruct Hcase as [[Hin Hw]|Hs]; [|by right].
    apply elem_of_cons in Hin as [Heq|Hin]; [|by left].
    injection Heq as <- <-. destruct Hw as [_ Hw]. congruence. }
  apply IH; [assumption|].
  destruct (decide (k0 = k)) as [->|Hne].
  - right. rewrite (Hfun d0) by apply list_elem_of_here.
    apply lookup_insert_eq.
  - destruct Hcase as [[Hin Hw]|Hs].
    + apply elem_of_cons in Hin as [Heq|Hin]; [congruence|by left].
    + right. rewrite lookup_insert_ne; [assumption|].
      intros Heq. by apply config_url_inj in Heq.
Qed.

(** A store that already holds every document the import writes is left as
    it is. *)
Lemma spec_importAll_fixed entries (s : gmap string Entity) :
  (forall k d, (k, d) ∈ entries -> written k d ->
               s !! config_url (env := upsert_store) state k = Some d) ->
  (spec_importAll (env := upsert_store) options state entries s).2 = s.
Proof.
  induction entries as [|[k d] entries IH]; intros Hheld; [reflexivity|].
  assert (forall k' d', (k', d') ∈ entries -> written k' d' ->
                        s !! config_url (env := upsert_store) state k' = Some d') as Hheld'.
  { intros k' d' Hin. apply Hheld. by apply list_elem_of_further. }
  rewrite spec_importAll_step.
  destruct (fails_validation (env := upsert_store) options d) eqn:Hval; cbn zeta; cbn [fst snd];
    [by apply IH|].
  destruct (refuses (config_url (env := upsert_store) state k) d) eqn:Hrefuses; cbn zeta;
    cbn [fst snd]; [by apply IH|].
  rewrite insert_id; [by apply IH|].
  apply Hheld; [apply list_elem_of_here|by split].
Qed.

(** C9. On a store whose [PUT] is an upsert, importing the same bundle with
    the same options a second time leaves the store as the first import left
    it and settles as the first import did: the second pass meets no failure
    that the first did not meet. *)
Theorem import_twice_same_store importData (w : World (E := upsert_store)) :
  store (importConfigEntities (env := upsert_store) importData options state
           (importConfigEntities (env := upsert_store) importData options state w).2).2 =
    store (importConfigEntities (env := upsert_store) importData options state w).2 /\
  (importConfigEntities (env := upsert_store) importData options state
     (importConfigEntities (env := upsert_store) importData options state w).2).1 =
    (importConfigEntities (env := upsert_store) importData options state w).1.
Proof.
  rewrite !importConfigEntities_run. cbn zeta. cbn [fst snd store].
  split.
  - apply spec_importAll_fixed. intros k d Hin Hwritten.
    apply spec_importAll_lookup; [|left; by split].
    intros d' Hin'. apply Object_entries_elem in Hin, Hin'. congruence.
  - f_equal. apply spec_importAll_outcomes.
Qed.
End Idempotence.

(** ** The types of the configuration entities *)

Lemma split_on_head (s : string) :
  head (split_on "/"%char s) = Some (entity_type s).
Proof.
  induction s as [|c s IH]; cbn; [reflexivity|].
  destruct (Ascii.eqb c "/"%char); [reflexivity|].
  destruct (split_on "/"%char s) as [|piece pieces]; [discriminate|].
  cbn in *. congruence.
Qed.

Lemma split_on_length (s : string) :
  (0 <? length (split_on "/"%char s))%nat = true.
Proof.
  destruct s as [|c s]; cbn; [reflexivity|].
  destruct (Ascii.eqb c "/"%char); [reflexivity|].
  by destruct (split_on "/"%char s).
Qed.

(** X4. The type the code takes from an identifier, the first piece of
    [split('/')], is the text before the first ["/"]: it has no ["/"], the
    identifier is that text alone or that text, a ["/"] and more, and an
    identifier without ["/"] is its own type. *)
Theorem type_is_text_before_first_slash (entityId : string) :
  exists type,
    head (split_on "/"%char entityId) = Some type /\
    occurs "/"%char type = false /\
    (entityId = type \/ exists rest, entityId = type +:+ "/" +:+ rest) /\
    (occurs "/"%char entityId = false -> type = entityId).
Proof.
  exists (entity_type entityId). split; [apply split_on_head|].
  induction entityId as [|c s (Hnone & Hshape & Hown)]; cbn.
  { split; [reflexivity|]. split; [by left|done]. }
  destruct (Ascii.eqb_spec c "/"%char) as [->|Hc]; cbn.
  - split; [reflexivity|]. split; [right; by exists s|discriminate].
  - apply Ascii.eqb_neq in Hc. rewrite Hc, Hnone. cbn.
    split; [reflexivity|]. split.
    + destruct Hshape as [Heq|[rest Heq]].
      * left. by rewrite <- Heq.
      * right. exists rest. by rewrite Heq at 1.
    + intros Hs. by rewrite Hown.
Qed.

Lemma includes_false (l : list string) (x : string) :
  includes l x = false <-> x ∉ l.
Proof.
  rewrite <- includes_elem_of. by destruct (includes l x).
Qed.

Lemma first_seen_snoc seen xs x :
  first_seen seen (xs ++ [x]) =
    if includes (first_seen seen xs) x then first_seen seen xs
    else first_seen seen xs ++ [x].
Proof.
  revert seen. induction xs as [|y xs IH]; intros seen; cbn; [reflexivity|].
  apply IH.
Qed.

Lemma first_seen_elem seen xs t :
  t ∈ first_seen seen xs <-> t ∈ seen \/ t ∈ xs.
Proof.
  revert seen. induction xs as [|x xs IH]; intros seen; cbn.
  - rewrite elem_of_nil. tauto.
  - rewrite IH, elem_of_cons.
    destruct (includes seen x) eqn:Hseen.
    + apply includes_elem_of in Hseen. split; [tauto|].
      intros [?|[->|?]]; tauto.
    + rewrite elem_of_app, elem_of_cons, elem_of_nil. tauto.
Qed.

Lemma first_seen_NoDup seen xs :
  NoDup seen -> NoDup (first_seen seen xs).
Proof.
  revert seen. induction xs as [|x xs IH]; intros seen Hseen; cbn;
    [assumption|].
  apply IH. destruct (includes seen x) eqn:Hx; [assumption|].
  apply includes_false in Hx. apply NoDup_app. split; [assumption|].
  split; [|apply NoDup_singleton].
  intros y Hy Hyx. apply elem_of_cons in Hyx as [->|Hnil]; [done|].
  inversion Hnil.
Qed.

Lemma first_seen_remove_dups xs :
  first_seen [] xs = reverse (remove_dups (reverse xs)).
Proof.
  induction xs as [|x xs IH] using rev_ind; [reflexivity|].
  rewrite first_seen_snoc, reverse_snoc. simpl remove_dups.
  destruct (decide_rel elem_of x (reverse xs)) as [Hin|Hout].
  - assert (includes (first_seen [] xs) x = true) as ->; [|exact IH].
    apply includes_elem_of, first_seen_elem. right.
    by apply elem_of_reverse.
  - assert (includes (first_seen [] xs) x = false) as ->.
    { apply includes_false. intros Hin.
      apply first_seen_elem in Hin as [Hnil|Hin]; [inversion Hnil|].
      by apply Hout, elem_of_reverse. }
    rewrite reverse_cons. by rewrite IH.
Qed.

Section Types.
Context {env : Env}.

Lemma types_loop_run stubs :
  forall types w,
    for_of stubs types_step types w =
      (inr tt,
       first_seen types (map (fun stub => entity_type (stub_id stub)) stubs),
       w).
Proof.
  induction stubs as [|stub stubs IH]; intros types w; cbn; [reflexivity|].
  unfold bind at 1. unfold types_step at 1.
  rewrite split_on_length, split_on_head.
  unfold bind, get_locals, modify_locals, ret.
  destruct (includes types (entity_type (stub_id stub))); cbn; apply IH.
Qed.

Lemma readConfigEntityTypes_run state w :
  readConfigEntityTypes state w =
    (match http_get_stubs (stubs_url state) (store w) with
     | inr stubs =>
         Fulfilled
           (first_seen []
              (map (fun stub => entity_type (stub_id stub))
                 (configurations stubs)))
     | inl e =>
         Rejected
           (FrodoError "Error reading config entity types"
              (OneCause
                 (FrodoError "Error reading config entity stubs"
                    (OneCause e))))
     end,
     mkWorld (store w) (requests w ++ [mkRequest GET (stubs_url state) None])
       (console w)).
Proof.
  unfold readConfigEntityTypes, async, try_catch.
  unfold bind at 1. unfold bind at 1. unfold call at 1.
  rewrite readConfigEntityStubs_run.
  destruct (http_get_stubs _ _) as [e|stubs]; cbn; [reflexivity|].
  unfold bind at 1.
  pose proof (types_loop_run (configurations stubs) []) as Hloop.
  unfold types_step in Hloop. rewrite Hloop. reflexivity.
Qed.

(** X1. When the listing of the stubs succeeds, [readConfigEntityTypes]
    returns a list without duplicates that holds exactly the types of the
    listed stubs: no stub is skipped. *)
Theorem types_are_the_distinct_first_segments state w stubs :
  http_get_stubs (stubs_url state) (store w) = inr stubs ->
  exists types,
    (readConfigEntityTypes state w).1 = Fulfilled types /\
    NoDup types /\
    forall t,
      t ∈ types <->
      exists stub,
        stub ∈ configurations stubs /\
        head (split_on "/"%char (stub_id stub)) = Some t.
Proof.
  intros Hlist. rewrite readConfigEntityTypes_run, Hlist. cbn [fst].
  eexists. split; [reflexivity|]. split.
  - apply first_seen_NoDup, NoDup_nil_2.
  - intros t. rewrite first_seen_elem, elem_of_nil, list_elem_of_fmap.
    split.
    + intros [[]|(stub & -> & Hstub)]. exists stub.
      split; [assumption|apply split_on_head].
    + intros (stub & Hstub & Hhead). right. exists stub.
      split; [|assumption]. rewrite split_on_head in Hhead. congruence.
Qed.

(** X2. The types come in the order in which the listing first shows them:
    the list of the types of the stubs with every later repetition taken
    out. *)
Theorem types_in_first_seen_order state w stubs :
  http_get_stubs (stubs_url state) (store w) = inr stubs ->
  (readConfigEntityTypes state w).1 =
    Fulfilled
      (reverse
         (remove_dups
            (reverse
               (map (fun stub => entity_type (stub_id stub))
                  (configurations stubs))))).
Proof.
  intros Hlist. rewrite readConfigEntityTypes_run, Hlist. cbn [fst].
  by rewrite first_seen_remove_dups.
Qed.

(** X3. When the listing of the stubs fails, [readConfigEntityTypes] rejects
    with its own [FrodoError] around the [FrodoError] of
    [readConfigEntityStubs] around the error of the store, having sent the
    one request. *)
Theorem types_listing_failure_wrapped_twice state w e :
  http_get_stubs (stubs_url state) (store w) = inl e ->
  (readConfigEntityTypes state w).1 =
    Rejected
      (FrodoError "Error reading config entity types"
         (OneCause
            (FrodoError "Error reading config entity stubs" (OneCause e)))) /\
  requests (readConfigEntityTypes state w).2 =
    requests w ++ [mkRequest GET (stubs_url state) None].
Proof.
  intros Hlist. by rewrite readConfigEntityTypes_run, Hlist.
Qed.
End Types.

(** ** Creating and updating one entity *)

Section CreateUpdate.
Context {env : Env}.

Lemma updateConfigEntity_run_wait entityId entityData wait state w :
  updateConfigEntity entityId entityData wait state w =
    (match (http_put (put_url state entityId wait) entityData (store w)).1 with
     | inr a => Fulfilled a
     | inl e => Rejected (updateError entityId e)
     end,
     mkWorld (http_put (put_url state entityId wait) entityData (store w)).2
       (requests w ++
          [mkRequest PUT (put_url state entityId wait) (Some entityData)])
       (console w)).
Proof.
  unfold updateConfigEntity, _putConfigEntity, async, try_catch, bind, call,
    api_put, await, put_url, updateError. cbn.
  destruct (http_put _ _ _) as [[e|a] s]; reflexivity.
Qed.

Lemma createConfigEntity_run entityId entityData wait state w :
  createConfigEntity entityId entityData wait state w =
    match http_get_entity (config_url state entityId) (store w) with
    | inr _ =>
        (Rejected (existsError entityId),
         mkWorld (store w)
           (requests w ++ [mkRequest GET (config_url state entityId) None])
           (console w ++
              [DebugMessage "IdmConfigOps.createConfigEntity: start"]))
    | inl _ =>
        let answer :=
          http_put (put_url state entityId wait) entityData (store w) in
        (match answer.1 with
         | inr a => Fulfilled a
         | inl e => Rejected (createError entityId (updateError entityId e))
         end,
         mkWorld answer.2
           (requests w ++
              [mkRequest GET (config_url state entityId) None;
               mkRequest PUT (put_url state entityId wait) (Some entityData)])
           (console w ++
              DebugMessage "IdmConfigOps.createConfigEntity: start" ::
              match answer.1 with
              | inr _ => [DebugMessage "IdmConfigOps.createConfigEntity: end"]
              | inl _ => []
              end))
    end.
Proof.
  unfold createConfigEntity, async.
  unfold bind at 1. unfold debugMessage at 1, emit at 1.
  unfold bind at 1. unfold try_catch at 1.
  unfold bind at 1. unfold bind at 1. unfold call at 1.
  rewrite readConfigEntity_run.
  destruct (http_get_entity _ _) as [e0|r]; cbn -[String.append].
  - unfold try_catch, bind, call. rewrite updateConfigEntity_run_wait.
    cbn -[String.append].
    destruct (http_put _ _ _) as [[e|a] s]; cbn -[String.append];
      rewrite <- ?app_assoc; reflexivity.
  - reflexivity.
Qed.

(** X5. [createConfigEntity] of an entity that can be read writes nothing:
    the one request is the read, the store is left as it is, and the promise
    is rejected with the error saying that the entity already exists. *)
Theorem create_existing_writes_nothing entityId entityData wait state w r :
  http_get_entity (config_url state entityId) (store w) = inr r ->
  (createConfigEntity entityId entityData wait state w).1 =
    Rejected
      (FrodoError ("Config entity " +:+ entityId +:+ " already exists!")
         NoCause) /\
  requests (createConfigEntity entityId entityData wait state w).2 =
    requests w ++ [mkRequest GET (config_url state entityId) None] /\
  store (createConfigEntity entityId entityData wait state w).2 = store w.
Proof.
  intros Hget. by rewrite createConfigEntity_run, Hget.
Qed.

(** X6. [createConfigEntity] takes any failure of the read, whatever its
    status, for the absence of the entity: it then sends the [PUT], to the
    URL of the entity, followed by [?waitForCompletion=true] when [wait] is
    set, and settles with the answer of the store, or with the error of the
    update wrapped once more. *)
Theorem create_writes_after_any_read_failure
    entityId entityData wait state w e0 :
  http_get_entity (config_url state entityId) (store w) = inl e0 ->
  requests (createConfigEntity entityId entityData wait state w).2 =
    requests w ++
      [mkRequest GET (config_url state entityId) None;
       mkRequest PUT
         (idmConfigURLTemplate (getHostBaseUrl (getHost state))
            (if wait then entityId +:+ "?waitForCompletion=true"
             else entityId))
         (Some entityData)] /\
  store (createConfigEntity entityId entityData wait state w).2 =
    (http_put (put_url state entityId wait) entityData (store w)).2 /\
  (createConfigEntity entityId entityData wait state w).1 =
    match (http_put (put_url state entityId wait) entityData (store w)).1 with
    | inr a => Fulfilled a
    | inl e =>
        Rejected
          (FrodoError ("Error creating config entity " +:+ entityId)
             (OneCause
                (FrodoError ("Error updating config entity " +:+ entityId)
                   (OneCause e))))
    end.
Proof.
  intros Hget. rewrite createConfigEntity_run, Hget. cbn zeta.
  cbn [fst snd store requests]. by repeat split.
Qed.
End CreateUpdate.

(** ** The exported object *)

Section FacadeProperties.
Context {env : Env}.

Lemma forward_run {A} (f : Async A) w : forward f w = f w.
Proof.
  unfold forward, async_returning, bind, call, ret. by destruct (f w).
Qed.

(** X7. The deprecated member [getConfigEntity] and [readConfigEntity] send
    the same request and return the same entity; when the store fails, the
    deprecated member rejects with the error of the store and
    [readConfigEntity] with a [FrodoError] around it. *)
Theorem deprecated_getConfigEntity_unwrapped state entityId w :
  (Facade.getConfigEntity (IdmConfig_default state) entityId w).2 =
    (Facade.readConfigEntity (IdmConfig_default state) entityId w).2 /\
  match http_get_entity (config_url state entityId) (store w) with
  | inr r =>
      (Facade.getConfigEntity (IdmConfig_default state) entityId w).1 =
        Fulfilled r /\
      (Facade.readConfigEntity (IdmConfig_default state) entityId w).1 =
        Fulfilled r
  | inl e =>
      (Facade.getConfigEntity (IdmConfig_default state) entityId w).1 =
        Rejected e /\
      (Facade.readConfigEntity (IdmConfig_default state) entityId w).1 =
        Rejected
          (FrodoError ("Error reading config entity " +:+ entityId)
             (OneCause e))
  end.
Proof.
  cbn [Facade.getConfigEntity Facade.readConfigEntity IdmConfig_default].
  rewrite !forward_run, readConfigEntity_run.
  unfold _getConfigEntity, async, bind, call, api_get, await. cbn.
  fold (config_url state entityId).
  destruct (http_get_entity _ _); by repeat split.
Qed.

(** X8. The deprecated member [putConfigEntity] and [updateConfigEntity]
    called without [wait] send the same [PUT] and leave the same store; when
    the store refuses, the deprecated member rejects with the error of the
    store and [updateConfigEntity] with a [FrodoError] around it. *)
Theorem deprecated_putConfigEntity_unwrapped state entityId entityData w :
  (Facade.putConfigEntity (IdmConfig_default state) entityId entityData w).2 =
    (Facade.updateConfigEntity (IdmConfig_default state) entityId entityData
       None w).2 /\
  requests
    (Facade.putConfigEntity (IdmConfig_default state) entityId entityData w).2 =
    requests w ++
      [mkRequest PUT (config_url state entityId) (Some entityData)] /\
  match (http_put (config_url state entityId) entityData (store w)).1 with
  | inr r =>
      (Facade.putConfigEntity (IdmConfig_default state) entityId entityData
         w).1 = Fulfilled r /\
      (Facade.updateConfigEntity (IdmConfig_default state) entityId
         entityData None w).1 = Fulfilled r
  | inl e =>
      (Facade.putConfigEntity (IdmConfig_default state) entityId entityData
         w).1 = Rejected e /\
      (Facade.updateConfigEntity (IdmConfig_default state) entityId
         entityData None w).1 =
        Rejected
          (FrodoError ("Error updating config entity " +:+ entityId)
             (OneCause e))
  end.
Proof.
  cbn [Facade.putConfigEntity Facade.updateConfigEntity IdmConfig_default
       or_default].
  rewrite !forward_run, updateConfigEntity_run.
  unfold _putConfigEntity, async, bind, call, api_put, await. cbn.
  fold (config_url state entityId).
  destruct (http_put _ _ _) as [[e|r] s]; by repeat split.
Qed.
End FacadeProperties.

(** ** More on the export *)

Lemma obj_replace_keys (o : JsRecord) (k : string) (v : Entity) :
  Object_keys (obj_replace o k v) = Object_keys o.
Proof.
  induction o as [|[k' v'] o IH]; cbn; [reflexivity|].
  destruct (String.eqb k k'); cbn; [reflexivity|].
  unfold Object_keys in IH. by rewrite IH.
Qed.

Lemma obj_insert_keys (o : JsRecord) (k : string) (v : Entity) :
  Object_keys (obj_insert o k v) = key_insert (Object_keys o) k.
Proof.
  induction o as [|[k' v'] o IH]; cbn; [reflexivity|].
  destruct (precedes k k'); cbn; [reflexivity|].
  unfold Object_keys in IH. by rewrite IH.
Qed.

(** The keys after [o[k] = v]: those there were, with [k] in its place
    among them if it is new. *)
Lemma obj_set_keys (o : JsRecord) (k : string) (v : Entity) :
  Object_keys (obj_set o k v) =
    if includes (Object_keys o) k || String.eqb k "__proto__"
    then Object_keys o
    else key_insert (Object_keys o) k.
Proof.
  unfold obj_set. destruct (obj_get o k) as [x|] eqn:Hget.
  - apply obj_get_Some_keys, includes_elem_of in Hget. rewrite Hget.
    apply obj_replace_keys.
  - assert (includes (Object_keys o) k = false) as ->.
    { apply includes_false. intros Hin. apply obj_get_keys in Hin as [x Hx].
      congruence. }
    cbn. destruct (String.eqb k "__proto__"); [reflexivity|].
    apply obj_insert_keys.
Qed.

Lemma key_insert_Permutation (keys : list string) (k : string) :
  key_insert keys k ≡ₚ k :: keys.
Proof.
  induction keys as [|k' keys IH]; cbn; [reflexivity|].
  destruct (precedes k k'); [reflexivity|].
  rewrite IH. apply Permutation_swap.
Qed.

Lemma obj_set_NoDup (o : JsRecord) (k : string) (v : Entity) :
  NoDup (Object_keys o) -> NoDup (Object_keys (obj_set o k v)).
Proof.
  intros Hnodup. rewrite obj_set_keys.
  destruct (includes (Object_keys o) k) eqn:Hk; [assumption|].
  destruct (String.eqb k "__proto__"); [assumption|]. cbn.
  apply includes_false in Hk. rewrite key_insert_Permutation.
  by apply NoDup_cons.
Qed.

Lemma collect_NoDup results exportData :
  NoDup (Object_keys (idm exportData)) ->
  NoDup (Object_keys (idm (collect results exportData))).
Proof.
  unfold collect. revert exportData.
  induction results as [|[r|] results IH]; intros exportData Hnodup; cbn;
    [assumption| |by apply IH].
  apply IH. cbn. by apply obj_set_NoDup.
Qed.

Lemma collect_meta results exportData :
  meta (collect results exportData) = meta exportData.
Proof.
  unfold collect. revert exportData.
  induction results as [|[r|] results IH]; intros exportData; cbn;
    [reflexivity| |apply IH].
  by rewrite IH.
Qed.

Lemma collect_keys_fresh results exportData :
  NoDup (map _id results) ->
  "__proto__" ∉ map _id results ->
  (forall r, r ∈ results -> _id r ∉ Object_keys (idm exportData)) ->
  Object_keys (idm (collect (map Some results) exportData)) =
    fold_left key_insert (map _id results) (Object_keys (idm exportData)).
Proof.
  unfold collect. revert exportData.
  induction results as [|r results IH];
    intros exportData Hnodup Hproto Hfresh; cbn.
  { reflexivity. }
  apply NoDup_cons in Hnodup as [Hr Hnodup].
  cbn in Hproto. apply not_elem_of_cons in Hproto as [Hkey Hproto].
  assert (String.eqb (_id r) "__proto__" = false) as Hplain.
  { by destruct (String.eqb_spec (_id r) "__proto__"). }
  rewrite IH; cbn; [|assumption..|].
  - rewrite obj_set_keys, Hplain.
    by rewrite (proj2 (includes_false _ _))
      by (apply Hfresh, list_elem_of_here).
  - intros r' Hr'. rewrite obj_set_keys, Hplain.
    rewrite (proj2 (includes_false _ _))
      by (apply Hfresh, list_elem_of_here).
    cbn. rewrite key_insert_Permutation, elem_of_cons.
    intros [Heq|Hin].
    + apply Hr. rewrite <- Heq. by apply list_elem_of_fmap_2.
    + by apply (Hfresh r'); [apply list_elem_of_further|].
Qed.

(** *** The order of the keys *)

Lemma precedes_before k k' x :
  precedes k k' = true -> precedes x k' = false -> precedes x k = false.
Proof.
  unfold precedes.
  destruct (arrayIndex k) as [n|], (arrayIndex k') as [n'|],
    (arrayIndex x) as [m|]; try done.
  intros Hlt Hge. apply N.ltb_lt in Hlt. apply N.ltb_ge in Hge.
  apply N.ltb_ge. lia.
Qed.

Lemma key_insert_order (keys : list string) (k : string) :
  enumeration_order keys -> enumeration_order (key_insert keys k).
Proof.
  unfold enumeration_order.
  induction keys as [|k' keys IH]; intros Hsorted; cbn.
  { repeat constructor. }
  apply StronglySorted_inv in Hsorted as [Hrest Hall].
  destruct (precedes k k') eqn:Hbefore.
  - constructor; [by constructor|].
    constructor.
    + unfold precedes in *. destruct (arrayIndex k) as [n|]; [|done].
      destruct (arrayIndex k') as [n'|]; [|done].
      apply N.ltb_lt in Hbefore. apply N.ltb_ge. lia.
    + eapply Forall_impl; [exact Hall|].
      intros x Hx. by apply precedes_before with k'.
  - constructor; [by apply IH|].
    rewrite key_insert_Permutation. by constructor.
Qed.

Lemma key_insert_names (keys : list string) (k : string) :
  names (key_insert keys k) =
    names keys ++ (if isArrayIndex k then [] else [k]).
Proof.
  unfold names, isArrayIndex.
  induction keys as [|k' keys IH]; cbn.
  { by destruct (arrayIndex k). }
  destruct (precedes k k') eqn:Hbefore; cbn.
  - unfold precedes in Hbefore.
    destruct (arrayIndex k) as [n|]; [|done]. cbn. by rewrite app_nil_r.
  - rewrite IH. by destruct (arrayIndex k').
Qed.

Lemma enumerate_Permutation (ids keys : list string) :
  fold_left key_insert ids keys ≡ₚ keys ++ ids.
Proof.
  revert keys. induction ids as [|k ids IH]; intros keys; cbn.
  { by rewrite app_nil_r. }
  rewrite IH, key_insert_Permutation. cbn. apply Permutation_middle.
Qed.

Lemma enumerate_order (ids keys : list string) :
  enumeration_order keys -> enumeration_order (fold_left key_insert ids keys).
Proof.
  revert keys. induction ids as [|k ids IH]; intros keys Hkeys; cbn;
    [assumption|].
  by apply IH, key_insert_order.
Qed.

Lemma enumerate_names (ids keys : list string) :
  names (fold_left key_insert ids keys) = names keys ++ names ids.
Proof.
  revert keys. induction ids as [|k ids IH]; intros keys; cbn.
  { by rewrite app_nil_r. }
  rewrite IH, key_insert_names, <- app_assoc. f_equal.
  unfold names. cbn. by destruct (isArrayIndex k).
Qed.

Lemma names_all (keys : list string) :
  Forall (fun k => isArrayIndex k = false) keys -> names keys = keys.
Proof.
  unfold names. induction 1 as [|k keys Hk _ IH]; cbn; [reflexivity|].
  by rewrite Hk, IH.
Qed.

Section ExportMore.
Context {env : Env}.

(** X9. Every bundle the export returns carries the metadata of the state,
    has no key twice, and keeps each entity under the [_id] the entity
    itself bears; each entity is what the store answered to the refetch of
    a listed entity. *)
Theorem exported_bundle_is_keyed_by_id state w exportData :
  (exportConfigEntities state w).1 = Fulfilled (Some exportData) ->
  meta exportData = Some (getMetadata state) /\
  NoDup (Object_keys (idm exportData)) /\
  forall k r,
    obj_get (idm exportData) k = Some r ->
    _id r = k /\
    exists page c,
      http_get_query (entities_url state) (store w) = inr page /\
      c ∈ result page /\ refetch state (store w) c = inr r.
Proof.
  rewrite exportConfigEntities_run.
  destruct (http_get_query _ _) as [e|page]; cbn [fst];
    [by destruct (printError_throws _)|].
  intros Heq. injection Heq as <-.
  split; [by rewrite collect_meta|].
  split; [apply collect_NoDup; cbn; apply NoDup_nil_2|].
  intros k r Hget.
  apply collect_get_inv in Hget as [Hempty|[Hin Hid]]; [discriminate|].
  split; [assumption|].
  apply refetch_result_Some in Hin as (c & Hc & Hr). by exists page, c.
Qed.

Lemma refetch_results_all state s configurations :
  (forall c, c ∈ configurations ->
     exists r, refetch state s c = inr r /\ _id r = _id c) ->
  exists results,
    map (refetch_result state s) configurations = map Some results /\
    map _id results = map _id configurations /\
    concat (map (refetch_log state s) configurations) = [].
Proof.
  induction configurations as [|c cs IH]; intros Hall.
  { by exists []. }
  destruct (Hall c) as (r & Hr & Hid); [apply list_elem_of_here|].
  destruct IH as (results & Hres & Hids & Hlog).
  { intros c' Hc'. apply Hall. by apply list_elem_of_further. }
  exists (r :: results). cbn. unfold refetch_result at 1, refetch_log at 1.
  rewrite Hr, Hres, Hid, Hids, Hlog. by repeat split.
Qed.

(** X10. When the listed identifiers are distinct, none of them is
    [__proto__], and the store answers the
    refetch of each of them with the document of that identifier, the bundle
    holds exactly the listed identifiers, each with the document refetched,
    and no error message is printed.  Its keys are enumerated as the runtime
    enumerates the keys of an object: the identifiers that are array indices
    first, in ascending order, then the others in the order of the listing,
    which is the order of all the keys when no identifier is an array
    index. *)
Theorem export_of_a_sound_store_is_complete state w page :
  http_get_query (entities_url state) (store w) = inr page ->
  NoDup (map _id (result page)) ->
  "__proto__" ∉ map _id (result page) ->
  (forall c, c ∈ result page ->
     exists r, refetch state (store w) c = inr r /\ _id r = _id c) ->
  exists exportData out,
    (exportConfigEntities state w).1 = Fulfilled (Some exportData) /\
    Object_keys (idm exportData) ≡ₚ map _id (result page) /\
    enumeration_order (Object_keys (idm exportData)) /\
    names (Object_keys (idm exportData)) = names (map _id (result page)) /\
    (Forall (fun k => isArrayIndex k = false) (map _id (result page)) ->
     Object_keys (idm exportData) = map _id (result page)) /\
    (forall c r,
       c ∈ result page -> refetch state (store w) c = inr r ->
       obj_get (idm exportData) (_id c) = Some r) /\
    console (exportConfigEntities state w).2 = console w ++ out /\
    silent out.
Proof.
  intros Hlist Hnodup Hproto Hall.
  destruct (refetch_results_all state (store w) (result page) Hall)
    as (results & Hres & Hids & Hlog).
  rewrite exportConfigEntities_run, Hlist. cbn [fst snd console].
  eexists _, _. split; [reflexivity|].
  assert (Object_keys
            (idm (collect (map (refetch_result state (store w)) (result page))
                    (createConfigEntityExportTemplate state))) =
          fold_left key_insert (map _id (result page)) []) as Hkeys.
  { rewrite Hres, collect_keys_fresh; cbn.
    - by rewrite Hids.
    - by rewrite Hids.
    - by rewrite Hids.
    - intros r _ Hin. inversion Hin. }
  rewrite Hkeys.
  split; [apply enumerate_Permutation|].
  split; [apply enumerate_order; constructor|].
  split; [apply enumerate_names|].
  split.
  { intros Hnames.
    assert (Forall (fun k => isArrayIndex k = false)
              (fold_left key_insert (map _id (result page)) [])) as Hkept.
    { by rewrite enumerate_Permutation. }
    rewrite <- (names_all _ Hkept), enumerate_names. cbn.
    by apply names_all. }
  split; [|split; [reflexivity|]].
  - intros c r Hc Hr.
    destruct (Hall c Hc) as (r0 & Hr0 & Hid). rewrite Hr in Hr0.
    injection Hr0 as <-.
    destruct (collect_get_Some (map (refetch_result state (store w))
                                  (result page))
                (createConfigEntityExportTemplate state) r) as [r' Hget].
    { apply list_elem_of_fmap. exists c. split; [|assumption].
      unfold refetch_result. by rewrite Hr. }
    { intros Hkey. apply Hproto. rewrite <- Hkey, Hid.
      by apply list_elem_of_fmap_2. }
    rewrite Hid in Hget. rewrite Hget. f_equal.
    pose proof Hget as Hfrom.
    apply collect_get_inv in Hfrom as [Hempty|[Hin Hsame]]; [discriminate|].
    apply refetch_result_Some in Hin as (c' & Hc' & Hr').
    destruct (Hall c' Hc') as (r1 & Hr1 & Hid'). rewrite Hr' in Hr1.
    injection Hr1 as <-.
    unfold refetch in Hr, Hr'. rewrite <- Hid', Hsame, Hr in Hr'.
    by injection Hr'.
  - intros message type Hin.
    unfold export_console in Hin. rewrite Hlog in Hin.
    apply elem_of_cons in Hin as [Heq|Hin]; [discriminate|].
    apply elem_of_app in Hin as [Hin|Hin].
    + apply list_elem_of_fmap in Hin as (c & Heq & _). discriminate.
    + apply elem_of_cons in Hin as [Heq|Hin]; [discriminate|inversion Hin].
Qed.

(** X11. The export asks for the listing and then sends one refetch for
    each listed entity, in the order of the listing and whatever the earlier
    refetches answered; it sends nothing else and leaves the store as it
    is. *)
Theorem export_sends_one_refetch_per_listed state w page :
  http_get_query (entities_url state) (store w) = inr page ->
  requests (exportConfigEntities state w).2 =
    requests w ++
      mkRequest GET (entities_url state) None ::
      map (fun c => mkRequest GET (config_url state (_id c)) None)
        (result page) /\
  store (exportConfigEntities state w).2 = store w.
Proof.
  intros Hlist. by rewrite exportConfigEntities_run, Hlist.
Qed.

Lemma export_expected_cloud entityId e :
  httpStatus e = Some 403 ->
  httpMessage e =
    Some "This operation is not available in ForgeRock Identity Cloud." ->
  export_unexpected entityId (readEntityError entityId e) = false.
Proof.
  intros Hstatus Hmessage. unfold export_unexpected.
  cbn [readEntityError httpStatus httpMessage httpErrorReason].
  rewrite Hstatus, Hmessage. reflexivity.
Qed.

(** X12. Whatever the id, a refetch that fails with status 403 and the
    message of the operations the cloud offering does not have is passed
    over: the export prints no message about it and does not reject on its
    account (it rejects only when the listing itself has failed and
    [printError] throws; once the listing has succeeded it is fulfilled
    with a bundle). *)
Theorem export_passes_over_cloud_forbidden state w entityId e :
  http_get_entity (config_url state entityId) (store w) = inl e ->
  httpStatus e = Some 403 ->
  httpMessage e =
    Some "This operation is not available in ForgeRock Identity Cloud." ->
  exists out,
    console (exportConfigEntities state w).2 = console w ++ out /\
    (forall message type e',
       PrintMessage message type ∈ out ->
       message_error message <> Some (readEntityError entityId e')) /\
    (forall thrown,
       (exportConfigEntities state w).1 = Rejected thrown ->
       exists elist,
         http_get_query (entities_url state) (store w) = inl elist /\
         printError_throws (listingError elist) = Some thrown) /\
    (forall page,
       http_get_query (entities_url state) (store w) = inr page ->
       exists exportData,
         (exportConfigEntities state w).1 = Fulfilled (Some exportData)).
Proof.
  intros Hfetch Hstatus Hmessage.
  pose proof (exportConfigEntities_rejection state w) as Hrejects.
  rewrite exportConfigEntities_run in Hrejects |- *.
  destruct (http_get_query _ _) as [elist|page]; cbn.
  - eexists. split; [reflexivity|]. split; [|split; [exact Hrejects|]].
    + intros message type e' Hin.
      apply elem_of_cons in Hin as [Heq|Hin]; [discriminate|inversion Hin].
    + intros page Hpage. discriminate.
  - eexists. split; [reflexivity|]. split; [|split; [exact Hrejects|]].
    + intros message type e' Hin Hmsg.
      apply export_console_printed in Hin
        as (c & ec & Hc & Hfail & Hunexpected & Herr).
      rewrite Herr in Hmsg. apply (inj Some) in Hmsg.
      apply readEntityError_inj in Hmsg as [Hid ->].
      unfold refetch in Hfail. rewrite Hid, Hfetch in Hfail.
      injection Hfail as ->.
      rewrite Hid, (export_expected_cloud entityId e') in Hunexpected;
        [discriminate|assumption..].
    + intros page' _. by eexists.
Qed.

(** X13. A refetch of a listed entity that fails with a status other than
    403 and 404, or with no status at all, is never passed over: the export
    still completes with a bundle and prints the two error messages for that
    entity. *)
Theorem export_logs_failures_of_other_status state w page c e :
  http_get_query (entities_url state) (store w) = inr page ->
  c ∈ result page ->
  refetch state (store w) c = inl e ->
  httpStatus e <> Some 403 ->
  httpStatus e <> Some 404 ->
  exists exportData out,
    (exportConfigEntities state w).1 = Fulfilled (Some exportData) /\
    console (exportConfigEntities state w).2 = console w ++ out /\
    PrintMessage (ResponseData (readEntityError (_id c) e)) "error" ∈ out /\
    PrintMessage
      (TextAndError ("Error getting config entity " +:+ _id c +:+ ": ")
         (readEntityError (_id c) e)) "error" ∈ out.
Proof.
  intros Hlist Hc Hfetch H403 H404.
  rewrite exportConfigEntities_run, Hlist. cbn.
  eexists _, _. split; [reflexivity|]. split; [reflexivity|].
  assert (export_unexpected (_id c) (readEntityError (_id c) e) = true)
    as Hunexpected.
  { unfold export_unexpected.
    cbn [readEntityError httpStatus httpMessage httpErrorReason].
    destruct (httpStatus e) as [n|]; cbn; [|by rewrite andb_false_r].
    destruct (Z.eqb_spec n 403) as [->|_]; [done|].
    destruct (Z.eqb_spec n 404) as [->|_]; [done|].
    cbn. by rewrite andb_false_r. }
  assert (forall ev, ev ∈ refetch_log state (store w) c ->
            ev ∈ export_console state w (result page)) as Hlog.
  { intros ev Hev. unfold export_console.
    apply list_elem_of_further, elem_of_app. right.
    apply elem_of_app. left.
    apply list_elem_of_In, in_concat. exists (refetch_log state (store w) c).
    split; [|by apply list_elem_of_In].
    apply in_map, list_elem_of_In, Hc. }
  unfold refetch_log in Hlog. rewrite Hfetch in Hlog. cbn zeta in Hlog.
  rewrite Hunexpected in Hlog.
  split; [apply Hlog, list_elem_of_here|].
  apply Hlog, list_elem_of_further, list_elem_of_here.
Qed.
End ExportMore.

(** ** More on the import and the deletes *)

Section ImportMore.
Context {env : Env}.

Lemma import_protected_outside_cloud state entityId error :
  getDeploymentType state <> CLOUD_DEPLOYMENT_TYPE_KEY ->
  import_protected state entityId error = false.
Proof.
  intros Hcloud. unfold import_protected.
  by destruct (String.eqb_spec (getDeploymentType state)
                 CLOUD_DEPLOYMENT_TYPE_KEY).
Qed.


Lemma spec_importAll_count options state entries s :
  (forall k d e, (k, d) ∈ entries ->
     import_protected state k (updateError k e) = false) ->
  (length (applied (spec_importAll options state entries s).1) +
   length (recorded (spec_importAll options state entries s).1) =
   length entries)%nat.
Proof.
  revert s. induction entries as [|[k d] entries IH]; intros s Hnot;
    [reflexivity|].
  assert (forall k' d' e, (k', d') ∈ entries ->
            import_protected state k' (updateError k' e) = false) as Hnot'.
  { intros k' d' e Hin. apply (Hnot k' d'). by apply list_elem_of_further. }
  cbn [spec_importAll]. destruct (fails_validation options d).
  - specialize (IH s Hnot'). destruct (spec_importAll _ _ _ _).
    unfold applied, recorded in *. cbn in *. lia.
  - destruct (http_put _ _ _) as [[e|r] s1]; specialize (IH s1 Hnot');
      destruct (spec_importAll _ _ _ _); cbn [fst upsert_outcome] in *.
    + rewrite (Hnot k d e) by apply list_elem_of_here.
      unfold applied, recorded in *. cbn in *. lia.
    + unfold applied, recorded in *. cbn in *. lia.
Qed.

(** X14. Outside the cloud offering the import suppresses nothing: every id
    of the bundle gives an entity or an error, so that a call that succeeds
    returns one entity for each id, and a call that fails carries at least
    one and at most as many errors as there are ids. *)
Theorem import_outside_cloud_accounts_for_every_id
    importData options state w :
  getDeploymentType state <> CLOUD_DEPLOYMENT_TYPE_KEY ->
  match (importConfigEntities importData options state w).1 with
  | Fulfilled response =>
      length response = length (Object_keys (idm importData))
  | Rejected (FrodoError _ (ManyCauses errors)) =>
      (0 < length errors <= length (Object_keys (idm importData)))%nat
  | Rejected _ => False
  end.
Proof.
  intros Hcloud. rewrite importConfigEntities_run. cbn zeta. cbn [fst].
  pose proof (spec_importAll_count options state
                (Object_entries (idm importData)) (store w)) as Hcount.
  assert (length (Object_entries (idm importData)) =
            length (Object_keys (idm importData))) as Hlen
    by apply entries_of_length, obj_get_keys.
  rewrite Hlen in Hcount.
  specialize (Hcount (fun k d e _ =>
                        import_protected_outside_cloud state k _ Hcloud)).
  unfold import_settles.
  destruct (recorded _) as [|e errors]; cbn [length] in *; lia.
Qed.



(** X16. With no entity to work on, nothing is sent beyond a listing and
    nothing fails: the export of an empty listing gives a bundle with the
    metadata and no entity and reports zero entities; the import of a
    bundle without entities returns the empty list and sends nothing. *)
Theorem empty_working_sets state w page importData options :
  http_get_query (entities_url state) (store w) = inr page ->
  result page = [] ->
  idm importData = [] ->
  exportConfigEntities state w =
    (Fulfilled (Some (mkExport (Some (getMetadata state)) [])),
     mkWorld (store w)
       (requests w ++ [mkRequest GET (entities_url state) None])
       (console w ++
          [CreateProgressIndicator 0 "Exporting config entities...";
           StopProgressIndicator (newIndicatorId (console w))
             "Exported 0 config entities." "success"])) /\
  (importConfigEntities importData options state w).1 = Fulfilled [] /\
  requests (importConfigEntities importData options state w).2 = requests w /\
  store (importConfigEntities importData options state w).2 = store w.
Proof.
  intros Hlist Hnone Hidm. split.
  - rewrite exportConfigEntities_run, Hlist, Hnone. reflexivity.
  - rewrite importConfigEntities_run, Hidm. cbn.
    by rewrite app_nil_r.
Qed.
End ImportMore.

Section DeleteMore.
Context {env : Env}.


End DeleteMore.

(** ** The operations, one after the other, on an upsert store *)

Lemma Object_entries_NoDup (o : JsRecord) :
  NoDup (Object_keys o) -> Object_entries o = o.
Proof.
  unfold Object_entries, entries_of.
  assert (forall keys : list (string * Entity),
            NoDup (Object_keys keys) ->
            (forall k d, (k, d) ∈ keys -> obj_get o k = Some d) ->
            omap (fun k => pair k <$> obj_get o k) (Object_keys keys) = keys)
    as Hgen.
  { induction keys as [|[k d] keys IH]; intros Hnodup Hget; [reflexivity|].
    cbn in *. apply NoDup_cons in Hnodup as [_ Hnodup].
    rewrite (Hget k d) by apply list_elem_of_here. cbn. f_equal.
    apply IH; [assumption|].
    intros k' d' Hin. apply Hget. by apply list_elem_of_further. }
  intros Hnodup. apply Hgen; [assumption|].
  clear Hgen. induction o as [|[k d] o IH]; intros k' d' Hin;
    [inversion Hin|].
  cbn in *. apply NoDup_cons in Hnodup as [Hk Hnodup].
  apply elem_of_cons in Hin as [Heq|Hin].
  - injection Heq as -> ->. by rewrite String.eqb_refl.
  - destruct (String.eqb_spec k' k) as [->|_]; [|by apply IH].
    destruct Hk. apply list_elem_of_fmap. by exists (k, d').
Qed.

Section UpsertCompositions.
Variable refuses : string -> Entity -> option Error.
Variable get_stubs : string -> gmap string Entity -> Error + IdmConfigStubs.
Variable get_query : string -> gmap string Entity -> Error + PagedResult.
Variable delete_entity :
  string -> gmap string Entity -> (Error + Entity) * gmap string Entity.
Variable hostBaseUrl : string -> string.
Variable hooksValid : Entity -> bool.
Variable hookMessages : Entity -> list ConsoleEvent.
Variable metadata : State -> ExportMetaData.
Variable cloudKey : string.
Variable indicatorId : list ConsoleEvent -> string.
Variable printErrorThrows : Error -> option Error.

Local Abbreviation upsert_store :=
  (upsertEnv refuses get_stubs get_query delete_entity hostBaseUrl hooksValid
     hookMessages metadata cloudKey indicatorId printErrorThrows).

Variable options : ConfigEntityImportOptions.
Variable state : State.

(** X18. After an import into an upsert store, reading an id of the bundle
    whose entity passed validation and was not refused returns the entity of
    the bundle. *)
Theorem import_then_read_returns_the_bundle
    importData (w : World (E := upsert_store)) entityId entityData :
  obj_get (idm importData) entityId = Some entityData ->
  fails_validation (env := upsert_store) options entityData = false ->
  refuses (config_url (env := upsert_store) state entityId) entityData = None ->
  (readConfigEntity (env := upsert_store) entityId state
     (importConfigEntities (env := upsert_store) importData options state
        w).2).1 =
    Fulfilled entityData.
Proof.
  intros Hget Hvalid Hallowed.
  rewrite readConfigEntity_run, importConfigEntities_run.
  cbn zeta. cbn [fst snd store].
  change (@http_get_entity upsert_store) with
    (fun u (s : gmap string Entity) =>
       match s !! u with
       | Some d => @inr Error Entity d
       | None => inl (HttpError (Some 404) None (Some "Not Found") None)
       end).
  cbn beta.
  rewrite (spec_importAll_lookup refuses get_stubs get_query delete_entity
             hostBaseUrl hooksValid hookMessages metadata cloudKey indicatorId printErrorThrows
             options state _ _ entityId entityData); [reflexivity| |].
  - intros d' Hin. apply Object_entries_elem in Hin. congruence.
  - left. split; [by apply Object_entries_elem|by split].
Qed.

(** X19. On an upsert store that answers the refetch of each listed entity
    with the document of that identifier, importing the bundle an export has
    just returned leaves the store as it was; if moreover the store refuses
    nothing and the import does not validate, the import returns the
    entities of the bundle. *)
Theorem export_then_import_keeps_the_store
    (w : World (E := upsert_store)) page exportData :
  get_query (entities_url (env := upsert_store) state) (store w) = inr page ->
  answers_by_id (env := upsert_store) state (store w) (result page) ->
  (exportConfigEntities (env := upsert_store) state w).1 =
    Fulfilled (Some exportData) ->
  store
    (importConfigEntities (env := upsert_store) exportData options state
       (exportConfigEntities (env := upsert_store) state w).2).2 = store w /\
  ((forall u d, refuses u d = None) ->
   validate options = false ->
   (importConfigEntities (env := upsert_store) exportData options state
      (exportConfigEntities (env := upsert_store) state w).2).1 =
     Fulfilled (map snd (idm exportData))).
Proof.
  intros Hlist Hanswers Hexport.
  pose proof (exportConfigEntities_run (env := upsert_store) state w) as Hrun.
  change (@http_get_query upsert_store) with get_query in Hrun.
  rewrite Hlist in Hrun. rewrite Hrun in Hexport |- *. clear Hrun.
  cbn [fst snd store] in *. injection Hexport as Hbundle.
  assert (NoDup (Object_keys (idm exportData))) as Hnodup.
  { rewrite <- Hbundle. apply collect_NoDup. cbn. apply NoDup_nil_2. }
  assert (forall k d,
            (k, d) ∈ Object_entries (idm exportData) ->
            (store w : gmap string Entity)
              !! config_url (env := upsert_store) state k = Some d) as Hheld.
  { intros k d Hin. apply Object_entries_elem in Hin.
    rewrite <- Hbundle in Hin.
    apply collect_get_inv in Hin as [Hempty|[Hin Hid]]; [discriminate|].
    apply refetch_result_Some in Hin as (c & Hc & Hr).
    rewrite <- Hid, (Hanswers c d Hc Hr).
    unfold refetch in Hr.
    change (@http_get_entity upsert_store) with
      (fun u (s : gmap string Entity) =>
         match s !! u with
         | Some d => @inr Error Entity d
         | None => inl (HttpError (Some 404) None (Some "Not Found") None)
         end) in Hr.
    cbn beta in Hr.
    destruct (_ !! _) as [d'|]; [|discriminate]. by injection Hr as ->. }
  rewrite importConfigEntities_run. cbn zeta. cbn [fst snd store].
  split.
  - apply (spec_importAll_fixed refuses get_stubs get_query delete_entity
             hostBaseUrl hooksValid hookMessages metadata cloudKey indicatorId printErrorThrows
             options state).
    intros k d Hin _. by apply Hheld.
  - intros Hallowed Hvalidate.
    rewrite (Object_entries_NoDup _ Hnodup).
    assert (forall entries (s : gmap string Entity),
              (spec_importAll (env := upsert_store) options state entries s).1 =
                map (fun kd => Applied kd.2) entries) as Hall.
    { induction entries as [|[k d] entries IH]; intros s; [reflexivity|].
      rewrite (spec_importAll_step refuses get_stubs get_query delete_entity
                 hostBaseUrl hooksValid hookMessages metadata cloudKey
                 indicatorId printErrorThrows options state).
      unfold fails_validation. rewrite Hvalidate, Hallowed. cbn.
      by rewrite IH. }
    unfold import_settles. rewrite Hall.
    assert (forall entries : list (string * Entity),
              recorded (map (fun kd => Applied kd.2) entries) = [] /\
              applied (map (fun kd => Applied kd.2) entries) =
                map snd entries) as Hmap.
    { induction entries as [|[k d] entries [IH1 IH2]]; [done|].
      cbn. unfold applied, recorded in *. cbn. by rewrite IH1, IH2. }
    destruct (Hmap (idm exportData)) as [-> ->]. reflexivity.
Qed.

(** X20. On an upsert store, creating an entity that the store does not hold
    and does not refuse succeeds, and creating it again, with whatever
    content, is rejected because it exists and changes nothing. *)
Theorem create_twice_fails_the_second_time
    (w : World (E := upsert_store)) entityId entityData entityData' :
  (store w : gmap string Entity)
    !! config_url (env := upsert_store) state entityId = None ->
  refuses (config_url (env := upsert_store) state entityId) entityData = None ->
  (createConfigEntity (env := upsert_store) entityId entityData false state
     w).1 = Fulfilled entityData /\
  (createConfigEntity (env := upsert_store) entityId entityData' false state
     (createConfigEntity (env := upsert_store) entityId entityData false
        state w).2).1 =
    Rejected
      (FrodoError ("Config entity " +:+ entityId +:+ " already exists!")
         NoCause) /\
  store
    (createConfigEntity (env := upsert_store) entityId entityData' false state
       (createConfigEntity (env := upsert_store) entityId entityData false
          state w).2).2 =
    store (createConfigEntity (env := upsert_store) entityId entityData false
             state w).2.
Proof.
  intros Habsent Hallowed.
  assert (createConfigEntity (env := upsert_store) entityId entityData false
            state w =
          (Fulfilled entityData,
           mkWorld (E := upsert_store)
             (<[config_url (env := upsert_store) state entityId := entityData]>
                (store w : gmap string Entity))
             (requests w ++
                [mkRequest GET (config_url (env := upsert_store) state entityId)
                   None;
                 mkRequest PUT (config_url (env := upsert_store) state entityId)
                   (Some entityData)])
             (console w ++
                [DebugMessage "IdmConfigOps.createConfigEntity: start";
                 DebugMessage "IdmConfigOps.createConfigEntity: end"])))
    as Hfirst.
  { rewrite createConfigEntity_run.
    change (@http_get_entity upsert_store) with
      (fun u (s : gmap string Entity) =>
         match s !! u with
         | Some d => @inr Error Entity d
         | None => inl (HttpError (Some 404) None (Some "Not Found") None)
         end).
    cbn beta. rewrite Habsent. cbn zeta.
    change (put_url (env := upsert_store) state entityId false) with
      (config_url (env := upsert_store) state entityId).
    change (@http_put upsert_store) with (upsert refuses).
    unfold upsert. rewrite Hallowed. reflexivity. }
  rewrite Hfirst. split; [reflexivity|].
  rewrite createConfigEntity_run. cbn [fst snd store].
  change (@http_get_entity upsert_store) with
    (fun u (s : gmap string Entity) =>
       match s !! u with
       | Some d => @inr Error Entity d
       | None => inl (HttpError (Some 404) None (Some "Not Found") None)
       end).
  cbn beta. rewrite lookup_insert_eq. by split.
Qed.
End UpsertCompositions.

(** ** The further statements on the sample stores *)

Section TypedSample.
#[local] Existing Instance Extra.typed_store.

Lemma types_are_the_distinct_first_segments_witness :
  exists types,
    (readConfigEntityTypes Sample.cloud (Sample.start Extra.typed)).1 =
      Fulfilled types /\
    NoDup types /\
    forall t,
      t ∈ types <->
      exists stub,
        stub ∈ map (fun i => mkStub i i None)
                 ["managed/user"; "sync"; "managed/role";
                  "emailTemplate/welcome"] /\
        head (split_on "/"%char (stub_id stub)) = Some t.
Proof.
  apply (types_are_the_distinct_first_segments Sample.cloud
           (Sample.start Extra.typed)
           (mkStubs (map (fun i => mkStub i i None)
                       ["managed/user"; "sync"; "managed/role";
                        "emailTemplate/welcome"]))).
  reflexivity.
Defined.

Lemma types_in_first_seen_order_witness :
  (readConfigEntityTypes Sample.cloud (Sample.start Extra.typed)).1 =
    Fulfilled ["managed"; "sync"; "emailTemplate"].
Proof.
  apply (types_in_first_seen_order Sample.cloud (Sample.start Extra.typed)
           (mkStubs (map (fun i => mkStub i i None)
                       ["managed/user"; "sync"; "managed/role";
                        "emailTemplate/welcome"]))).
  reflexivity.
Defined.
End TypedSample.

Section DownSampleMore.
#[local] Existing Instance Sample.down_store.

Lemma types_listing_failure_wrapped_twice_witness :
  (readConfigEntityTypes Sample.cloud (Sample.start Sample.down)).1 =
    Rejected
      (FrodoError "Error reading config entity types"
         (OneCause
            (FrodoError "Error reading config entity stubs"
               (OneCause Sample.serverError)))) /\
  requests (readConfigEntityTypes Sample.cloud (Sample.start Sample.down)).2 =
    requests (Sample.start Sample.down) ++
      [mkRequest GET (stubs_url Sample.cloud) None].
Proof.
  apply (types_listing_failure_wrapped_twice Sample.cloud
           (Sample.start Sample.down) Sample.serverError).
  reflexivity.
Defined.
End DownSampleMore.

Section IdleSample.
#[local] Existing Instance Extra.idle_store.

Lemma create_existing_writes_nothing_witness :
  (createConfigEntity "sync" (Sample.hooked "sync") true Sample.cloud
     (Sample.start Extra.idle)).1 =
    Rejected
      (FrodoError ("Config entity " +:+ "sync" +:+ " already exists!")
         NoCause) /\
  requests (createConfigEntity "sync" (Sample.hooked "sync") true Sample.cloud
              (Sample.start Extra.idle)).2 =
    requests (Sample.start Extra.idle) ++
      [mkRequest GET (config_url Sample.cloud "sync") None] /\
  store (createConfigEntity "sync" (Sample.hooked "sync") true Sample.cloud
           (Sample.start Extra.idle)).2 =
    store (Sample.start Extra.idle).
Proof.
  apply (create_existing_writes_nothing "sync" (Sample.hooked "sync") true
           Sample.cloud (Sample.start Extra.idle) (Sample.doc "sync")).
  reflexivity.
Defined.

Lemma import_outside_cloud_accounts_for_every_id_witness :
  match
    (importConfigEntities Sample.templates (mkOptions false) Extra.classic
       (Sample.start Extra.idle)).1
  with
  | Fulfilled response =>
      length response = length (Object_keys (idm Sample.templates))
  | Rejected (FrodoError _ (ManyCauses errors)) =>
      (0 < length errors <= length (Object_keys (idm Sample.templates)))%nat
  | Rejected _ => False
  end.
Proof.
  apply (import_outside_cloud_accounts_for_every_id Sample.templates
           (mkOptions false) Extra.classic (Sample.start Extra.idle)).
  discriminate.
Defined.

Lemma empty_working_sets_witness :
  exportConfigEntities Sample.cloud (Sample.start Extra.idle) =
    (Fulfilled (Some (mkExport (Some (getMetadata Sample.cloud)) [])),
     mkWorld (store (Sample.start Extra.idle))
       (requests (Sample.start Extra.idle) ++
          [mkRequest GET (entities_url Sample.cloud) None])
       (console (Sample.start Extra.idle) ++
          [CreateProgressIndicator 0 "Exporting config entities...";
           StopProgressIndicator
             (newIndicatorId (console (Sample.start Extra.idle)))
             "Exported 0 config entities." "success"])) /\
  (importConfigEntities Extra.nothing (mkOptions true) Sample.cloud
     (Sample.start Extra.idle)).1 = Fulfilled [] /\
  requests (importConfigEntities Extra.nothing (mkOptions true) Sample.cloud
              (Sample.start Extra.idle)).2 =
    requests (Sample.start Extra.idle) /\
  store (importConfigEntities Extra.nothing (mkOptions true) Sample.cloud
           (Sample.start Extra.idle)).2 =
    store (Sample.start Extra.idle).
Proof.
  apply (empty_working_sets Sample.cloud (Sample.start Extra.idle)
           (mkPaged []) Extra.nothing (mkOptions true));
    reflexivity.
Defined.
End IdleSample.

Section UnreadableSample.
#[local] Existing Instance Extra.unreadable_store.

Lemma create_writes_after_any_read_failure_witness :
  requests (createConfigEntity "sync" (Sample.doc "sync") true Sample.cloud
              (Sample.start Extra.unreadable)).2 =
    requests (Sample.start Extra.unreadable) ++
      [mkRequest GET (config_url Sample.cloud "sync") None;
       mkRequest PUT
         (idmConfigURLTemplate (getHostBaseUrl (getHost Sample.cloud))
            ("sync" +:+ "?waitForCompletion=true"))
         (Some (Sample.doc "sync"))] /\
  store (createConfigEntity "sync" (Sample.doc "sync") true Sample.cloud
           (Sample.start Extra.unreadable)).2 =
    (http_put (put_url Sample.cloud "sync" true) (Sample.doc "sync")
       (store (Sample.start Extra.unreadable))).2 /\
  (createConfigEntity "sync" (Sample.doc "sync") true Sample.cloud
     (Sample.start Extra.unreadable)).1 =
    match
      (http_put (put_url Sample.cloud "sync" true) (Sample.doc "sync")
         (store (Sample.start Extra.unreadable))).1
    with
    | inr a => Fulfilled a
    | inl e =>
        Rejected
          (FrodoError ("Error creating config entity " +:+ "sync")
             (OneCause
                (FrodoError ("Error updating config entity " +:+ "sync")
                   (OneCause e))))
    end.
Proof.
  apply (create_writes_after_any_read_failure "sync" (Sample.doc "sync") true
           Sample.cloud (Sample.start Extra.unreadable)
           (Sample.notFound "sync")).
  reflexivity.
Defined.
End UnreadableSample.

Section PartlySample.
#[local] Existing Instance Extra.partly_store.

Lemma exported_bundle_is_keyed_by_id_witness :
  meta (mkExport (Some (Extra.metadata Sample.cloud))
          [("sync", Sample.doc "sync")]) =
    Some (getMetadata Sample.cloud) /\
  NoDup (Object_keys [("sync", Sample.doc "sync")]) /\
  forall k r,
    obj_get [("sync", Sample.doc "sync")] k = Some r ->
    _id r = k /\
    exists page c,
      http_get_query (entities_url Sample.cloud)
        (store (Sample.start Sample.partly)) = inr page /\
      c ∈ result page /\
      refetch Sample.cloud (store (Sample.start Sample.partly)) c = inr r.
Proof.
  apply (exported_bundle_is_keyed_by_id Sample.cloud
           (Sample.start Sample.partly)
           (mkExport (Some (Extra.metadata Sample.cloud))
              [("sync", Sample.doc "sync")])).
  reflexivity.
Defined.

Lemma export_sends_one_refetch_per_listed_witness :
  requests (exportConfigEntities Sample.cloud (Sample.start Sample.partly)).2 =
    requests (Sample.start Sample.partly) ++
      mkRequest GET (entities_url Sample.cloud) None ::
      map (fun c => mkRequest GET (config_url Sample.cloud (_id c)) None)
        [Sample.doc "sync"; Sample.doc "managed"] /\
  store (exportConfigEntities Sample.cloud (Sample.start Sample.partly)).2 =
    store (Sample.start Sample.partly).
Proof.
  apply (export_sends_one_refetch_per_listed Sample.cloud
           (Sample.start Sample.partly)
           (mkPaged [Sample.doc "sync"; Sample.doc "managed"])).
  reflexivity.
Defined.

Lemma export_logs_failures_of_other_status_witness :
  exists exportData out,
    (exportConfigEntities Sample.cloud (Sample.start Sample.partly)).1 =
      Fulfilled (Some exportData) /\
    console (exportConfigEntities Sample.cloud (Sample.start Sample.partly)).2 =
      console (Sample.start Sample.partly) ++ out /\
    PrintMessage
      (ResponseData (readEntityError "managed" Sample.serverError)) "error"
      ∈ out /\
    PrintMessage
      (TextAndError ("Error getting config entity " +:+ "managed" +:+ ": ")
         (readEntityError "managed" Sample.serverError)) "error" ∈ out.
Proof.
  apply (export_logs_failures_of_other_status Sample.cloud
           (Sample.start Sample.partly)
           (mkPaged [Sample.doc "sync"; Sample.doc "managed"])
           (Sample.doc "managed") Sample.serverError).
  - reflexivity.
  - apply list_elem_of_further, list_elem_of_here.
  - reflexivity.
  - discriminate.
  - discriminate.
Defined.
End PartlySample.

Section SoundSample.
#[local] Existing Instance Extra.sound_store.

Lemma export_of_a_sound_store_is_complete_witness :
  exists exportData out,
    (exportConfigEntities Sample.cloud (Sample.start Extra.sound)).1 =
      Fulfilled (Some exportData) /\
    Object_keys (idm exportData) ≡ₚ ["sync"; "7"; "managed"; "10"] /\
    enumeration_order (Object_keys (idm exportData)) /\
    names (Object_keys (idm exportData)) =
      names ["sync"; "7"; "managed"; "10"] /\
    (Forall (fun k => isArrayIndex k = false)
       ["sync"; "7"; "managed"; "10"] ->
     Object_keys (idm exportData) = ["sync"; "7"; "managed"; "10"]) /\
    (forall c r,
       c ∈ map Sample.doc ["sync"; "7"; "managed"; "10"] ->
       refetch Sample.cloud (store (Sample.start Extra.sound)) c = inr r ->
       obj_get (idm exportData) (_id c) = Some r) /\
    console (exportConfigEntities Sample.cloud (Sample.start Extra.sound)).2 =
      console (Sample.start Extra.sound) ++ out /\
    silent out.
Proof.
  apply (export_of_a_sound_store_is_complete Sample.cloud
           (Sample.start Extra.sound)
           (mkPaged (map Sample.doc ["sync"; "7"; "managed"; "10"]))).
  - reflexivity.
  - apply (bool_decide_unpack _). by vm_compute.
  - apply (bool_decide_unpack _). by vm_compute.
  - intros c Hc. cbn in Hc.
    repeat (apply elem_of_cons in Hc as [->|Hc]; [by eexists|]).
    inversion Hc.
Defined.

(** The keys of that bundle, as enumerated: the two array indices first. *)
Example export_keys_of_numbered_identifiers :
  exists exportData,
    (exportConfigEntities Sample.cloud (Sample.start Extra.sound)).1 =
      Fulfilled (Some exportData) /\
    Object_keys (idm exportData) = ["7"; "10"; "sync"; "managed"].
Proof. eexists. split; reflexivity. Qed.
End SoundSample.

Section CloudlessSample.
#[local] Existing Instance Extra.cloudless_store.

Lemma export_passes_over_cloud_forbidden_witness :
  exists out,
    console (exportConfigEntities Sample.cloud
               (Sample.start Extra.cloudless)).2 =
      console (Sample.start Extra.cloudless) ++ out /\
    (forall message type e',
       PrintMessage message type ∈ out ->
       message_error message <> Some (readEntityError "sync" e')) /\
    (forall thrown,
       (exportConfigEntities Sample.cloud (Sample.start Extra.cloudless)).1 =
         Rejected thrown ->
       exists elist,
         http_get_query (entities_url Sample.cloud)
           (store (Sample.start Extra.cloudless)) = inl elist /\
         printError_throws (listingError elist) = Some thrown) /\
    (forall page,
       http_get_query (entities_url Sample.cloud)
         (store (Sample.start Extra.cloudless)) = inr page ->
       exists exportData,
         (exportConfigEntities Sample.cloud (Sample.start Extra.cloudless)).1 =
           Fulfilled (Some exportData)).
Proof.
  apply (export_passes_over_cloud_forbidden Sample.cloud
           (Sample.start Extra.cloudless) "sync"
           (HttpError (Some 403) (Some "ERR_BAD_REQUEST") (Some "Forbidden")
              (Some "This operation is not available in ForgeRock Identity Cloud.")));
    reflexivity.
Defined.
End CloudlessSample.

Section RefusingSample.
#[local] Existing Instance Extra.refusing_store.

End RefusingSample.

Section ScriptsSample.
#[local] Existing Instance Extra.scripts_store.


(** Of three scripts listed, the second cannot be deleted: a delete is sent
    for each of the three and the aggregate holds the one error. *)
Example delete_by_type_three_scripts :
  (deleteConfigEntitiesByType "script" Sample.cloud
     (Sample.start Extra.scripts)).1 =
    Rejected (FrodoError "Error deleting config entities by type"
                (ManyCauses [Sample.serverError])) /\
  map url
    (requests (deleteConfigEntitiesByType "script" Sample.cloud
                 (Sample.start Extra.scripts)).2) =
    [ "https://idm.example.com/openidm/config?_queryFilter=_id%20sw%20'script'";
      Sample.url_of "script/a"; Sample.url_of "script/b";
      Sample.url_of "script/c" ].
Proof. split; reflexivity. Qed.
End ScriptsSample.

Section MemorySample.
#[local] Existing Instance Extra.memory.

Lemma import_then_read_returns_the_bundle_witness :
  (readConfigEntity "managed" Sample.cloud
     (importConfigEntities Sample.templates (mkOptions false) Sample.cloud
        Extra.empty_memory).2).1 =
    Fulfilled (Sample.doc "managed").
Proof.
  apply (import_then_read_returns_the_bundle (fun _ _ => None)
           (fun _ _ => inr (mkStubs [mkStub "sync" "sync" None]))
           (fun _ _ => inr (mkPaged [Sample.doc "sync"]))
           (fun u s => (inl (Sample.notFound u), s))
           schemeAndAuthority Sample.no_hooks Sample.hook_messages Extra.metadata
           "cloud" (fun _ => "indicator") prints_and_returns (mkOptions false) Sample.cloud
           Sample.templates Extra.empty_memory "managed"
           (Sample.doc "managed"));
    reflexivity.
Defined.

Lemma export_then_import_keeps_the_store_witness :
  store
    (importConfigEntities
       (mkExport (Some (Extra.metadata Sample.cloud))
          [("sync", Sample.doc "sync")])
       (mkOptions false) Sample.cloud
       (exportConfigEntities Sample.cloud Extra.holding_sync).2).2 =
    store Extra.holding_sync /\
  ((forall (u : string) (d : Entity), @None Error = None) ->
   validate (mkOptions false) = false ->
   (importConfigEntities
      (mkExport (Some (Extra.metadata Sample.cloud))
         [("sync", Sample.doc "sync")])
      (mkOptions false) Sample.cloud
      (exportConfigEntities Sample.cloud Extra.holding_sync).2).1 =
     Fulfilled [Sample.doc "sync"]).
Proof.
  apply (export_then_import_keeps_the_store (fun _ _ => None)
           (fun _ _ => inr (mkStubs [mkStub "sync" "sync" None]))
           (fun _ _ => inr (mkPaged [Sample.doc "sync"]))
           (fun u s => (inl (Sample.notFound u), s))
           schemeAndAuthority Sample.no_hooks Sample.hook_messages Extra.metadata
           "cloud" (fun _ => "indicator") prints_and_returns (mkOptions false) Sample.cloud
           Extra.holding_sync (mkPaged [Sample.doc "sync"])
           (mkExport (Some (Extra.metadata Sample.cloud))
              [("sync", Sample.doc "sync")])).
  - reflexivity.
  - intros c r Hc Hr.
    apply elem_of_cons in Hc as [->|Hc]; [|inversion Hc].
    vm_compute in Hr. by injection Hr as <-.
  - vm_compute. reflexivity.
Defined.

Lemma create_twice_fails_the_second_time_witness :
  (createConfigEntity "managed" (Sample.doc "managed") false Sample.cloud
     Extra.holding_sync).1 = Fulfilled (Sample.doc "managed") /\
  (createConfigEntity "managed" (Sample.hooked "managed") false Sample.cloud
     (createConfigEntity "managed" (Sample.doc "managed") false Sample.cloud
        Extra.holding_sync).2).1 =
    Rejected
      (FrodoError ("Config entity " +:+ "managed" +:+ " already exists!")
         NoCause) /\
  store
    (createConfigEntity "managed" (Sample.hooked "managed") false Sample.cloud
       (createConfigEntity "managed" (Sample.doc "managed") false Sample.cloud
          Extra.holding_sync).2).2 =
    store (createConfigEntity "managed" (Sample.doc "managed") false
             Sample.cloud Extra.holding_sync).2.
Proof.
  apply (create_twice_fails_the_second_time (fun _ _ => None)
           (fun _ _ => inr (mkStubs [mkStub "sync" "sync" None]))
           (fun _ _ => inr (mkPaged [Sample.doc "sync"]))
           (fun u s => (inl (Sample.notFound u), s))
           schemeAndAuthority Sample.no_hooks Sample.hook_messages Extra.metadata
           "cloud" (fun _ => "indicator") prints_and_returns Sample.cloud
           Extra.holding_sync "managed" (Sample.doc "managed")
           (Sample.hooked "managed")).
  - vm_compute. reflexivity.
  - reflexivity.
Defined.
End MemorySample.
